(** * Migration-assessment core: classifier, integration model, graph and bundles

    A shallow embedding of the pure parts of
      - [backend/services/classifier.py]  (signal scoring, risk)
      - [backend/routers/assessment.py]   (findings parsing, integration
        model, instruction override, dependency graph, bundle clustering)
    together with the properties the specification states about them.

    Conventions of the embedding.
      - Python text is a Rocq [string]; letter case and white space follow
        the ASCII rules of [str.lower] and [str.strip].
      - Values of unknown shape (decoded JSON) are the inductive [pyval].
      - A Python exception is the [Raise] outcome of the [result] monad.
      - Python's own library functions that are not part of the repository
        ([json.loads], [re.search], [repr]) are section variables. *)

From Stdlib Require Import ZArith QArith String Ascii List Bool Lia.
From Stdlib Require Import Floats.SpecFloat.
From Stdlib Require Import Sorting.Sorted.
From stdpp Require Import base option list gmap strings pretty.

Set Warnings "-register-all,-clear-no-such-hyp,-level-tolerance".

Open Scope string_scope.
Open Scope list_scope.
Open Scope Z_scope.

(* ===================================================================== *)
(** * Python values and errors *)
(* ===================================================================== *)

Inductive pyval : Type :=
| PNone
| PBool (b : bool)
| PInt (n : Z)
| PFloat (f : spec_float)
| PStr (s : string)
| PList (l : list pyval)
| PDict (d : list (string * pyval)).

Inductive exn : Type := TypeError | KeyError | ValueError.

(** Outcome of a call: a value, a Python exception, or [OutOfFuel] when a
    [while] loop of the model used up its iteration bound (shown below
    never to happen). *)
Inductive result (A : Type) : Type :=
| Ok (a : A)
| Raise (e : exn)
| OutOfFuel.
Arguments Ok {A} a.
Arguments Raise {A} e.
Arguments OutOfFuel {A}.

(** The error monad, with stdpp's [x ← r; k] notation. *)
Global Instance result_ret : MRet result := fun A a => Ok a.
Global Instance result_bind : MBind result := fun A B k r =>
  match r with
  | Ok a => k a
  | Raise e => Raise e
  | OutOfFuel => OutOfFuel
  end.

Global Instance result_fmap : FMap result := fun A B f r =>
  match r with
  | Ok a => Ok (f a)
  | Raise e => Raise e
  | OutOfFuel => OutOfFuel
  end.

Definition is_ok {A} (r : result A) : bool :=
  match r with Ok _ => true | _ => false end.

Module Py.

(** [bool(v)]: the truth value Python gives to a value. *)
Definition truthy (v : pyval) : bool :=
  match v with
  | PNone => false
  | PBool b => b
  | PInt n => negb (n =? 0)
  | PFloat f => match f with S754_zero _ => false | _ => true end
  | PStr s => negb (String.eqb s "")
  | PList l => match l with [] => false | _ => true end
  | PDict d => match d with [] => false | _ => true end
  end.

(** [a or b] *)
Definition or_ (a b : pyval) : pyval := if truthy a then a else b.

(** [d.get(k)] on the association list of a dict: first binding of [k]. *)
Fixpoint lookup (k : string) (d : list (string * pyval)) : option pyval :=
  match d with
  | [] => None
  | (k', v) :: d' => if String.eqb k k' then Some v else lookup k d'
  end.

(** [d.get(k)] and [d.get(k, dflt)]. *)
Definition get (d : list (string * pyval)) (k : string) : pyval :=
  match lookup k d with Some v => v | None => PNone end.
Definition get_default (d : list (string * pyval)) (k : string) (dflt : pyval) : pyval :=
  match lookup k d with Some v => v | None => dflt end.

Definition is_upper (c : ascii) : bool :=
  let n := nat_of_ascii c in (65 <=? n)%nat && (n <=? 90)%nat.

Definition lower_char (c : ascii) : ascii :=
  if is_upper c then ascii_of_nat (nat_of_ascii c + 32) else c.

Definition upper_char (c : ascii) : ascii :=
  let n := nat_of_ascii c in
  if (97 <=? n)%nat && (n <=? 122)%nat then ascii_of_nat (n - 32) else c.

(** [s.lower()] and [s.upper()] *)
Fixpoint lower (s : string) : string :=
  match s with
  | EmptyString => EmptyString
  | String c s' => String (lower_char c) (lower s')
  end.

Fixpoint upper (s : string) : string :=
  match s with
  | EmptyString => EmptyString
  | String c s' => String (upper_char c) (upper s')
  end.

(** The characters [str.isspace] accepts. *)
Definition is_space (c : ascii) : bool :=
  let n := nat_of_ascii c in
  ((9 <=? n)%nat && (n <=? 13)%nat) || ((28 <=? n)%nat && (n <=? 32)%nat).

Fixpoint lstrip (s : string) : string :=
  match s with
  | EmptyString => EmptyString
  | String c s' => if is_space c then lstrip s' else s
  end.

Fixpoint rstrip (s : string) : string :=
  match s with
  | EmptyString => EmptyString
  | String c s' =>
      match rstrip s' with
      | EmptyString => if is_space c then EmptyString else String c EmptyString
      | r => String c r
      end
  end.

(** [s.strip()] *)
Definition strip (s : string) : string := rstrip (lstrip s).

(** [s.split(sep)] for a one-character separator. *)
Fixpoint split (sep : ascii) (s : string) : list string :=
  match s with
  | EmptyString => [EmptyString]
  | String c s' =>
      if Ascii.eqb c sep then EmptyString :: split sep s'
      else match split sep s' with
           | [] => [String c EmptyString]
           | w :: ws => String c w :: ws
           end
  end.

(** [sub in s] *)
Fixpoint contains (sub s : string) : bool :=
  String.prefix sub s ||
  match s with
  | EmptyString => false
  | String _ s' => contains sub s'
  end.

(** [s.endswith(suf)] *)
Definition endswith (s suf : string) : bool :=
  let n := String.length s in
  let m := String.length suf in
  (m <=? n)%nat && String.eqb (String.substring (n - m) m s) suf.

(** [sep.join(l)] *)
Definition join (sep : string) (l : list string) : string := String.concat sep l.

(** The one-character strings a [for] loop over a string yields. *)
Fixpoint chars (s : string) : list string :=
  match s with
  | EmptyString => []
  | String c s' => String c EmptyString :: chars s'
  end.

(** [for x in v]: the items the loop visits, or [TypeError] when [v] is
    not iterable. *)
Definition iter (v : pyval) : result (list pyval) :=
  match v with
  | PList l => Ok l
  | PStr s => Ok (map PStr (chars s))
  | PDict d => Ok (map (fun kv => PStr (fst kv)) d)
  | PNone | PBool _ | PInt _ | PFloat _ => Raise TypeError
  end.

(** [sorted(set(l))] on strings: strictly increasing, same elements. *)
Fixpoint insert_sorted (x : string) (l : list string) : list string :=
  match l with
  | [] => [x]
  | y :: l' =>
      match String.compare x y with
      | Lt => x :: y :: l'
      | Eq => y :: l'
      | Gt => y :: insert_sorted x l'
      end
  end.

Definition sorted_set (l : list string) : list string :=
  fold_right insert_sorted [] l.

End Py.

(** [max(keys, key=f)] over a non-empty sequence of keys: the first key
    whose value no other key exceeds. *)
Definition max_by {K} (f : K -> Z) (first : K) (rest : list K) : K :=
  fold_left (fun best k => if f best <? f k then k else best) rest first.

(** A [for] loop whose body may raise: the state is threaded through the
    items in order and the first exception ends the loop. *)
Fixpoint for_each {A S} (l : list A) (body : S -> A -> result S) (s : S) : result S :=
  match l with
  | [] => Ok s
  | x :: rest => s' ← body s x; for_each rest body s'
  end.

(** Keys of a dict built by inserting [l] in order: each key once, at the
    position of its first insertion. *)
Definition dict_keys {K} `{EqDecision K} (l : list K) : list K :=
  fold_left (fun acc k => if decide (k ∈ acc) then acc else acc ++ [k]) l [].

(* ===================================================================== *)
(** * Pattern classifier  (services/classifier.py) *)
(* ===================================================================== *)

Module Classifier.

(** The keys of [PATTERNS]. *)
Inductive pid : Type := P1 | P2 | P3 | P4 | P5.

Global Instance pid_eq_dec : EqDecision pid.
Proof. solve_decision. Defined.

Definition pid_name (p : pid) : string :=
  match p with P1 => "P1" | P2 => "P2" | P3 => "P3" | P4 => "P4" | P5 => "P5" end.

(** Iteration order of the [PATTERNS] dict. *)
Definition PATTERN_IDS : list pid := [P1; P2; P3; P4; P5].

Record Pattern := {
  pat_id : pid;
  pat_name : string;
  pat_short : string;
  pat_gcp_target : string
}.

Definition PATTERNS (p : pid) : Pattern :=
  match p with
  | P1 => Build_Pattern P1 "GCE Replatform" "gce" "GCE"
  | P2 => Build_Pattern P2 "Load Balancer Migration" "lb" "Cloud Load Balancing"
  | P3 => Build_Pattern P3 "Database Rebuild" "db" "Cloud SQL"
  | P4 => Build_Pattern P4 "PCF → GKE" "gke" "GKE"
  | P5 => Build_Pattern P5 "Messaging Rebuild" "pubsub" "Pub/Sub"
  end.

(** Scores, weights, confidence and risk are decimal numbers with at most
    two digits after the point.  They are held in hundredths: the weight
    [0.35] is [35], the cap [1.0] is [100], the risk [4.0] is [400].  The
    source computes on binary floating point and rounds to two digits
    (one for the risk) when it builds the result. *)
Record signal := Signal { sig_regex : string; sig_pid : pid; sig_weight : Z }.

Definition SIGNALS : list signal := [
  (* P1 (GCE) *)
  Signal "terraform" P1 30;
  Signal "\.tf$" P1 30;
  Signal "github.?actions|\.github" P1 20;
  Signal "azure.?vm|azurerm_virtual" P1 40;
  Signal "startup.?script|systemd|service.?unit" P1 30;
  Signal "nginx|apache|iis" P1 25;
  Signal "main\.tf|variables\.tf" P1 35;
  Signal "app.?server|web.?server" P1 20;
  (* P2 (LB) *)
  Signal "load.?balanc" P2 40;
  Signal "azure_lb|azurerm_lb" P2 50;
  Signal "backend.?pool|frontend.?ip" P2 40;
  Signal "health.?probe|health.?check" P2 30;
  Signal "ingress|ssl.?cert|https" P2 20;
  Signal "traffic.?manager|app.?gateway" P2 35;
  Signal "port.*80|port.*443" P2 15;
  (* P3 (Database) *)
  Signal "sql|database|db" P3 25;
  Signal "azure.?sql|azurerm_sql|mssql" P3 50;
  Signal "postgres|postgresql|pg" P3 30;
  Signal "mysql|mariadb" P3 30;
  Signal "flyway|liquibase|alembic|migrate" P3 30;
  Signal "connectionstring|datasource.url" P3 35;
  Signal "dms|data.?migration|replicat" P3 40;
  Signal "entity.?framework|hibernate|jpa" P3 25;
  Signal "\.sql$|schema\.sql|init\.sql" P3 40;
  (* P4 (PCF/GKE) *)
  Signal "manifest\.yml|cf.?manifest" P4 60;
  Signal "buildpack|cloudfoundry|pcf" P4 60;
  Signal "cf push|cf create" P4 50;
  Signal "kubernetes|k8s|kubectl" P4 40;
  Signal "deployment\.yaml|service\.yaml" P4 40;
  Signal "dockerfile|docker-compose" P4 35;
  Signal "helm|helmfile" P4 40;
  Signal "spring.?boot|spring.?cloud" P4 20;
  Signal "\.jar$|mvn|gradle" P4 15;
  (* P5 (Messaging) *)
  Signal "service.?bus|servicebus" P5 60;
  Signal "event.?hub|eventhub" P5 50;
  Signal "azure.*messag|amqp" P5 50;
  Signal "queue|topic|subscription" P5 30;
  Signal "pub.?sub|pubsub|google.*pub" P5 30;
  Signal "kafka|rabbitmq|activemq" P5 25;
  Signal "message.?flow|integration.?flow" P5 35;
  Signal "dead.?letter|dlq" P5 40;
  Signal "@serviceactivator|@messaginggateway" P5 40
].

Inductive complexity_t : Type := low | medium | high.

Record ClassifyResult := {
  pattern_id : pid;
  pattern_name : string;
  gcp_target : string;
  confidence : Z;
  scores : pid -> Z;
  signals_hit : list string;
  risk_score : Z;
  complexity : complexity_t;
  findings : list string
}.

Definition newline : string := String (ascii_of_nat 10) EmptyString.

(** [round(x, 2)] of a value held in hundredths. *)
Definition round2 (x : Z) : Z := x.

(** [round(x, 1)] of a value held in hundredths: to the nearest multiple
    of ten, a tie going to the even tenth. *)
Definition round1 (x : Z) : Z :=
  let q := x / 10 in
  let r := x mod 10 in
  if r <? 5 then 10 * q
  else if 5 <? r then 10 * (q + 1)
  else if Z.even q then 10 * q else 10 * (q + 1).

Section Classify.

(** [re.search(regex, text, flags) is not None]; the first argument says
    whether [re.IGNORECASE] is passed. *)
Variable re_search : bool -> string -> string -> bool.

(** [scores[k] = v] *)
Definition set_score (sc : pid -> Z) (k : pid) (v : Z) : pid -> Z :=
  fun p => if decide (p = k) then v else sc p.

(** The scoring loop over [SIGNALS]; its state is [(scores, signals_hit)]. *)
Definition score_step (combined : string) (st : (pid -> Z) * list string) (s : signal)
  : (pid -> Z) * list string :=
  let '(sc, hit) := st in
  if re_search true (sig_regex s) combined
  then (set_score sc (sig_pid s) (Z.min 100 (sc (sig_pid s) + sig_weight s)),
        hit ++ [pid_name (sig_pid s) +:+ ":" +:+ sig_regex s])
  else (sc, hit).

Definition score_signals (sigs : list signal) (combined : string)
  : (pid -> Z) * list string :=
  fold_left (score_step combined) sigs (fun _ => 0, []).

Definition _calc_risk (files : list string) (content : string) (pattern : pid) : Z :=
  let risk := 400 in
  let risk := if decide (pattern = P3) then risk + 200 else risk in
  let risk := if decide (pattern = P4) then risk + 150 else risk in
  let risk := if decide (pattern = P5) then risk + 150 else risk in
  let risk := if re_search true "secret|password|credential|api.?key" content
              then risk + 50 else risk in
  let risk := if re_search true "legacy|deprecated|eof|end.?of.?life" content
              then risk + 50 else risk in
  let risk := if existsb (fun f => Py.endswith f ".sql") files then risk + 50 else risk in
  Z.min 1000 risk.

Definition _generate_findings (files : list string) (content : string) (pattern : pid)
  : list string :=
  let add (c : bool) (msg : string) : list string := if c then [msg] else [] in
  firstn 10 (
    add (re_search false "TODO|FIXME|HACK|XXX" content)
        "Code contains TODO/FIXME markers" ++
    add (re_search false "localhost|127\.0\.0\.1" content)
        "Hardcoded localhost references detected — update for GCP" ++
    add (re_search false "azure\.com|azurewebsites|azurecontainer" content)
        "Azure-specific hostnames detected — must be replaced with GCP endpoints" ++
    add (re_search true "connectionstring.*azure|azure.*connectionstring" content)
        "Azure connection strings present — update to Cloud SQL / GCP credentials" ++
    add (re_search true "servicenow|snow\.com" content)
        "ServiceNow references present — configure integration" ++
    add (re_search true "jenkins|jenkinsfile" content)
        "Jenkins pipeline detected — will be updated for GCP deploy" ++
    add (negb (existsb (fun f => Py.endswith f ".tf") files))
        "No Terraform files found — will be generated by migration engine" ++
    add (negb (existsb (fun f => Py.contains ".github" f || Py.contains "github/workflows" f) files))
        "No GitHub Actions found — CI/CD pipeline will be generated" ++
    add (bool_decide (pattern = P4) &&
         negb (existsb (fun f => Py.contains "dockerfile" (Py.lower f)) files))
        "PCF app without Dockerfile — Dockerfile will be generated for GKE" ++
    add (bool_decide (pattern = P3) && re_search true "mssql|sqlserver|azure.*sql" content)
        "MSSQL/Azure SQL detected — DMS heterogeneous migration required").

Definition classify_repo (files : list string) (content_sample : string) : ClassifyResult :=
  let combined := Py.lower (Py.join " " files) +:+ newline +:+ Py.lower content_sample in
  let '(sc, hit) := score_signals SIGNALS combined in
  let best_pid := max_by sc P1 [P2; P3; P4; P5] in
  let best_score := sc best_pid in
  let '(best_pid, best_score) :=
    if best_score <? 10 then (P1, 15) else (best_pid, best_score) in
  let pattern := PATTERNS best_pid in
  let conf := Z.min 99 best_score in
  let risk := _calc_risk files content_sample best_pid in
  let loc_estimate := length (Py.split (ascii_of_nat 10) content_sample) in
  let cplx := if (loc_estimate <? 500)%nat then low
              else if (5000 <? loc_estimate)%nat then high else medium in
  {| pattern_id := best_pid;
     pattern_name := pat_name pattern;
     gcp_target := pat_gcp_target pattern;
     confidence := round2 conf;
     scores := fun k => round2 (sc k);
     signals_hit := firstn 20 hit;
     risk_score := round1 risk;
     complexity := cplx;
     findings := _generate_findings files content_sample best_pid |}.

End Classify.

End Classifier.

(* ===================================================================== *)
(** * Assessment router  (routers/assessment.py) *)
(* ===================================================================== *)

Module Assessment.

(** ** Integration model extraction *)

(** One entry of [app_links] / [db_links]; the source builds them as
    two-key dicts. *)
Record app_link := AppLink { target : string; coupling : string }.
Record db_link := DbLink { datastore : string; db_coupling : string }.

Record integration_model := IntegrationModel {
  app_links : list app_link;
  db_links : list db_link;
  tags : list string
}.

Section Extractor.

(** [json.loads]: [None] stands for any exception it raises. *)
Variable json_loads : string -> option pyval.
(** [str(v)] of floats, lists and dicts (Python's [repr]). *)
Variable py_repr : pyval -> string.

(** [str(v)] *)
Definition py_str (v : pyval) : string :=
  match v with
  | PNone => "None"
  | PBool true => "True"
  | PBool false => "False"
  | PInt n => pretty n
  | PStr s => s
  | PFloat _ | PList _ | PDict _ => py_repr v
  end.

Definition _parse_findings (findings_raw : pyval) : list pyval :=
  match findings_raw with
  | PNone => []
  | PList l => l
  | PDict _ => [findings_raw]
  | PStr s =>
      match json_loads s with
      | Some (PList l) => l
      | Some (PDict d) => [PDict d]
      | Some _ => []
      | None => []
      end
  | PBool _ | PInt _ | PFloat _ => []
  end.

(** The three accumulators of the extraction loop. *)
Record acc := Acc {
  acc_app_links : list app_link;
  acc_db_links : list db_link;
  acc_tags : list string
}.

(** [str(p.get("coupling") or item.get("coupling") or "loose").lower()] *)
Definition point_coupling (p item : list (string * pyval)) : string :=
  Py.lower (py_str (Py.or_ (Py.get p "coupling")
                      (Py.or_ (Py.get item "coupling") (PStr "loose")))).

(** [str(item.get("coupling") or "loose").lower()] *)
Definition item_coupling (item : list (string * pyval)) : string :=
  Py.lower (py_str (Py.or_ (Py.get item "coupling") (PStr "loose"))).

(** Body of [for p in points]. *)
Definition point_links (item : list (string * pyval)) (p : pyval) : list app_link :=
  match p with
  | PDict pd =>
      if Py.truthy (Py.get pd "target")
      then [AppLink (py_str (Py.get pd "target")) (point_coupling pd item)]
      else []
  | _ => []
  end.

(** Body of [for d in item.get("datastores") or []]. *)
Definition datastore_links (cpl : string) (d : pyval) : list db_link :=
  let ds := Py.lower (py_str d) in
  if negb (String.eqb ds "") && negb (String.eqb ds "none")
  then [DbLink ds cpl] else [].

(** Body of [for item in findings]. *)
Definition extract_item (a : acc) (item : pyval) : result acc :=
  match item with
  | PDict it =>
      let ftype := Py.lower (py_str (Py.get_default it "type" (PStr ""))) in
      if String.eqb ftype "metadata" then
        let raw_tags := Py.or_ (Py.get it "tags") (PList []) in
        match raw_tags with
        | PList ts =>
            Ok (Acc (acc_app_links a) (acc_db_links a)
                  (acc_tags a ++
                   map (fun t => Py.lower (py_str t)) (List.filter Py.truthy ts)))
        | _ => Ok a
        end
      else if String.eqb ftype "app_to_app_integration" then
        let points := Py.get it "integration_points" in
        match points with
        | PList (p :: ps) =>
            Ok (Acc (acc_app_links a ++ flat_map (point_links it) (p :: ps))
                  (acc_db_links a) (acc_tags a))
        | _ =>
            ts ← Py.iter (Py.or_ (Py.get it "targets") (PList []));
            Ok (Acc (acc_app_links a ++
                     map (fun t => AppLink (py_str t) (item_coupling it)) ts)
                  (acc_db_links a) (acc_tags a))
        end
      else if String.eqb ftype "app_to_db_integration" then
        let cpl := item_coupling it in
        ds ← Py.iter (Py.or_ (Py.get it "datastores") (PList []));
        Ok (Acc (acc_app_links a)
              (acc_db_links a ++ flat_map (datastore_links cpl) ds)
              (acc_tags a))
      else Ok a
  | _ => Ok a
  end.

Definition _extract_integration_model (findings_raw : pyval) : result integration_model :=
  a ← for_each (_parse_findings findings_raw) extract_item (Acc [] [] []);
  Ok (IntegrationModel (acc_app_links a) (acc_db_links a) (Py.sorted_set (acc_tags a))).

End Extractor.


(** ** Instruction override *)

(** Keys of the [scores] dict of [_apply_pattern_instructions]. *)
Definition OVERRIDE_IDS : list string := ["P1"; "P2"; "P3"; "P4"; "P5"].

(** [[k.strip().lower() for k in text.split(",") if k.strip()]] *)
Definition keywords (text : string) : list string :=
  map (fun k => Py.lower (Py.strip k))
      (List.filter (fun k => negb (String.eqb (Py.strip k) "")) (Py.split "," text)).

(** [scores[pid] += 1] *)
Definition bump (pid : string) (sc : gmap string Z) : result (gmap string Z) :=
  match sc !! pid with
  | Some n => Ok (<[pid := n + 1]> sc)
  | None => Raise KeyError
  end.

(** Body of [for pid, text in instructions.items()]. *)
Definition instruction_step (content : string) (sc : gmap string Z) (entry : string * string)
  : result (gmap string Z) :=
  let '(pid, text) := entry in
  if String.eqb text "" then Ok sc
  else for_each (firstn 50 (keywords text))
         (fun sc kw => if Py.contains kw content then bump pid sc else Ok sc) sc.

(** [instructions] is the dict as the list of its items, in iteration
    order; the caller builds it from the rows of [pattern_instructions],
    whose [instructions] column is [TEXT NOT NULL]. *)
Definition _apply_pattern_instructions
    (classified_pattern : string) (content_sample : string)
    (instructions : list (string * string)) : result string :=
  let content := Py.lower content_sample in
  let scores0 : gmap string Z := list_to_map (map (fun p => (p, 0)) OVERRIDE_IDS) in
  sc ← for_each instructions (instruction_step content) scores0;
  let best := max_by (fun k => default 0 (sc !! k)) "P1" ["P2"; "P3"; "P4"; "P5"] in
  if 2 <=? default 0 (sc !! best) then Ok best else Ok classified_pattern.

(** ** Application rows *)

(** The columns of [applications] the graph and bundle views select.
    [None] is SQL [NULL]; [id] is the primary key and [name] is
    [NOT NULL].  [findings_json] is what [row2dict] leaves in the row: the
    decoded JSON, or the raw string when it does not parse. *)
Record app_row := AppRow {
  id : string;
  name : string;
  pattern_id : option string;
  gcp_target : option string;
  risk_score : option Q;
  findings_json : pyval
}.

(** ** Dependency graph *)

(** A node payload, by its ["type"]: ["app"], ["gcp"], ["external_app"]
    or ["db"]. *)
Inductive node : Type :=
| AppNode (node_id label : string) (pattern : option string)
    (risk_score : Q) (risk : string) (critical : bool)
| GcpNode (node_id label : string)
| ExternalAppNode (node_id label : string)
| DbNode (node_id label : string).

Definition node_id (n : node) : string :=
  match n with
  | AppNode i _ _ _ _ _ | GcpNode i _ | ExternalAppNode i _ | DbNode i _ => i
  end.

(** An edge, by its ["label"]: ["migrates_to"] (type ["api"]), ["calls"]
    (type ["app"]) and ["reads/writes"] (type ["db"]); the last two carry
    ["coupling"] and ["weight"]. *)
Inductive edge : Type :=
| MigratesTo (from to : string)
| Calls (from to : string) (coupling : string) (weight : Z)
| ReadsWrites (from to : string) (coupling : string) (weight : Z).

(** [add_node]: [seen_nodes] holds exactly the ids of [nodes]. *)
Definition add_node (nodes : list node) (n : node) : list node :=
  if decide (node_id n ∈ map node_id nodes) then nodes else nodes ++ [n].

(** ** Bundles *)

(** The two dicts the clustering loop fills. *)
Record graph := Graph {
  neighbors : gmap string (gset string);
  affinity : gmap (string * string) Z
}.

(** [tuple(sorted((a, b)))] *)
Definition pair_key (a b : string) : string * string :=
  if String.ltb b a then (b, a) else (a, b).

(** [neighbors[x].add(y)] *)
Definition add_neighbor (x y : string) (nb : gmap string (gset string))
  : result (gmap string (gset string)) :=
  match nb !! x with
  | Some s => Ok (<[x := s ∪ {[y]}]> nb)
  | None => Raise KeyError
  end.

(** The four statements that record an undirected edge [a]–[b] of
    affinity at least [w]. *)
Definition link_pair (a b : string) (w : Z) (g : graph) : result graph :=
  nb1 ← add_neighbor a b (neighbors g);
  nb2 ← add_neighbor b a nb1;
  let key := pair_key a b in
  Ok (Graph nb2 (<[key := Z.max (default 0 (affinity g !! key)) w]> (affinity g))).

Record bundle := Bundle {
  bundle_id : string;
  bundle_pattern_id : option string;
  app_ids : list string;
  apps : list app_row;
  avg_risk : Q;
  bundle_coupling : string;
  affinity_score : Z;
  bundle_reason : string
}.

(** [components.sort(key=len, reverse=True)]: a stable sort, longest
    first. *)
Fixpoint insert_by_len (c : list string) (l : list (list string)) : list (list string) :=
  match l with
  | [] => [c]
  | d :: l' =>
      if (length c <? length d)%nat then d :: insert_by_len c l' else c :: d :: l'
  end.

Definition sort_by_len_desc (l : list (list string)) : list (list string) :=
  fold_right insert_by_len [] l.

(** [f"{i:03d}"] *)
Definition pad3 (i : nat) : string :=
  let s := pretty i in
  match String.length s with
  | 1%nat => "00" +:+ s
  | 2%nat => "0" +:+ s
  | _ => s
  end.

(** A list comprehension whose element expression may raise. *)
Fixpoint map_result {A B} (f : A -> result B) (l : list A) : result (list B) :=
  match l with
  | [] => Ok []
  | x :: rest => y ← f x; ys ← map_result f rest; Ok (y :: ys)
  end.

Definition Zsum (l : list Z) : Z := fold_right Z.add 0 l.
Definition Qsum (l : list Q) : Q := fold_right Qplus (0 # 1)%Q l.

(** [[tuple(sorted((a, b))) for a in comp for b in comp if a < b]] *)
Definition internal_pairs (comp : list string) : list (string * string) :=
  flat_map (fun a => map (pair_key a) (List.filter (String.ltb a) comp)) comp.

(** [sum(affinity_score.get(p, 0) for p in internal_pairs)] *)
Definition bundle_affinity (aff : gmap (string * string) Z) (comp : list string) : Z :=
  Zsum (map (fun p => default 0 (aff !! p)) (internal_pairs comp)).

Section Views.

Variable json_loads : string -> option pyval.
Variable py_repr : pyval -> string.
(** [for nxt in neighbors[cur]]: the order in which the set stored under
    [cur] yields its elements (it depends on string hashes and on the
    insertion history of that set). *)
Variable set_iter : string -> gset string -> list string.

Local Abbreviation extract := (_extract_integration_model json_loads py_repr).

(** *** [dependency_graph] *)

Definition graph_app_link (app_ids : gset string) (app : app_row)
    (st : list node * list edge) (link : app_link) : list node * list edge :=
  let '(nodes, edges) := st in
  let tgt := target link in
  let cpl := coupling link in
  if decide (tgt ∈ app_ids)
  then (nodes, edges ++ [Calls (id app) tgt cpl (if String.eqb cpl "tight" then 3 else 1)])
  else
    let ext_id := "ext-" +:+ tgt in
    (add_node nodes (ExternalAppNode ext_id tgt), edges ++ [Calls (id app) ext_id cpl 1]).

Definition graph_db_link (app : app_row)
    (st : list node * list edge) (dl : db_link) : list node * list edge :=
  let '(nodes, edges) := st in
  let cpl := db_coupling dl in
  let db_node := "db-" +:+ datastore dl in
  (add_node nodes (DbNode db_node (Py.upper (datastore dl))),
   edges ++ [ReadsWrites (id app) db_node cpl (if String.eqb cpl "tight" then 4 else 2)]).

(** Body of [for app in apps]. *)
Definition graph_app (app_ids : gset string)
    (st : list node * list edge) (app : app_row) : result (list node * list edge) :=
  let '(nodes, edges) := st in
  let risk := default (0 # 1)%Q (risk_score app) in
  let high_risk := Qle_bool (70 # 1) risk in
  let nodes := add_node nodes
    (AppNode (id app) (name app) (pattern_id app) risk
       (if high_risk then "high" else if Qle_bool (40 # 1) risk then "medium" else "low")
       high_risk) in
  let target_id := "gcp-" +:+ id app in
  let gcp_label := match gcp_target app with
                   | Some t => if String.eqb t "" then "GCP" else t
                   | None => "GCP"
                   end in
  let nodes := add_node nodes (GcpNode target_id gcp_label) in
  let edges := edges ++ [MigratesTo (id app) target_id] in
  model ← extract (findings_json app);
  let st := fold_left (graph_app_link app_ids app) (app_links model) (nodes, edges) in
  Ok (fold_left (graph_db_link app) (db_links model) st).

Definition dependency_graph (apps : list app_row) : result (list node * list edge) :=
  let app_ids : gset string := list_to_set (map id apps) in
  for_each apps (graph_app app_ids) ([], []).

(** *** [bundles] *)

Definition bundle_app_link (app_map : gmap string app_row) (app : app_row)
    (g : graph) (link : app_link) : result graph :=
  match app_map !! target link with
  | None => Ok g
  | Some _ =>
      link_pair (id app) (target link)
        (if String.eqb (coupling link) "tight" then 3 else 1) g
  end.

(** Body of [for other in apps]. *)
Definition bundle_other (app : app_row) (dl : db_link)
    (g : graph) (other : app_row) : result graph :=
  if String.eqb (id other) (id app) then Ok g
  else
    other_model ← extract (findings_json other);
    let other_dbs : gset string := list_to_set (map datastore (db_links other_model)) in
    if decide (datastore dl ∈ other_dbs) then link_pair (id app) (id other) 4 g
    else Ok g.

Definition bundle_db_link (all : list app_row) (app : app_row)
    (g : graph) (dl : db_link) : result graph :=
  if String.eqb (db_coupling dl) "tight" then for_each all (bundle_other app dl) g
  else Ok g.

(** Body of the first [for app in apps]. *)
Definition bundle_app (all : list app_row) (app_map : gmap string app_row)
    (g : graph) (app : app_row) : result graph :=
  model ← extract (findings_json app);
  g1 ← for_each (app_links model) (bundle_app_link app_map app) g;
  for_each (db_links model) (bundle_db_link all app) g1.

(** Body of [for nxt in neighbors[cur]]; the stack is kept top first. *)
Definition visit_neighbor (st : list string * gset string) (nxt : string)
  : list string * gset string :=
  let '(stack, visited) := st in
  if decide (nxt ∈ visited) then st else (nxt :: stack, visited ∪ {[nxt]}).

(** [while stack: ...], at most [fuel] iterations. *)
Fixpoint dfs_loop (fuel : nat) (nb : gmap string (gset string))
    (stack comp : list string) (visited : gset string)
  : result (list string * gset string) :=
  match stack with
  | [] => Ok (comp, visited)
  | cur :: rest =>
      match fuel with
      | O => OutOfFuel
      | S fuel' =>
          match nb !! cur with
          | None => Raise KeyError
          | Some s =>
              let '(stack', visited') :=
                fold_left visit_neighbor (set_iter cur s) (rest, visited) in
              dfs_loop fuel' nb stack' (comp ++ [cur]) visited'
          end
      end
  end.

(** Body of [for app_id in neighbors]. *)
Definition component_step (fuel : nat) (nb : gmap string (gset string))
    (st : gset string * list (list string)) (app_id : string)
  : result (gset string * list (list string)) :=
  let '(visited, components) := st in
  if decide (app_id ∈ visited) then Ok st
  else
    r ← dfs_loop fuel nb [app_id] [] (visited ∪ {[app_id]});
    Ok (snd r, components ++ [fst r]).

(** Body of [for i, comp in enumerate(components, start=1)].  [avg_risk]
    is the exact mean; the source rounds it to two decimals. *)
Definition make_bundle (app_map : gmap string app_row)
    (aff : gmap (string * string) Z) (i : nat) (comp : list string) : result bundle :=
  members ← map_result
    (fun x => match app_map !! x with Some a => Ok a | None => Raise KeyError end) comp;
  pattern ← match dict_keys (map pattern_id members) with
            | [] => Raise ValueError
            | k :: ks =>
                Ok (max_by
                      (fun k => Z.of_nat (length (List.filter
                                  (fun x => bool_decide (pattern_id x = k)) members)))
                      k ks)
            end;
  let total := bundle_affinity aff comp in
  let cpl := if Z.max 4 (Z.of_nat (length comp) * 2) <=? total then "tight" else "loose" in
  risks ← map_result
    (fun m => match risk_score m with Some r => Ok r | None => Raise TypeError end) members;
  Ok {| bundle_id := "BUNDLE-" +:+ pad3 i;
        bundle_pattern_id := pattern;
        app_ids := map id members;
        apps := members;
        avg_risk := (Qsum risks / (Z.of_nat (Nat.max (length members) 1) # 1))%Q;
        bundle_coupling := cpl;
        affinity_score := total;
        bundle_reason := if String.eqb cpl "tight"
                         then "Tightly coupled via shared DB/integration"
                         else "Loosely coupled; can migrate in silos" |}.

Fixpoint make_bundles (app_map : gmap string app_row)
    (aff : gmap (string * string) Z) (i : nat) (components : list (list string))
  : result (list bundle) :=
  match components with
  | [] => Ok []
  | comp :: rest =>
      b ← make_bundle app_map aff i comp;
      bs ← make_bundles app_map aff (S i) rest;
      Ok (b :: bs)
  end.

(** The connected components, in discovery order.  Every id is pushed at
    most once, so the number of keys bounds the iterations of each
    [while] loop. *)
Definition components_of (keys : list string) (nb : gmap string (gset string))
  : result (list (list string)) :=
  r ← for_each keys (component_step (length keys) nb) (∅, []);
  Ok (snd r).

(** The two dicts after the first loop over [apps]. *)
Definition build_graph (all : list app_row) : result graph :=
  let app_map : gmap string app_row :=
    fold_left (fun m a => <[id a := a]> m) all ∅ in
  let neighbors0 : gmap string (gset string) :=
    fold_left (fun m a => <[id a := ∅]> m) all ∅ in
  for_each all (bundle_app all app_map) (Graph neighbors0 ∅).

(** The ["items"] of the response. *)
Definition bundles (all : list app_row) : result (list bundle) :=
  match all with
  | [] => Ok []
  | _ =>
      let app_map : gmap string app_row :=
        fold_left (fun m a => <[id a := a]> m) all ∅ in
      g ← build_graph all;
      components ← components_of (dict_keys (map id all)) (neighbors g);
      make_bundles app_map (affinity g) 1 (sort_by_len_desc components)
  end.

End Views.

(** ** Scan job *)

(** The dict [_diagnose_scan_error] returns. *)
Record diagnosis := Diagnosis {
  error_code : string;
  failure_reason : string;
  remediation : string;
  raw_error : string
}.

(** The exception is given by its text, [str(exc)]. *)
Definition _diagnose_scan_error (exc : string) : diagnosis :=
  let raw := if String.eqb exc "" then "Unknown scan error" else exc in
  let lowered := Py.lower raw in
  if Py.contains "409" lowered && Py.contains "conflict" lowered then
    Diagnosis "REPO_CONFLICT"
      "One or more selected repositories cannot be scanned (commonly empty repos without commits)."
      "Remove empty repositories from selection or create an initial commit (for example a README) and rerun."
      raw
  else if Py.contains "403" lowered &&
          (Py.contains "rate limit" lowered || Py.contains "api rate limit" lowered) then
    Diagnosis "GITHUB_RATE_LIMIT"
      "GitHub API rate limit exceeded for the current token."
      "Wait for GitHub rate limit reset or use a token with higher quota and rerun the scan."
      raw
  else if Py.contains "401" lowered || Py.contains "unauthorized" lowered then
    Diagnosis "GITHUB_AUTH"
      "GitHub authentication failed while scanning repositories."
      "Reconnect GitHub with a valid token that has repository read permissions."
      raw
  else if Py.contains "404" lowered || Py.contains "not found" lowered then
    Diagnosis "REPO_NOT_FOUND"
      "One or more selected repositories were not found or are inaccessible."
      "Verify repository names and token access permissions, then rerun the scan."
      raw
  else
    Diagnosis "SCAN_FAILED"
      "Unexpected failure occurred during orchestrated scan execution."
      "Check selected repositories and integration connectivity, then retry the scan."
      raw.

Definition _framework_from_files (files : list string) : string :=
  let lower := Py.lower (Py.join Classifier.newline files) in
  if Py.contains "pom.xml" lower || Py.contains "build.gradle" lower then "spring"
  else if Py.contains "package.json" lower then "node"
  else if Py.contains "requirements.txt" lower || Py.contains ".py" lower then "python"
  else if Py.contains ".csproj" lower then ".net"
  else "unknown".

(** The [deps] list of [_run_scan_job]. *)
Definition scan_dependencies (files : list string) : list string :=
  (if existsb (Py.contains "package.json") files then ["npm"] else []) ++
  (if existsb (Py.contains "requirements.txt") files then ["pip"] else []) ++
  (if existsb (Py.contains "pom.xml") files then ["maven"] else []) ++
  (if existsb (Py.contains "build.gradle") files then ["gradle"] else []).

(** [f"{run_id[:8]}-APP-{idx:03d}"] *)
Definition scan_app_id (run_id : string) (idx : nat) : string :=
  String.substring 0 8 run_id +:+ "-APP-" +:+ pad3 idx.

(** The key of [PATTERNS] a text names. *)
Definition pattern_key (s : string) : option Classifier.pid :=
  List.find (fun p => String.eqb (Classifier.pid_name p) s) Classifier.PATTERN_IDS.

Section Scan.

Variable re_search : bool -> string -> string -> bool.

(** Classification of one repository by [_run_scan_job]: the classifier's
    result, relabelled when the instructions select another pattern. *)
Definition scan_classify (files : list string) (content_sample : string)
    (pattern_instructions : list (string * string)) : result Classifier.ClassifyResult :=
  let result := Classifier.classify_repo re_search files content_sample in
  selected_pattern ←
    _apply_pattern_instructions (Classifier.pid_name (Classifier.pattern_id result))
      content_sample pattern_instructions;
  if negb (String.eqb selected_pattern (Classifier.pid_name (Classifier.pattern_id result)))
  then
    match pattern_key selected_pattern with
    | None => Raise KeyError
    | Some p =>
        Ok {| Classifier.pattern_id := p;
              Classifier.pattern_name := Classifier.pat_name (Classifier.PATTERNS p);
              Classifier.gcp_target := Classifier.pat_gcp_target (Classifier.PATTERNS p);
              Classifier.confidence := Classifier.confidence result;
              Classifier.scores := Classifier.scores result;
              Classifier.signals_hit := Classifier.signals_hit result;
              Classifier.risk_score := Classifier.risk_score result;
              Classifier.complexity := Classifier.complexity result;
              Classifier.findings := Classifier.findings result |}
    end
  else Ok result.

End Scan.

(** ** Pattern instructions table *)

(** The table [pattern_instructions]: [pattern_id] is its primary key and
    [instructions] is [TEXT NOT NULL]. *)
Abbreviation instruction_table := (gmap string string).

(** [INSERT OR IGNORE ... VALUES (pid, '')] for the five patterns
    ([database.py], [_seed_default_data]). *)
Definition seed_pattern_instructions (t : instruction_table) : instruction_table :=
  fold_left (fun t pid => match t !! pid with Some _ => t | None => <[pid := ""]> t end)
            OVERRIDE_IDS t.

(** [save_pattern_instructions] on a payload whose two fields are JSON
    strings ([None]: the field is absent or [null]).  The result [None]
    is the HTTP 400 rejection, which leaves the table as it is. *)
Definition save_pattern_instructions (t : instruction_table)
    (payload_pattern_id payload_instructions : option string) : option instruction_table :=
  let pattern_id := Py.upper (default "" payload_pattern_id) in
  let instructions := default "" payload_instructions in
  if decide (pattern_id ∈ OVERRIDE_IDS) then Some (<[pattern_id := instructions]> t)
  else None.

(** ** Insights: simple integration counts *)

Section Integrations.

Variable json_loads : string -> option pyval.
Variable py_repr : pyval -> string.

(** Body of [for item in findings] of [_extract_integrations]; the state
    is [(app_targets, db_targets)]. *)
Definition integrations_item (st : list string * list string) (item : pyval)
  : list string * list string :=
  match item with
  | PDict it =>
      let '(app_targets, db_targets) := st in
      let ftype := Py.lower (py_str py_repr (Py.get_default it "type" (PStr ""))) in
      let app_targets :=
        if String.eqb ftype "app_to_app_integration" then
          match Py.or_ (Py.get it "targets") (PList []) with
          | PList targets =>
              app_targets ++ map (py_str py_repr) (List.filter Py.truthy targets)
          | _ => app_targets
          end
        else app_targets in
      let db_targets :=
        if String.eqb ftype "app_to_db_integration" then
          match Py.or_ (Py.get it "datastores") (PList []) with
          | PList stores =>
              db_targets ++
              map (fun d => Py.lower (py_str py_repr d))
                  (List.filter
                     (fun d => Py.truthy d &&
                               negb (String.eqb (Py.lower (py_str py_repr d)) "none"))
                     stores)
          | _ => db_targets
          end
        else db_targets in
      (app_targets, db_targets)
  | _ => st
  end.

Definition _extract_integrations (findings_raw : pyval) : list string * list string :=
  fold_left integrations_item (_parse_findings json_loads findings_raw) ([], []).

End Integrations.

End Assessment.

(* ===================================================================== *)
(** * GitHub client  (services/github_client.py) *)
(* ===================================================================== *)

Module GithubClient.

(** [s.split(sep, 1)] for a one-character separator. *)
Fixpoint split1 (sep : ascii) (s : string) : list string :=
  match s with
  | EmptyString => [EmptyString]
  | String c s' =>
      if Ascii.eqb c sep then [EmptyString; s']
      else match split1 sep s' with
           | [] => [String c EmptyString]
           | w :: ws => String c w :: ws
           end
  end.

Definition parse_full_name (full_name : string) : result (string * string) :=
  if negb (Py.contains "/" full_name) then Raise ValueError
  else
    match split1 "/" full_name with
    | [owner; repo] => Ok (Py.strip owner, Py.strip repo)
    | _ => Raise ValueError
    end.

End GithubClient.

(* ===================================================================== *)
(** * Sample inputs and predicates used in the statements *)
(* ===================================================================== *)

Module Samples.
Import Assessment.

Definition newline_text : string := String (ascii_of_nat 10) EmptyString.

(** [[{"type":"app_to_db_integration","datastores":["MySQL","none"],"coupling":"Tight"}]] *)
Definition mysql_findings : pyval :=
  PList [PDict [("type", PStr "app_to_db_integration");
                ("datastores", PList [PStr "MySQL"; PStr "none"]);
                ("coupling", PStr "Tight")]].

(** [[{"type":"app_to_db_integration","datastores":7}]] *)
Definition scalar_datastores : pyval :=
  PList [PDict [("type", PStr "app_to_db_integration"); ("datastores", PInt 7)]].

(** [[{"type":"app_to_app_integration","targets":7}]] *)
Definition scalar_targets : pyval :=
  PList [PDict [("type", PStr "app_to_app_integration"); ("targets", PInt 7)]].

(** One application ["A"] whose findings record a tight link to ["B"], an
    application that is not part of the run. *)
Definition app_calling_outside : app_row :=
  AppRow "A" "billing" (Some "P1") (Some "GCE") (Some (5 # 1)%Q)
    (PList [PDict [("type", PStr "app_to_app_integration");
                   ("targets", PList [PStr "B"]);
                   ("coupling", PStr "tight")]]).

(** Two applications whose only findings record a tight link to the
    datastore ["postgres"]. *)
Definition postgres_findings : pyval :=
  PList [PDict [("type", PStr "app_to_db_integration");
                ("datastores", PList [PStr "postgres"]);
                ("coupling", PStr "tight")]].

Definition app_A : app_row :=
  AppRow "A" "orders" (Some "P3") (Some "Cloud SQL") (Some (6 # 1)%Q) postgres_findings.
Definition app_B : app_row :=
  AppRow "B" "billing" (Some "P1") (Some "GCE") (Some (4 # 1)%Q) postgres_findings.

(** One iteration order of sets: that of [elements]. *)
Definition set_order : string -> gset string -> list string := fun _ s => elements s.

(** A [json.loads] that accepts nothing, and an empty [repr]: enough for
    inputs that are already decoded and hold no floats or containers
    where text is expected. *)
Definition no_json : string -> option pyval := fun _ => None.
Definition no_repr : pyval -> string := fun _ => "".

(** Instructions that name two messaging keywords for P5, and a content
    sample that holds both. *)
Definition p5_instructions : list (string * string) := [("P5", "kafka, rabbitmq")].
Definition p5_content : string := "Kafka consumer and RabbitMQ publisher".

(** The bundles of the run made of [app_A] and [app_B]. *)
Definition two_app_bundles : list bundle :=
  Eval vm_compute in
    match bundles no_json no_repr set_order [app_A; app_B] with
    | Ok items => items
    | _ => []
    end.

(** A matcher for the fragment of regular expressions the signal table
    is written in: literal characters, [\.] escapes, [.], the postfix
    [?] and [*], a final [$], and [|] between alternatives.  It stands
    in for [re.search] where a statement needs a concrete matcher. *)
Inductive atom : Type := Chr (c : ascii) | Dot | EndOfText.
Inductive quant : Type := One | Opt | Star.

Fixpoint parse_alt (escaped : bool) (s : string) : list (atom * quant) :=
  match s with
  | EmptyString => []
  | String c s' =>
      let q := match s' with
               | String "?"%char _ => Opt
               | String "*"%char _ => Star
               | _ => One
               end in
      if escaped then (Chr c, q) :: parse_alt false s'
      else if Ascii.eqb c "\"%char then parse_alt true s'
      else if Ascii.eqb c "?"%char || Ascii.eqb c "*"%char then parse_alt false s'
      else if Ascii.eqb c "."%char then (Dot, q) :: parse_alt false s'
      else if Ascii.eqb c "$"%char then (EndOfText, q) :: parse_alt false s'
      else (Chr c, q) :: parse_alt false s'
  end.

Definition atom_ok (ignorecase : bool) (a : atom) (c : ascii) : bool :=
  match a with
  | Chr d => if ignorecase then Ascii.eqb (Py.lower_char d) (Py.lower_char c)
             else Ascii.eqb d c
  | Dot => negb (Ascii.eqb c (ascii_of_nat 10))
  | EndOfText => false
  end.

Fixpoint match_here (ic : bool) (items : list (atom * quant)) (s : string) : bool :=
  match items with
  | [] => true
  | (EndOfText, _) :: rest =>
      (String.eqb s "" || String.eqb s newline_text) && match_here ic rest s
  | (a, One) :: rest =>
      match s with
      | String c s' => atom_ok ic a c && match_here ic rest s'
      | EmptyString => false
      end
  | (a, Opt) :: rest =>
      match s with
      | String c s' => atom_ok ic a c && match_here ic rest s'
      | EmptyString => false
      end || match_here ic rest s
  | (a, Star) :: rest =>
      (fix star (t : string) : bool :=
         match_here ic rest t ||
         match t with
         | String c t' => atom_ok ic a c && star t'
         | EmptyString => false
         end) s
  end.

Fixpoint search_from (ic : bool) (alts : list (list (atom * quant))) (s : string) : bool :=
  existsb (fun items => match_here ic items s) alts ||
  match s with
  | EmptyString => false
  | String _ s' => search_from ic alts s'
  end.

Definition re_search (ignorecase : bool) (regex text : string) : bool :=
  search_from ignorecase (map (parse_alt false) (Py.split "|" regex)) text.

(** An application as the scan job stores it: its findings are the
    classifier's messages, a list of strings. *)
Definition scanned_app : Assessment.app_row :=
  Assessment.AppRow "0a1b2c3d-APP-001" "shop" (Some "P1") (Some "GCE") (Some (4 # 1)%Q)
    (PList [PStr "No Terraform files found — will be generated by migration engine"]).

End Samples.

(** Shape of a findings record on which the extraction loop does not
    raise: what it iterates over is iterable. *)
Definition iterable (v : pyval) : bool :=
  match v with
  | PList _ | PStr _ | PDict _ => true
  | PNone | PBool _ | PInt _ | PFloat _ => false
  end.

Definition well_shaped (py_repr : pyval -> string) (item : pyval) : bool :=
  match item with
  | PDict it =>
      let ftype := Py.lower (Assessment.py_str py_repr (Py.get_default it "type" (PStr ""))) in
      if String.eqb ftype "metadata" then true
      else if String.eqb ftype "app_to_app_integration" then
        match Py.get it "integration_points" with
        | PList (_ :: _) => true
        | _ => iterable (Py.or_ (Py.get it "targets") (PList []))
        end
      else if String.eqb ftype "app_to_db_integration" then
        iterable (Py.or_ (Py.get it "datastores") (PList []))
      else true
  | _ => true
  end.

(** The text the signals are matched against, the signals that fire on
    it (in declaration order) and the identifier of a signal. *)
Definition blob (files : list string) (content_sample : string) : string :=
  Py.lower (Py.join " " files) +:+ Classifier.newline +:+ Py.lower content_sample.

Definition fired (re_search : bool -> string -> string -> bool) (combined : string)
  : list Classifier.signal :=
  List.filter (fun s => re_search true (Classifier.sig_regex s) combined) Classifier.SIGNALS.

Definition signal_ident (s : Classifier.signal) : string :=
  Classifier.pid_name (Classifier.sig_pid s) +:+ ":" +:+ Classifier.sig_regex s.

(** Sum of the weights of the signals of category [p] in [sigs]. *)
Definition weight_of (p : Classifier.pid) (sigs : list Classifier.signal) : Z :=
  Assessment.Zsum (map Classifier.sig_weight
                     (List.filter (fun s => bool_decide (Classifier.sig_pid s = p)) sigs)).

(** Number of the first 50 keywords of one instruction text that occur in
    the lowercased content, and the count of a category: that of the text
    the mapping holds for it, 0 when it holds none. *)
Definition keyword_hits (content text : string) : Z :=
  Z.of_nat (length (List.filter (fun kw => Py.contains kw (Py.lower content))
                      (firstn 50 (Assessment.keywords text)))).

Definition category_hits (content : string) (instructions : list (string * string))
    (pid : string) : Z :=
  match (list_to_map instructions : gmap string string) !! pid with
  | Some text => keyword_hits content text
  | None => 0
  end.

(** The ["calls"] edge [dependency_graph] emits for one app_link. *)
Definition call_edge (app_ids : gset string) (app : Assessment.app_row)
    (link : Assessment.app_link) : Assessment.edge :=
  let c := Assessment.coupling link in
  if decide (Assessment.target link ∈ app_ids)
  then Assessment.Calls (Assessment.id app) (Assessment.target link) c
         (if String.eqb c "tight" then 3 else 1)
  else Assessment.Calls (Assessment.id app) ("ext-" +:+ Assessment.target link) c 1.

(** The ["reads/writes"] edge it emits for one db_link. *)
Definition db_edge (app : Assessment.app_row) (dl : Assessment.db_link) : Assessment.edge :=
  let c := Assessment.db_coupling dl in
  Assessment.ReadsWrites (Assessment.id app) ("db-" +:+ Assessment.datastore dl) c
    (if String.eqb c "tight" then 4 else 2).

(** Reading the two dicts of the clustering loop: the neighbour set of an
    id (empty for an id that is no key) and the affinity of a pair (0 for
    a pair that is no key). *)
Definition nbrs (nb : gmap string (gset string)) (x : string) : gset string :=
  default ∅ (nb !! x).

Definition aff_get (aff : gmap (string * string) Z) (key : string * string) : Z :=
  default 0 (aff !! key).

(** The adjacency is over the ids of the run and symmetric. *)
Definition graph_wf (ids : gset string) (g : Assessment.graph) : Prop :=
  dom (Assessment.neighbors g) = ids /\
  forall x y, y ∈ nbrs (Assessment.neighbors g) x ->
    y ∈ ids /\ x ∈ nbrs (Assessment.neighbors g) y.

(** ... and no affinity is negative. *)
Definition graph_ok (ids : gset string) (g : Assessment.graph) : Prop :=
  graph_wf ids g /\ forall key, 0 <= aff_get (Assessment.affinity g) key.

(** Edges are only added and affinities only grow. *)
Definition graph_le (g g' : Assessment.graph) : Prop :=
  (forall x, nbrs (Assessment.neighbors g) x ⊆ nbrs (Assessment.neighbors g') x) /\
  (forall key, aff_get (Assessment.affinity g) key <= aff_get (Assessment.affinity g') key).

Definition graph_ext (ids : gset string) (g g' : Assessment.graph) : Prop :=
  graph_ok ids g -> graph_ok ids g' /\ graph_le g g'.

(** State of the traversal of one component, started with [V0] visited:
    the ids popped so far ([comp]) and those still on the stack are
    distinct ids of the run outside [V0], they are exactly what was
    visited since, and every neighbour of a popped id is visited. *)
Definition dfs_inv (nb : gmap string (gset string)) (ids V0 : gset string)
    (stack comp : list string) (visited : gset string) : Prop :=
  NoDup (comp ++ stack) /\
  visited = V0 ∪ list_to_set (comp ++ stack) /\
  (forall x, x ∈ comp ++ stack -> x ∉ V0 /\ x ∈ ids) /\
  (forall x y, x ∈ comp -> y ∈ nbrs nb x -> y ∈ visited).

(** State of the loop over the keys of [neighbors]: the components found
    so far are disjoint, non-empty, made of the visited ids, and two
    adjacent ids one of which is visited lie in one of them together. *)
Definition comps_inv (nb : gmap string (gset string)) (ids : gset string)
    (st : gset string * list (list string)) : Prop :=
  NoDup (concat (snd st)) /\
  fst st = list_to_set (concat (snd st)) /\
  fst st ⊆ ids /\
  (forall x y, x ∈ fst st -> y ∈ nbrs nb x -> exists c, c ∈ snd st /\ x ∈ c /\ y ∈ c) /\
  Forall (fun c => c <> []) (snd st).

(** The aggregate internal affinity in the words of the specification:
    the affinity of the pair of the [i]-th and the [j]-th member, summed
    over the positions [i < j]. *)
Fixpoint pairwise_affinity (aff : gmap (string * string) Z) (comp : list string) : Z :=
  match comp with
  | [] => 0
  | x :: rest =>
      Assessment.Zsum (map (fun y => aff_get aff (Assessment.pair_key x y)) rest)
      + pairwise_affinity aff rest
  end.

(** What a bundle records about the component it is made from. *)
Definition bundle_of (aff : gmap (string * string) Z) (comp : list string)
    (b : Assessment.bundle) : Prop :=
  Assessment.app_ids b = comp /\
  Assessment.affinity_score b = Assessment.bundle_affinity aff comp /\
  Assessment.bundle_coupling b =
    (if Z.max 4 (Z.of_nat (length comp) * 2) <=? Assessment.bundle_affinity aff comp
     then "tight" else "loose").

(** A db_link of the model: lowercased name other than ["none"], and the
    lowercased coupling of one of the records. *)
Definition db_link_ok (py_repr : pyval -> string) (items : list pyval)
    (dl : Assessment.db_link) : Prop :=
  Py.lower (Assessment.datastore dl) = Assessment.datastore dl /\
  Assessment.datastore dl <> "none" /\
  exists item, PDict item ∈ items /\
               Assessment.db_coupling dl = Assessment.item_coupling py_repr item.

(** Hits of category [k] summed over the items of the mapping. *)
Definition summed_hits (content : string) (l : list (string * string)) (k : string) : Z :=
  Assessment.Zsum
    (map (fun e => if bool_decide (fst e = k) then keyword_hits content (snd e) else 0) l).



(** The edges [dependency_graph] emits for one application. *)
Definition app_edges (json_loads : string -> option pyval) (py_repr : pyval -> string)
    (app_ids : gset string) (app : Assessment.app_row) : list Assessment.edge :=
  match Assessment._extract_integration_model json_loads py_repr
          (Assessment.findings_json app) with
  | Ok model =>
      Assessment.MigratesTo (Assessment.id app) ("gcp-" +:+ Assessment.id app)
      :: map (call_edge app_ids app) (Assessment.app_links model)
      ++ map (db_edge app) (Assessment.db_links model)
  | _ => []
  end.

(** Findings that can be extracted: every record is well shaped. *)
Definition extractable (json_loads : string -> option pyval) (py_repr : pyval -> string)
    (app : Assessment.app_row) : bool :=
  forallb (well_shaped py_repr)
    (Assessment._parse_findings json_loads (Assessment.findings_json app)).



(** The findings of [a] record a link of weight [w] to the application
    [y] of the run: an app_link whose target is [y] (3 when its coupling
    is ["tight"], else 1), or a tight db_link to a datastore that [y],
    another application, has a db_link to (4). *)
Definition links_to (json_loads : string -> option pyval) (py_repr : pyval -> string)
    (all : list Assessment.app_row) (a : Assessment.app_row) (y : string) (w : Z) : Prop :=
  exists m,
    Assessment._extract_integration_model json_loads py_repr (Assessment.findings_json a)
      = Ok m /\
    ((y ∈ map Assessment.id all /\
      exists link, link ∈ Assessment.app_links m /\ Assessment.target link = y /\
                   w = if String.eqb (Assessment.coupling link) "tight" then 3 else 1) \/
     (exists dl other mo,
        dl ∈ Assessment.db_links m /\ Assessment.db_coupling dl = "tight" /\
        other ∈ all /\ Assessment.id other = y /\ Assessment.id other <> Assessment.id a /\
        Assessment._extract_integration_model json_loads py_repr
          (Assessment.findings_json other) = Ok mo /\
        Assessment.datastore dl ∈ map Assessment.datastore (Assessment.db_links mo) /\
        w = 4)).

(** [x] and [y] are linked with weight [w], in one direction or the
    other. *)
Definition linked (json_loads : string -> option pyval) (py_repr : pyval -> string)
    (all : list Assessment.app_row) (x y : string) (w : Z) : Prop :=
  exists a, a ∈ all /\
    ((Assessment.id a = x /\ links_to json_loads py_repr all a y w) \/
     (Assessment.id a = y /\ links_to json_loads py_repr all a x w)).

(** State of the loop that fills [neighbors] and [affinity_score]: every
    adjacency and every affinity other than 0 comes from a link. *)
Definition links_inv (json_loads : string -> option pyval) (py_repr : pyval -> string)
    (all : list Assessment.app_row) (g : Assessment.graph) : Prop :=
  (forall x y, y ∈ nbrs (Assessment.neighbors g) x ->
     exists w, linked json_loads py_repr all x y w) /\
  (forall key, aff_get (Assessment.affinity g) key = 0 \/
     exists x y, key = Assessment.pair_key x y /\
       linked json_loads py_repr all x y (aff_get (Assessment.affinity g) key)).

(** Number of members of a list of rows that have the pattern [p]. *)
Definition pattern_count (p : option string) (members : list Assessment.app_row) : Z :=
  Z.of_nat (length (List.filter (fun x => bool_decide (Assessment.pattern_id x = p)) members)).

(** Adjacency in the [neighbors] dict, and a component all of whose
    members are reached from one of them along adjacent ids. *)
Definition adj (nb : gmap string (gset string)) (x y : string) : Prop := y ∈ nbrs nb x.

Definition rooted (nb : gmap string (gset string)) (c : list string) : Prop :=
  exists r, forall x, x ∈ c -> rtc (adj nb) r x.

(** Longest first. *)
Definition len_ge (c d : list string) : Prop := (length d <= length c)%nat.

(** Position of a pattern in the iteration order of [PATTERNS]. *)
Definition pid_index (p : Classifier.pid) : nat :=
  match p with
  | Classifier.P1 => 0 | Classifier.P2 => 1 | Classifier.P3 => 2
  | Classifier.P4 => 3 | Classifier.P5 => 4
  end.

(** Number of occurrences of a character in a text. *)
Fixpoint count_char (c : ascii) (s : string) : nat :=
  match s with
  | EmptyString => 0
  | String a s' => (if Ascii.eqb a c then 1 else 0) + count_char c s'
  end.

(** What the risk heuristic adds for a pattern, in hundredths. *)
Definition pattern_risk (p : Classifier.pid) : Z :=
  match p with
  | Classifier.P3 => 200
  | Classifier.P4 | Classifier.P5 => 150
  | _ => 0
  end.

(** An item of the instruction mapping whose key is not one of the five
    patterns and one of whose keywords occurs in the content. *)
Definition unknown_key_hit (content : string) (e : string * string) : Prop :=
  fst e ∉ Assessment.OVERRIDE_IDS /\ 0 < keyword_hits content (snd e).

(** The tables [pattern_instructions] can hold: the seeded empty table,
    and what seeding and saving make of such a table. *)
Inductive saved_table : Assessment.instruction_table -> Prop :=
| saved_initial : saved_table (Assessment.seed_pattern_instructions ∅)
| saved_reseed t : saved_table t -> saved_table (Assessment.seed_pattern_instructions t)
| saved_save t pid ins t' :
    saved_table t ->
    Assessment.save_pattern_instructions t pid ins = Some t' ->
    saved_table t'.

(** The rows a [SELECT pattern_id, instructions] returns, in some order. *)
Definition rows_of (t : Assessment.instruction_table) (l : list (string * string)) : Prop :=
  l ≡ₚ map_to_list t.

(** The risk band [dependency_graph] gives to a risk score. *)
Definition risk_band (risk : Q) : string :=
  if Qle_bool (70 # 1) risk then "high"
  else if Qle_bool (40 # 1) risk then "medium" else "low".

(** Where a node of the dependency graph of [apps] comes from. *)
Definition node_of_run (apps : list Assessment.app_row) (n : Assessment.node) : Prop :=
  match n with
  | Assessment.AppNode i label pattern risk band critical =>
      exists app, app ∈ apps /\ i = Assessment.id app /\ label = Assessment.name app /\
        pattern = Assessment.pattern_id app /\
        risk = default (0 # 1)%Q (Assessment.risk_score app) /\
        band = risk_band risk /\ critical = Qle_bool (70 # 1) risk
  | Assessment.GcpNode i label =>
      exists app, app ∈ apps /\ i = "gcp-" +:+ Assessment.id app /\ label <> ""
  | Assessment.ExternalAppNode i label =>
      i = "ext-" +:+ label /\ label ∉ map Assessment.id apps
  | Assessment.DbNode i label =>
      exists ds, i = "db-" +:+ ds /\ label = Py.upper ds
  end.

(** A tag a findings record gives: the record is a dict of type
    ["metadata"] (in any letter case) and the tag is the lowercased text
    of a truthy entry of its ["tags"] list. *)
Definition record_tag (py_repr : pyval -> string) (item : pyval) (t : string) : Prop :=
  exists it ts v,
    item = PDict it /\
    Py.lower (Assessment.py_str py_repr (Py.get_default it "type" (PStr ""))) = "metadata" /\
    Py.get it "tags" = PList ts /\ v ∈ ts /\ Py.truthy v = true /\
    t = Py.lower (Assessment.py_str py_repr v).

(** Strictly before, in the order of [sorted] on strings. *)
Definition str_lt (a b : string) : Prop := String.ltb a b = true.

(** Some file path holds [kw] once lowercased. *)
Definition any_path_has (files : list string) (kw : string) : bool :=
  existsb (fun f => Py.contains kw (Py.lower f)) files.

Definition is_text (v : pyval) : bool :=
  match v with PStr _ => true | _ => false end.

(** A findings record that, when it is a datastore record, lists its
    datastores as texts. *)
Definition text_datastores (py_repr : pyval -> string) (item : pyval) : Prop :=
  forall it,
    item = PDict it ->
    Py.lower (Assessment.py_str py_repr (Py.get_default it "type" (PStr "")))
      = "app_to_db_integration" ->
    exists ds, Py.get it "datastores" = PList ds /\ forallb is_text ds = true.

(* ===================================================================== *)
(** * Properties *)
(* ===================================================================== *)

(** ** The error monad and [for] loops *)

Lemma bind_Ok {A B} (r : result A) (k : A -> result B) (b : B) :
  r ≫= k = Ok b -> exists a, r = Ok a /\ k a = Ok b.
Proof. destruct r as [a| |]; simpl; intros H; try discriminate. eauto. Qed.

Lemma for_each_app {A S} (l1 l2 : list A) (body : S -> A -> result S) (s : S) :
  for_each (l1 ++ l2) body s = for_each l1 body s ≫= for_each l2 body.
Proof.
  revert s. induction l1 as [|x l1 IH]; intros s; simpl; [reflexivity|].
  destruct (body s x) as [s1| |]; simpl; auto.
Qed.

(** An invariant of the loop body is an invariant of the loop. *)
Lemma for_each_inv {A S} (P : S -> Prop) (body : S -> A -> result S) (l : list A) :
  (forall s x s', x ∈ l -> P s -> body s x = Ok s' -> P s') ->
  forall s s', P s -> for_each l body s = Ok s' -> P s'.
Proof.
  induction l as [|x l IH]; intros Hstep s s' Hs Hrun; simpl in Hrun.
  - by inversion Hrun; subst.
  - apply bind_Ok in Hrun as (s1 & H1 & H2).
    eapply IH; [| |exact H2].
    + intros; eapply Hstep; eauto. by right.
    + eapply Hstep; eauto. by left.
Qed.

(** A body that returns on every state satisfying the invariant makes the
    loop return. *)
Lemma for_each_total {A S} (P : S -> Prop) (body : S -> A -> result S) (l : list A) :
  (forall s x, x ∈ l -> P s -> exists s', body s x = Ok s' /\ P s') ->
  forall s, P s -> exists s', for_each l body s = Ok s' /\ P s'.
Proof.
  induction l as [|x l IH]; intros Hstep s Hs; simpl.
  - eauto.
  - destruct (Hstep s x) as (s1 & H1 & HP1); [by left|done|].
    rewrite H1; simpl. apply IH; [|done].
    intros; apply Hstep; [by right|done].
Qed.

(** A preorder that every step respects relates the state before an item
    is processed to the initial state, and the final state to the state
    after it. *)
Lemma for_each_mid {A S} (R : S -> S -> Prop) (body : S -> A -> result S) (l : list A) :
  (forall s, R s s) -> (forall a b c, R a b -> R b c -> R a c) ->
  (forall s x s', x ∈ l -> body s x = Ok s' -> R s s') ->
  forall s s' x, x ∈ l -> for_each l body s = Ok s' ->
    exists s1 s2, R s s1 /\ body s1 x = Ok s2 /\ R s2 s'.
Proof.
  intros Hrefl Htrans.
  induction l as [|y l IH]; intros Hstep s s' x Hin Hrun; [by inversion Hin|].
  simpl in Hrun. apply bind_Ok in Hrun as (s1 & H1 & H2).
  assert (Hrest : R s1 s').
  { eapply (for_each_inv (fun t => R s1 t)); [|apply Hrefl|exact H2].
    intros t z t' Hz Ht Hb. eapply Htrans; [exact Ht|].
    eapply Hstep; [|exact Hb]. by right. }
  apply elem_of_cons in Hin as [->|Hin].
  - exists s, s1. auto.
  - destruct (IH (fun t z t' Hz => Hstep t z t' (list_elem_of_further _ _ _ Hz)) s1 s' x Hin H2)
      as (t1 & t2 & Ha & Hb & Hc).
    exists t1, t2. split; [|done].
    eapply Htrans; [|exact Ha]. eapply Hstep; [|exact H1]. by left.
Qed.

(** ** Lists of lists *)

Lemma elem_of_concat {A} (ls : list (list A)) (x : A) :
  x ∈ concat ls <-> exists l, l ∈ ls /\ x ∈ l.
Proof.
  rewrite list_elem_of_In, in_concat. split.
  - intros (l & Hl & Hx). exists l. by rewrite !list_elem_of_In.
  - intros (l & Hl & Hx). exists l. by rewrite <- !list_elem_of_In.
Qed.

Lemma concat_snoc {A} (ls : list (list A)) (l : list A) :
  concat (ls ++ [l]) = concat ls ++ l.
Proof. rewrite concat_app. simpl. by rewrite app_nil_r. Qed.

Lemma concat_perm {A} (ls ls' : list (list A)) :
  ls ≡ₚ ls' -> concat ls ≡ₚ concat ls'.
Proof.
  induction 1 as [|l ls ls' _ IH|l1 l2 ls|ls1 ls2 ls3 _ IH1 _ IH2]; simpl.
  - done.
  - by rewrite IH.
  - rewrite !app_assoc. by rewrite (Permutation_app_comm l1 l2).
  - by etrans.
Qed.

Lemma concat_unique_index {A} (ls : list (list A)) (x : A) :
  NoDup (concat ls) ->
  forall i j l1 l2, ls !! i = Some l1 -> ls !! j = Some l2 -> x ∈ l1 -> x ∈ l2 -> i = j.
Proof.
  induction ls as [|l ls IH]; intros Hnd i j l1 l2 Hi Hj H1 H2; [done|].
  simpl in Hnd. apply NoDup_app in Hnd as (_ & Hdisj & Hnd).
  destruct i as [|i], j as [|j]; simpl in *; [done| | |].
  - injection Hi as <-. destruct (Hdisj x H1). apply elem_of_concat.
    exists l2. split; [by eapply list_elem_of_lookup_2|done].
  - injection Hj as <-. destruct (Hdisj x H2). apply elem_of_concat.
    exists l1. split; [by eapply list_elem_of_lookup_2|done].
  - f_equal. by eapply IH.
Qed.

Lemma NoDup_concat_elem {A} (ls : list (list A)) (l : list A) :
  NoDup (concat ls) -> l ∈ ls -> NoDup l.
Proof.
  induction ls as [|l' ls IH]; intros Hnd Hl; [by apply elem_of_nil in Hl|].
  simpl in Hnd. apply NoDup_app in Hnd as (Hl' & _ & Hnd).
  apply elem_of_cons in Hl as [->|Hl]; auto.
Qed.

(** ** Text *)

Lemma lower_char_idem c : Py.lower_char (Py.lower_char c) = Py.lower_char c.
Proof. destruct c as [[] [] [] [] [] [] [] []]; reflexivity. Qed.

Lemma lower_idem s : Py.lower (Py.lower s) = Py.lower s.
Proof. induction s as [|c s IH]; simpl; [done|]. by rewrite lower_char_idem, IH. Qed.

Lemma eqb_false_ne (s t : string) : String.eqb s t = false -> s <> t.
Proof. by intros H%String.eqb_neq. Qed.

(** ** Integration model extraction *)

Section ExtractorFacts.
Import Assessment.

Variable json_loads : string -> option pyval.
Variable py_repr : pyval -> string.

Local Abbreviation extract := (_extract_integration_model json_loads py_repr).
Local Abbreviation str := (py_str py_repr).

Lemma iter_ok v : iterable v = true -> exists l, Py.iter v = Ok l.
Proof. destruct v; simpl; intros; try discriminate; eauto. Qed.

Lemma iter_not_ok v : iterable v = false -> Py.iter v = Raise TypeError.
Proof. destruct v; simpl; intros; try discriminate; eauto. Qed.

(** The loop body returns exactly on well-shaped records, and raises
    [TypeError] on the others. *)
Lemma extract_item_ok a item :
  well_shaped py_repr item = true -> exists a', extract_item py_repr a item = Ok a'.
Proof.
  unfold well_shaped, extract_item. destruct item as [| | | | | |it]; eauto.
  repeat case_match; eauto; intros Hit;
    try discriminate;
    match goal with
    | |- context [Py.iter ?v] => destruct (iter_ok v Hit) as [? ->]; simpl; eauto
    end.
Qed.

Lemma extract_item_raises a item :
  well_shaped py_repr item = false -> extract_item py_repr a item = Raise TypeError.
Proof.
  unfold well_shaped, extract_item. destruct item as [| | | | | |it]; try discriminate.
  repeat case_match; try discriminate; intros Hit;
    match goal with
    | |- context [Py.iter ?v] => by rewrite (iter_not_ok v Hit)
    end.
Qed.

(** The extractor returns exactly when every record is well shaped. *)
Lemma extract_total_iff findings :
  is_ok (extract findings) = forallb (well_shaped py_repr) (_parse_findings json_loads findings).
Proof.
  unfold _extract_integration_model.
  generalize (Acc [] [] []).
  induction (_parse_findings json_loads findings) as [|item l IH]; intros a; simpl; [done|].
  destruct (well_shaped py_repr item) eqn:Hw; simpl.
  - destruct (extract_item_ok a item Hw) as [a' ->]. simpl. apply IH.
  - by rewrite (extract_item_raises a item Hw).
Qed.

(** The inputs the specification lists all give the empty model. *)
Lemma extract_listed_inputs :
  extract PNone = Ok (IntegrationModel [] [] []) /\
  extract (PList []) = Ok (IntegrationModel [] [] []) /\
  extract (PList [PDict [("type", PStr "unknown")]]) = Ok (IntegrationModel [] [] []) /\
  extract (PDict [("type", PStr "metadata"); ("tags", PStr "not-a-list")])
    = Ok (IntegrationModel [] [] []) /\
  (forall s, json_loads s = None -> extract (PStr s) = Ok (IntegrationModel [] [] [])) /\
  (forall s, json_loads s = Some (PDict []) -> extract (PStr s) = Ok (IntegrationModel [] [] [])).
Proof.
  repeat split; try reflexivity; intros s Hs;
    unfold _extract_integration_model, _parse_findings; by rewrite Hs.
Qed.

Lemma item_coupling_lower item :
  Py.lower (item_coupling py_repr item) = item_coupling py_repr item.
Proof. apply lower_idem. Qed.

Lemma item_coupling_default item :
  Py.lookup "coupling" item = None -> item_coupling py_repr item = "loose".
Proof. unfold item_coupling, Py.get. by intros ->. Qed.

(** What one datastore entry contributes. *)
Lemma datastore_links_elem cpl d dl :
  dl ∈ datastore_links py_repr cpl d ->
  datastore dl = Py.lower (str d) /\ db_coupling dl = cpl /\ datastore dl <> "none".
Proof.
  unfold datastore_links.
  destruct (String.eqb (Py.lower (str d)) "") eqn:He; simpl; [by intros ?%elem_of_nil|].
  destruct (String.eqb (Py.lower (str d)) "none") eqn:Hn; simpl; [by intros ?%elem_of_nil|].
  intros ->%list_elem_of_singleton. simpl. auto using eqb_false_ne.
Qed.

Lemma extract_item_db_links items a item a' :
  item ∈ items ->
  Forall (db_link_ok py_repr items) (acc_db_links a) ->
  extract_item py_repr a item = Ok a' ->
  Forall (db_link_ok py_repr items) (acc_db_links a').
Proof.
  intros Hin Ha. unfold extract_item.
  destruct item as [| | | | | |it]; try (by intros [= <-]).
  repeat case_match; try (by intros [= <-]);
    intros (? & ? & [= <-])%bind_Ok; simpl; try done.
  apply Forall_app; split; [done|].
  apply Forall_forall. intros dl (d & Hd & Hdl)%list_elem_of_In%in_flat_map.
  apply list_elem_of_In, datastore_links_elem in Hdl as (Hds & Hc & Hn).
  split; [by rewrite Hds, lower_idem|]. split; [done|]. eauto.
Qed.

Lemma extract_db_links findings model :
  extract findings = Ok model ->
  Forall (db_link_ok py_repr (_parse_findings json_loads findings)) (db_links model).
Proof.
  unfold _extract_integration_model. intros (a & Ha & [= <-])%bind_Ok. simpl.
  refine (for_each_inv
            (fun a => Forall (db_link_ok py_repr (_parse_findings json_loads findings))
                        (acc_db_links a)) _ _ _ _ _ _ Ha); [|by constructor].
  intros *. apply extract_item_db_links.
Qed.

End ExtractorFacts.

(** C4, at the input where it fails: a findings list holding one
    [app_to_db_integration] record whose ["datastores"] is the number 7
    (or one [app_to_app_integration] record whose ["targets"] is 7) makes
    the extractor raise [TypeError] instead of degrading to empty lists. *)
Theorem extract_raises_on_scalar_field :
  forall (json_loads : string -> option pyval) (py_repr : pyval -> string),
    Assessment._extract_integration_model json_loads py_repr Samples.scalar_datastores
      = Raise TypeError /\
    Assessment._extract_integration_model json_loads py_repr Samples.scalar_targets
      = Raise TypeError.
Proof. intros. split; reflexivity. Qed.

(** C5: every db_link the extractor emits has a lowercased datastore name
    that is not ["none"] in any letter case, and a lowercased coupling
    taken from its record, ["loose"] when the record has none; and the
    findings [{"type":"app_to_db_integration","datastores":["MySQL","none"],
    "coupling":"Tight"}] give exactly the db_link (mysql, tight). *)
Theorem db_links_normalized :
  forall (json_loads : string -> option pyval) (py_repr : pyval -> string),
    (forall findings model,
       Assessment._extract_integration_model json_loads py_repr findings = Ok model ->
       forall dl, dl ∈ Assessment.db_links model ->
         Py.lower (Assessment.datastore dl) = Assessment.datastore dl /\
         (forall s, Py.lower s = "none" -> Assessment.datastore dl <> Py.lower s
                                         /\ Assessment.datastore dl <> s) /\
         Py.lower (Assessment.db_coupling dl) = Assessment.db_coupling dl /\
         exists item,
           PDict item ∈ Assessment._parse_findings json_loads findings /\
           Assessment.db_coupling dl =
             Py.lower (Assessment.py_str py_repr
                         (Py.or_ (Py.get item "coupling") (PStr "loose"))) /\
           (Py.lookup "coupling" item = None -> Assessment.db_coupling dl = "loose")) /\
    Assessment.db_links <$>
      Assessment._extract_integration_model json_loads py_repr Samples.mysql_findings
    = Ok [Assessment.DbLink "mysql" "tight"].
Proof.
  intros json_loads py_repr. split; [|reflexivity].
  intros findings model Hrun dl Hdl.
  pose proof (extract_db_links _ _ _ _ Hrun) as Hall.
  rewrite Forall_forall in Hall. destruct (Hall dl Hdl) as (Hlow & Hnone & item & Hitem & Hc).
  split; [done|]. split.
  - intros s Hs. split; [by rewrite Hs|]. intros <-. by rewrite Hlow in Hs.
  - split; [rewrite Hc; apply item_coupling_lower|].
    exists item. repeat split; [done|done|].
    intros Habs. rewrite Hc. by apply item_coupling_default.
Qed.

Lemma db_links_normalized_witness :
  let dl := Assessment.DbLink "mysql" "tight" in
  Py.lower (Assessment.datastore dl) = Assessment.datastore dl /\
  (forall s, Py.lower s = "none" -> Assessment.datastore dl <> Py.lower s
                                  /\ Assessment.datastore dl <> s) /\
  Py.lower (Assessment.db_coupling dl) = Assessment.db_coupling dl /\
  exists item,
    PDict item ∈ Assessment._parse_findings Samples.no_json Samples.mysql_findings /\
    Assessment.db_coupling dl =
      Py.lower (Assessment.py_str Samples.no_repr
                  (Py.or_ (Py.get item "coupling") (PStr "loose"))) /\
    (Py.lookup "coupling" item = None -> Assessment.db_coupling dl = "loose").
Proof.
  apply (proj1 (db_links_normalized Samples.no_json Samples.no_repr)
           Samples.mysql_findings
           (Assessment.IntegrationModel [] [Assessment.DbLink "mysql" "tight"] [])).
  - reflexivity.
  - by left.
Defined.

(** ** Pattern classifier *)

Section ClassifierFacts.
Import Classifier.

Variable re_search : bool -> string -> string -> bool.

Lemma weight_of_nonneg p sigs :
  Forall (fun s => 0 <= sig_weight s) sigs -> 0 <= weight_of p sigs.
Proof.
  unfold weight_of. induction 1 as [|s sigs Hs _ IH]; simpl; [done|].
  case_bool_decide; simpl; lia.
Qed.

(** The scoring loop from any capped start: every category ends at its
    start plus the weights that fired, capped; the fired identifiers
    are appended in order. *)
Lemma score_loop combined sigs sc0 hit0 :
  Forall (fun s => 0 <= sig_weight s) sigs ->
  (forall p, sc0 p <= 100) ->
  let hits := List.filter (fun s => re_search true (sig_regex s) combined) sigs in
  let r := fold_left (score_step re_search combined) sigs (sc0, hit0) in
  (forall p, fst r p = Z.min 100 (sc0 p + weight_of p hits)) /\
  snd r = hit0 ++ map signal_ident hits.
Proof.
  intros Hw. revert sc0 hit0.
  induction Hw as [|s sigs Hs Hw IH]; intros sc0 hit0 Hcap; simpl.
  - split; [|by rewrite app_nil_r]. intros p. specialize (Hcap p).
    unfold weight_of; simpl. lia.
  - destruct (re_search true (sig_regex s) combined) eqn:Hm; simpl; [|by apply IH].
    match goal with
    | |- context [fold_left _ sigs (?sc1, ?hit1)] =>
        destruct (IH sc1 hit1) as [IH1 IH2]
    end.
    { intros p. unfold set_score. case_decide; [lia|apply Hcap]. }
    split.
    + intros p. rewrite IH1. unfold set_score, weight_of. simpl.
      pose proof (weight_of_nonneg p
        (List.filter (fun s => re_search true (sig_regex s) combined) sigs)) as Hnn.
      unfold weight_of in Hnn.
      assert (Hall : Forall (fun s => 0 <= sig_weight s)
                (List.filter (fun s => re_search true (sig_regex s) combined) sigs)).
      { apply Forall_forall. intros x [Hx _]%list_elem_of_In%filter_In.
        rewrite Forall_forall in Hw. by apply Hw, list_elem_of_In. }
      specialize (Hnn Hall). specialize (Hcap p).
      case_decide as Hp; case_bool_decide as Hq; try congruence; simpl; subst; lia.
    + rewrite IH2. by rewrite <- app_assoc.
Qed.

Lemma SIGNALS_nonneg : Forall (fun s => 0 <= sig_weight s) SIGNALS.
Proof.
  apply Forall_forall. intros s Hs%list_elem_of_In.
  assert (H : forallb (fun s => 0 <=? sig_weight s) SIGNALS = true) by reflexivity.
  rewrite forallb_forall in H. apply Z.leb_le, H, Hs.
Qed.

Lemma score_signals_spec combined :
  let r := score_signals re_search SIGNALS combined in
  (forall p, fst r p = Z.min 100 (weight_of p (fired re_search combined))) /\
  snd r = map signal_ident (fired re_search combined).
Proof.
  destruct (score_loop combined SIGNALS (fun _ => 0) [] SIGNALS_nonneg) as [H1 H2];
    [intros; lia|].
  unfold score_signals, fired. split.
  - intros p. rewrite (H1 p). by rewrite Z.add_0_l.
  - rewrite H2. apply app_nil_l.
Qed.

Lemma round1_bounds x : 100 <= x <= 1000 -> 100 <= round1 x <= 1000.
Proof.
  intros Hx. unfold round1.
  pose proof (Z.div_mod x 10 ltac:(lia)) as Hdm.
  pose proof (Z.mod_pos_bound x 10 ltac:(lia)) as Hmod.
  repeat case_match; lia.
Qed.

Lemma calc_risk_bounds files content p :
  400 <= _calc_risk re_search files content p <= 750.
Proof. unfold _calc_risk. destruct p; simpl; repeat case_match; lia. Qed.

(** The risk is a multiple of 0.5, which [round(risk, 1)] leaves as it is. *)
Lemma calc_risk_exact files content p :
  round1 (_calc_risk re_search files content p) = _calc_risk re_search files content p.
Proof. unfold _calc_risk. destruct p; simpl; repeat case_match; reflexivity. Qed.

Lemma max_by_in {K} (f : K -> Z) first rest :
  max_by f first rest = first \/ max_by f first rest ∈ rest.
Proof.
  unfold max_by. revert first. induction rest as [|k rest IH]; intros first; simpl; [by left|].
  destruct (IH (if f first <? f k then k else first)) as [->|Hin].
  - case_match; [right; by left|by left].
  - right. by right.
Qed.

(** [max_by] returns a key of greatest value... *)
Lemma max_by_ge {K} (f : K -> Z) first rest k :
  k = first \/ k ∈ rest -> f k <= f (max_by f first rest).
Proof.
  unfold max_by. revert first k. induction rest as [|x rest IH]; intros first k; simpl.
  - intros [->|Hin]; [lia|by apply elem_of_nil in Hin].
  - intros [->|[->|Hin]%elem_of_cons].
    + apply Z.le_trans with (f (if f first <? f x then x else first));
        [case_match; lia|apply IH; by left].
    + apply Z.le_trans with (f (if f first <? f x then x else first));
        [case_match; lia|apply IH; by left].
    + apply IH. by right.
Qed.

(** [classify_repo] in terms of the scoring loop's result. *)
Lemma classify_repo_scores files content :
  let r := classify_repo re_search files content in
  let sc := fst (score_signals re_search SIGNALS (blob files content)) in
  let best := max_by sc P1 [P2; P3; P4; P5] in
  (forall p, scores r p = sc p) /\
  signals_hit r = firstn 20 (snd (score_signals re_search SIGNALS (blob files content))) /\
  pattern_id r = (if sc best <? 10 then P1 else best) /\
  confidence r = Z.min 99 (if sc best <? 10 then 15 else sc best) /\
  risk_score r = round1 (_calc_risk re_search files content (pattern_id r)).
Proof.
  unfold classify_repo. fold (blob files content).
  destruct (score_signals re_search SIGNALS (blob files content)) as [sc hit]. cbn [fst snd].
  destruct (sc (max_by sc P1 [P2; P3; P4; P5]) <? 10); cbn; auto.
Qed.

Lemma fired_none combined :
  (forall s, s ∈ SIGNALS -> re_search true (sig_regex s) combined = false) ->
  fired re_search combined = [].
Proof.
  unfold fired. generalize SIGNALS. induction l as [|s l IH]; intros H; simpl; [done|].
  rewrite (H s) by by left. apply IH. intros; apply H; by right.
Qed.

End ClassifierFacts.

(** C6: when no signal pattern matches the blob (so that no category
    scores 0.1 or more), the classifier returns pattern P1 with
    confidence exactly 0.15, whatever the files and the content are. *)
Theorem no_signal_gives_P1_fallback :
  forall (re_search : bool -> string -> string -> bool) files content,
    (forall s, s ∈ Classifier.SIGNALS ->
       re_search true (Classifier.sig_regex s) (blob files content) = false) ->
    let r := Classifier.classify_repo re_search files content in
    Classifier.pattern_id r = Classifier.P1 /\ Classifier.confidence r = 15 /\
    (forall p, Classifier.scores r p < 10).
Proof.
  intros re_search files content Hnone r.
  destruct (classify_repo_scores re_search files content) as (Hsc & _ & Hpid & Hconf & _).
  destruct (score_signals_spec re_search (blob files content)) as [Hsum _].
  rewrite (fired_none _ _ Hnone) in Hsum.
  fold r in Hsc, Hpid, Hconf.
  assert (Hzero : forall p,
    fst (Classifier.score_signals re_search Classifier.SIGNALS (blob files content)) p = 0).
  { intros p. by rewrite Hsum. }
  rewrite Hzero in Hpid, Hconf. split; [exact Hpid|]. split; [exact Hconf|].
  intros p. rewrite Hsc, Hzero. lia.
Qed.

Lemma no_signal_gives_P1_fallback_witness :
  let r := Classifier.classify_repo Samples.re_search [] "" in
  Classifier.pattern_id r = Classifier.P1 /\ Classifier.confidence r = 15 /\
  (forall p, Classifier.scores r p < 10).
Proof.
  apply (no_signal_gives_P1_fallback Samples.re_search [] "").
  intros s Hs%list_elem_of_In.
  assert (H : forallb (fun s => negb (Samples.re_search true (Classifier.sig_regex s) (blob [] "")))
                Classifier.SIGNALS = true) by (vm_compute; reflexivity).
  rewrite forallb_forall in H. specialize (H s Hs). by destruct (Samples.re_search _ _ _).
Defined.

(** C7: for every input the result's confidence lies in [0.0, 0.99] and
    its risk score in [1.0, 10.0] (both held in hundredths). *)
Theorem confidence_and_risk_in_range :
  forall (re_search : bool -> string -> string -> bool) files content,
    let r := Classifier.classify_repo re_search files content in
    0 <= Classifier.confidence r <= 99 /\ 100 <= Classifier.risk_score r <= 1000.
Proof.
  intros re_search files content r.
  destruct (classify_repo_scores re_search files content) as (_ & _ & _ & Hconf & Hrisk).
  fold r in Hconf, Hrisk. rewrite Hconf, Hrisk. split.
  - destruct (_ <? 10) eqn:Hlt; [lia|]. apply Z.ltb_ge in Hlt. lia.
  - apply round1_bounds.
    pose proof (calc_risk_bounds re_search files content (Classifier.pattern_id r)). lia.
Qed.

(** C8: every category's score is the sum of the weights of its signals
    that match the blob, capped at 1.0, hence 0.0 when none of them
    matches; the fired-signal identifiers are those of the matching
    signals in declaration order, cut to the first 20. *)
Theorem scores_capped_sums_hits_in_order :
  forall (re_search : bool -> string -> string -> bool) files content,
    let r := Classifier.classify_repo re_search files content in
    let hits := fired re_search (blob files content) in
    (forall p, Classifier.scores r p = Z.min 100 (weight_of p hits)) /\
    (forall p, (forall s, s ∈ hits -> Classifier.sig_pid s <> p) -> Classifier.scores r p = 0) /\
    Classifier.signals_hit r = firstn 20 (map signal_ident hits).
Proof.
  intros re_search files content r hits.
  destruct (classify_repo_scores re_search files content) as (Hsc & Hhit & _).
  destruct (score_signals_spec re_search (blob files content)) as [Hsum Hids].
  fold r in Hsc, Hhit. fold hits in Hsum, Hids.
  assert (Hscore : forall p, Classifier.scores r p = Z.min 100 (weight_of p hits)).
  { intros p. by rewrite Hsc, Hsum. }
  split; [exact Hscore|]. split; [|by rewrite Hhit, Hids].
  intros p Hno. rewrite Hscore. unfold weight_of.
  replace (List.filter _ hits) with (@nil Classifier.signal); [reflexivity|].
  symmetry. clear -Hno. induction hits as [|s l IH]; simpl; [done|].
  case_bool_decide as Hp.
  - destruct (Hno s); [by left|done].
  - apply IH. intros; apply Hno. by right.
Qed.

(** ** Instruction override *)

Section OverrideFacts.
Import Assessment.

Lemma max_by_ext {K} (f g : K -> Z) first rest :
  (forall k, k = first \/ k ∈ rest -> f k = g k) ->
  max_by f first rest = max_by g first rest.
Proof.
  unfold max_by. revert first. induction rest as [|x rest IH]; intros first H; simpl; [done|].
  rewrite (H first) by by left. rewrite (H x) by (right; by left).
  apply IH. intros k [->|Hk].
  - case_match; apply H; [right; by left|by left].
  - apply H. right. by right.
Qed.

(** The keyword loop adds to [scores[pid]] the number of keywords found. *)
Lemma keyword_loop content pid kws (sc : gmap string Z) n :
  sc !! pid = Some n ->
  exists sc',
    for_each kws (fun sc kw => if Py.contains kw content then bump pid sc else Ok sc) sc
      = Ok sc' /\
    sc' !! pid = Some (n + Z.of_nat (length (List.filter (fun kw => Py.contains kw content) kws))) /\
    forall k, k <> pid -> sc' !! k = sc !! k.
Proof.
  revert sc n. induction kws as [|kw kws IH]; intros sc n Hn; simpl.
  - exists sc. rewrite Z.add_0_r. auto.
  - destruct (Py.contains kw content); simpl.
    + unfold bump. rewrite Hn. simpl.
      destruct (IH (<[pid:=n + 1]> sc) (n + 1)) as (sc' & Hrun & Hpid & Hoth);
        [by rewrite lookup_insert_eq|].
      exists sc'. split; [done|]. split.
      * rewrite Hpid. f_equal. lia.
      * intros k Hk. rewrite Hoth by done. by rewrite lookup_insert_ne.
    + by apply IH.
Qed.

Lemma instruction_loop content l (sc : gmap string Z) :
  (forall k, k ∈ map fst l -> is_Some (sc !! k)) ->
  exists sc',
    for_each l (instruction_step (Py.lower content)) sc = Ok sc' /\
    forall k, sc' !! k = (fun n => n + summed_hits content l k) <$> sc !! k.
Proof.
  revert sc. induction l as [|[pid text] l IH]; intros sc Hkeys.
  - exists sc. split; [done|]. intros k. unfold summed_hits. simpl.
    destruct (sc !! k); simpl; [f_equal; lia|done].
  - cbn [for_each]. destruct (Hkeys pid) as [n Hn]; [by left|].
    assert (Hstep : exists sc1,
      instruction_step (Py.lower content) sc (pid, text) = Ok sc1 /\
      sc1 !! pid = Some (n + keyword_hits content text) /\
      forall k, k <> pid -> sc1 !! k = sc !! k).
    { unfold instruction_step. destruct (String.eqb text "") eqn:Hempty.
      - apply String.eqb_eq in Hempty as ->. exists sc. rewrite Hn.
        unfold keyword_hits. simpl. rewrite Z.add_0_r. auto.
      - apply keyword_loop, Hn. }
    destruct Hstep as (sc1 & -> & Hpid & Hoth). cbn [mbind result_bind].
    destruct (IH sc1) as (sc' & Hrun & Hsc').
    { intros k Hk. destruct (decide (k = pid)) as [->|Hne]; [by rewrite Hpid|].
      rewrite Hoth by done. apply Hkeys. by right. }
    exists sc'. split; [done|]. intros k. rewrite Hsc'. unfold summed_hits. simpl.
    case_bool_decide as Hk.
    + subst k. rewrite Hpid, Hn. simpl. f_equal. lia.
    + rewrite Hoth by done. destruct (sc !! k); simpl; [f_equal; lia|done].
Qed.

(** With each category listed once, the summed hits are the hits of
    the one text of the category. *)
Lemma summed_hits_lookup content l k :
  NoDup (map fst l) -> summed_hits content l k = category_hits content l k.
Proof.
  unfold summed_hits, category_hits.
  induction l as [|[pid text] l IH]; intros Hnd; simpl; [done|].
  apply NoDup_cons in Hnd as [Hnotin Hnd].
  case_bool_decide as Hk; simpl in Hk.
  - subst. rewrite lookup_insert_eq.
    assert (Hzero : Zsum (map (fun e : string * string =>
               if bool_decide (e.1 = k) then keyword_hits content e.2 else 0) l) = 0).
    { clear -Hnotin. induction l as [|[p t] l IH]; simpl; [done|].
      simpl in Hnotin. apply not_elem_of_cons in Hnotin as [Hne Hnotin].
      rewrite bool_decide_false by (simpl; congruence). by rewrite IH. }
    rewrite Hzero. lia.
  - rewrite lookup_insert_ne by done. by rewrite <- IH.
Qed.

Lemma scores0_lookup k :
  k ∈ OVERRIDE_IDS ->
  (list_to_map (map (fun p => (p, 0)) OVERRIDE_IDS) : gmap string Z) !! k = Some 0.
Proof.
  unfold OVERRIDE_IDS. intros Hk.
  repeat (apply elem_of_cons in Hk as [->|Hk]; [by vm_compute|]).
  by apply elem_of_nil in Hk.
Qed.

(** The resolver in terms of the per-category counts. *)
Lemma apply_pattern_instructions_spec classified content instructions :
  NoDup (map fst instructions) ->
  (forall k, k ∈ map fst instructions -> k ∈ OVERRIDE_IDS) ->
  let hits := category_hits content instructions in
  let best := max_by hits "P1" ["P2"; "P3"; "P4"; "P5"] in
  _apply_pattern_instructions classified content instructions
    = Ok (if 2 <=? hits best then best else classified).
Proof.
  intros Hnd Hkeys hits best. unfold _apply_pattern_instructions.
  destruct (instruction_loop content instructions
              (list_to_map (map (fun p => (p, 0)) OVERRIDE_IDS))) as (sc & -> & Hsc).
  { intros k Hk. rewrite scores0_lookup by auto. by eexists. }
  cbn [mbind result_bind].
  assert (Hval : forall k, k ∈ OVERRIDE_IDS -> default 0 (sc !! k) = hits k).
  { intros k Hk. rewrite Hsc, scores0_lookup by done. simpl.
    by rewrite summed_hits_lookup. }
  assert (Hbest : max_by (fun k => default 0 (sc !! k)) "P1" ["P2"; "P3"; "P4"; "P5"] = best).
  { apply max_by_ext. intros k Hk. apply Hval. unfold OVERRIDE_IDS.
    destruct Hk as [->|Hk]; [by left|by right]. }
  rewrite Hbest, Hval; [by destruct (2 <=? hits best)|].
  unfold OVERRIDE_IDS. destruct (max_by_in hits "P1" ["P2"; "P3"; "P4"; "P5"]) as [H|H];
    fold best in H; [rewrite H; by left|by right].
Qed.

End OverrideFacts.

(** C9 as it is stated fails: for an application already classified P5,
    instructions and content that give P5 two keyword hits leave the
    pattern as it is, although the highest count is at least 2. *)
Lemma override_to_same_pattern_changes_nothing :
  ~ (forall r,
       Assessment._apply_pattern_instructions "P5" Samples.p5_content Samples.p5_instructions
         = Ok r ->
       (r <> "P5" <->
        2 <= category_hits Samples.p5_content Samples.p5_instructions
               (max_by (category_hits Samples.p5_content Samples.p5_instructions)
                  "P1" ["P2"; "P3"; "P4"; "P5"]))).
Proof.
  intros H. destruct (H "P5" eq_refl) as [_ Hchange].
  apply Hchange; [by vm_compute|reflexivity].
Qed.

(** C9, amended: with a mapping that lists each category once, the
    resolver returns the category of highest keyword-hit count (the first
    such in the order P1..P5) when that count is at least 2, and the
    original pattern otherwise; so the pattern changes exactly when that
    count is at least 2 and that category is not the original pattern.
    The count of a category is the number of its first 50 trimmed,
    lowercased keywords that occur in the lowercased content.  The result
    is the only one the call can give. *)
Theorem override_iff_two_hits :
  forall classified content instructions,
    NoDup (map fst instructions) ->
    (forall k, k ∈ map fst instructions -> k ∈ Assessment.OVERRIDE_IDS) ->
    let hits := category_hits content instructions in
    let best := max_by hits "P1" ["P2"; "P3"; "P4"; "P5"] in
    best ∈ Assessment.OVERRIDE_IDS /\
    (forall k, k ∈ Assessment.OVERRIDE_IDS -> hits k <= hits best) /\
    exists r,
      Assessment._apply_pattern_instructions classified content instructions = Ok r /\
      (2 <= hits best -> r = best) /\
      (hits best < 2 -> r = classified) /\
      (r <> classified <-> 2 <= hits best /\ best <> classified) /\
      (forall r', Assessment._apply_pattern_instructions classified content instructions
                    = Ok r' -> r' = r).
Proof.
  intros classified content instructions Hnd Hkeys. cbv zeta.
  pose proof (apply_pattern_instructions_spec classified content instructions Hnd Hkeys)
    as Hspec.
  cbv zeta in Hspec.
  set (hits := category_hits content instructions) in *.
  set (best := max_by hits "P1" ["P2"; "P3"; "P4"; "P5"]) in *.
  assert (Hin : best ∈ Assessment.OVERRIDE_IDS).
  { unfold Assessment.OVERRIDE_IDS.
    destruct (max_by_in hits "P1" ["P2"; "P3"; "P4"; "P5"]) as [H|H];
      fold best in H; [rewrite H; by left|by right]. }
  split; [exact Hin|]. split.
  - intros k Hk. apply max_by_ge. unfold Assessment.OVERRIDE_IDS in Hk.
    apply elem_of_cons in Hk as [->|Hk]; [by left|by right].
  - rewrite Hspec. destruct (2 <=? hits best) eqn:H2.
    + apply Z.leb_le in H2. exists best.
      split; [done|]. split; [done|]. split; [lia|].
      split; [split; [by intros ?|by intros [_ ?]]|]. by intros r' [= <-].
    + apply Z.leb_gt in H2. exists classified.
      split; [done|]. split; [lia|]. split; [done|].
      split; [split; [by intros []|intros [? _]; lia]|]. by intros r' [= <-].
Qed.

Lemma override_iff_two_hits_witness :
  let hits := category_hits Samples.p5_content Samples.p5_instructions in
  let best := max_by hits "P1" ["P2"; "P3"; "P4"; "P5"] in
  best ∈ Assessment.OVERRIDE_IDS /\
  (forall k, k ∈ Assessment.OVERRIDE_IDS -> hits k <= hits best) /\
  exists r,
    Assessment._apply_pattern_instructions "P1" Samples.p5_content Samples.p5_instructions
      = Ok r /\
    (2 <= hits best -> r = best) /\
    (hits best < 2 -> r = "P1") /\
    (r <> "P1" <-> 2 <= hits best /\ best <> "P1") /\
    (forall r', Assessment._apply_pattern_instructions "P1" Samples.p5_content
                  Samples.p5_instructions = Ok r' -> r' = r).
Proof.
  apply (override_iff_two_hits "P1" Samples.p5_content Samples.p5_instructions).
  - apply (bool_decide_unpack _). by vm_compute.
  - apply Forall_forall, (bool_decide_unpack _). by vm_compute.
Defined.

(** ** Dependency graph *)

Section GraphFacts.
Import Assessment.

Variable json_loads : string -> option pyval.
Variable py_repr : pyval -> string.

Local Abbreviation extract := (_extract_integration_model json_loads py_repr).
Local Abbreviation graph_of := (dependency_graph json_loads py_repr).

Lemma graph_app_link_edges ids app links st :
  snd (fold_left (graph_app_link ids app) links st)
  = snd st ++ map (call_edge ids app) links.
Proof.
  revert st. induction links as [|link links IH]; intros [nodes edges]; simpl.
  - by rewrite app_nil_r.
  - rewrite IH. unfold graph_app_link, call_edge.
    destruct (decide (target link ∈ ids)); simpl; by rewrite <- app_assoc.
Qed.

Lemma graph_db_link_edges app dls st :
  snd (fold_left (graph_db_link app) dls st) = snd st ++ map (db_edge app) dls.
Proof.
  revert st. induction dls as [|dl dls IH]; intros [nodes edges]; simpl.
  - by rewrite app_nil_r.
  - rewrite IH. simpl. by rewrite <- app_assoc.
Qed.

(** The edges one application adds, in order: its [migrates_to] edge,
    one [calls] edge per app_link, one [reads/writes] edge per db_link. *)
Lemma graph_app_edges ids st app st' :
  graph_app json_loads py_repr ids st app = Ok st' ->
  exists model,
    extract (findings_json app) = Ok model /\
    snd st' = snd st ++ [MigratesTo (id app) ("gcp-" +:+ id app)]
                ++ map (call_edge ids app) (app_links model)
                ++ map (db_edge app) (db_links model).
Proof.
  unfold graph_app. destruct st as [nodes edges].
  intros (model & Hm & [= <-])%bind_Ok. exists model. split; [done|].
  rewrite graph_db_link_edges, graph_app_link_edges. simpl.
  by rewrite <- !app_assoc.
Qed.

(** Every [calls] edge of the graph comes from an app_link of one of the
    applications. *)
Lemma calls_edges_origin apps st :
  graph_of apps = Ok st ->
  forall e, e ∈ snd st ->
    (exists f t, e = MigratesTo f t) \/
    (exists app model dl,
        app ∈ apps /\ extract (findings_json app) = Ok model /\
        dl ∈ db_links model /\ e = db_edge app dl) \/
    (exists app model link,
        app ∈ apps /\ extract (findings_json app) = Ok model /\
        link ∈ app_links model /\ e = call_edge (list_to_set (map id apps)) app link).
Proof.
  unfold dependency_graph. intros Hrun.
  refine (for_each_inv (fun st => forall e, e ∈ snd st -> _) _ _ _ _ _ _ Hrun);
    [|by intros e Hin%elem_of_nil].
  intros s app s' Happ IHs Hstep e He.
  apply graph_app_edges in Hstep as (model & Hm & Hedges).
  rewrite Hedges in He.
  apply elem_of_app in He as [He|He]; [by apply IHs|].
  apply elem_of_app in He as [He|He];
    [apply list_elem_of_singleton in He; left; eauto|].
  apply elem_of_app in He as [He|He].
  - apply list_elem_of_fmap in He as (link & -> & Hlink).
    right; right. exists app, model, link. auto.
  - apply list_elem_of_fmap in He as (dl & -> & Hdl).
    right; left. exists app, model, dl. auto.
Qed.

End GraphFacts.

(** C10 as it is stated fails: the application ["A"] with a tight link to
    ["B"], which is not in the run, gets a [calls] edge to the external
    node with coupling ["tight"] and weight 1, not 3. *)
Lemma external_tight_call_has_weight_1 :
  ~ (forall nodes edges,
       Assessment.dependency_graph Samples.no_json Samples.no_repr
         [Samples.app_calling_outside] = Ok (nodes, edges) ->
       forall f t c w, Assessment.Calls f t c w ∈ edges ->
         w = if String.eqb c "tight" then 3 else 1).
Proof.
  intros H.
  specialize (H _ _ eq_refl "A" "ext-B" "tight" 1).
  discriminate H. right. left.
Qed.

(** C10, amended: every [calls] edge carries the coupling of the app_link
    it comes from; when the link's target is an application of the run
    the edge goes to it with weight 3 if that coupling is ["tight"] and 1
    otherwise; when it is not, the edge goes to the external node
    ["ext-" + target] with weight 1 whatever the coupling. *)
Theorem calls_edge_weight :
  forall (json_loads : string -> option pyval) (py_repr : pyval -> string)
         apps nodes edges,
    Assessment.dependency_graph json_loads py_repr apps = Ok (nodes, edges) ->
    forall f t c w, Assessment.Calls f t c w ∈ edges ->
      exists app model link,
        app ∈ apps /\
        Assessment._extract_integration_model json_loads py_repr
          (Assessment.findings_json app) = Ok model /\
        link ∈ Assessment.app_links model /\
        f = Assessment.id app /\ c = Assessment.coupling link /\
        ((Assessment.target link ∈ map Assessment.id apps /\
          t = Assessment.target link /\
          w = if String.eqb c "tight" then 3 else 1) \/
         (Assessment.target link ∉ map Assessment.id apps /\
          t = "ext-" +:+ Assessment.target link /\ w = 1)).
Proof.
  intros json_loads py_repr apps nodes edges Hrun f t c w He.
  destruct (calls_edges_origin _ _ _ _ Hrun _ He)
    as [(f' & t' & Heq)|[(app & model & dl & _ & _ & _ & Heq)|(app & model & link & Ha & Hm & Hl & Heq)]];
    try discriminate.
  exists app, model, link. repeat (split; [done|]).
  unfold call_edge in Heq.
  destruct (decide (Assessment.target link ∈ (list_to_set (map Assessment.id apps) : gset string)))
    as [Hin|Hnin]; injection Heq as -> -> -> ->.
  - split; [done|]. split; [done|]. left. by rewrite elem_of_list_to_set in Hin.
  - split; [done|]. split; [done|]. right. by rewrite elem_of_list_to_set in Hnin.
Qed.

Lemma calls_edge_weight_witness :
  exists app model link,
    app ∈ [Samples.app_calling_outside] /\
    Assessment._extract_integration_model Samples.no_json Samples.no_repr
      (Assessment.findings_json app) = Ok model /\
    link ∈ Assessment.app_links model /\
    "A" = Assessment.id app /\ "tight" = Assessment.coupling link /\
    ((Assessment.target link ∈ map Assessment.id [Samples.app_calling_outside] /\
      "ext-B" = Assessment.target link /\
      1 = if String.eqb "tight" "tight" then 3 else 1) \/
     (Assessment.target link ∉ map Assessment.id [Samples.app_calling_outside] /\
      "ext-B" = "ext-" +:+ Assessment.target link /\ 1 = 1)).
Proof.
  eapply (calls_edge_weight Samples.no_json Samples.no_repr [Samples.app_calling_outside]).
  - reflexivity.
  - right. left.
Defined.

(** ** Bundles: building the coupling graph *)

Section GraphBasics.
Import Assessment.

Lemma graph_ext_refl ids g : graph_ext ids g g.
Proof. intros Hok. split; [done|]. split; [done|]. intros key. lia. Qed.

Lemma graph_ext_trans ids g1 g2 g3 :
  graph_ext ids g1 g2 -> graph_ext ids g2 g3 -> graph_ext ids g1 g3.
Proof.
  intros H12 H23 Hok. destruct (H12 Hok) as [Hok2 [Hn2 Ha2]].
  destruct (H23 Hok2) as [Hok3 [Hn3 Ha3]].
  split; [done|]. split.
  - intros x. etrans; [apply Hn2|apply Hn3].
  - intros key. specialize (Ha2 key). specialize (Ha3 key). lia.
Qed.

(** [app_map] and the initial [neighbors]. *)
Lemma app_map_lookup (all : list app_row) (m0 : gmap string app_row) k a :
  fold_left (fun m a => <[id a := a]> m) all m0 !! k = Some a ->
  (a ∈ all /\ id a = k) \/ m0 !! k = Some a.
Proof.
  revert m0. induction all as [|b all IH]; intros m0; simpl; [auto|].
  intros [[Hin Hid]|Hm0]%IH; [left; split; [by right|done]|].
  destruct (decide (id b = k)) as [<-|Hne].
  - rewrite lookup_insert_eq in Hm0. injection Hm0 as <-. left. split; [by left|done].
  - rewrite lookup_insert_ne in Hm0 by done. by right.
Qed.

Lemma app_map_is_Some (all : list app_row) (m0 : gmap string app_row) k :
  is_Some (fold_left (fun m a => <[id a := a]> m) all m0 !! k)
  <-> k ∈ map id all \/ is_Some (m0 !! k).
Proof.
  revert m0. induction all as [|b all IH]; intros m0; simpl.
  - split; [auto|]. intros [Hin|H]; [by apply elem_of_nil in Hin|done].
  - rewrite IH, elem_of_cons. destruct (decide (id b = k)) as [<-|Hne].
    + rewrite lookup_insert_eq. split; [intros _; left; by left|]. intros _. right. by eexists.
    + rewrite lookup_insert_ne by done. split; [tauto|]. intros [[Heq|H]|H]; auto. congruence.
Qed.

Lemma neighbors0_lookup (all : list app_row) (m0 : gmap string (gset string)) k :
  fold_left (fun m a => <[id a := ∅]> m) all m0 !! k
  = if decide (k ∈ map id all) then Some ∅ else m0 !! k.
Proof.
  revert m0. induction all as [|b all IH]; intros m0; cbn [fold_left].
  - destruct (decide (k ∈ map id [])) as [Hin|_]; [by apply elem_of_nil in Hin|done].
  - rewrite IH.
    destruct (decide (k ∈ map id all)) as [Hin|Hnin];
      destruct (decide (k ∈ map id (b :: all))) as [Hin'|Hnin']; cbn [map] in *.
    + done.
    + destruct Hnin'. by right.
    + apply elem_of_cons in Hin' as [->|?]; [|done]. by rewrite lookup_insert_eq.
    + rewrite lookup_insert_ne; [done|]. intros <-. apply Hnin'. by left.
Qed.

Lemma graph0_ok (all : list app_row) :
  graph_ok (list_to_set (map id all))
    (Graph (fold_left (fun m a => <[id a := ∅]> m) all ∅) ∅).
Proof.
  split; [|intros key; unfold aff_get; simpl; by rewrite lookup_empty].
  split; simpl.
  - apply set_eq. intros k. rewrite elem_of_dom, neighbors0_lookup, elem_of_list_to_set.
    destruct (decide (k ∈ map id all)); [by split; [|eexists]|].
    rewrite lookup_empty. split; [by intros [? ?]|done].
  - intros x y. unfold nbrs. rewrite neighbors0_lookup.
    destruct (decide (x ∈ map id all)); simpl; [set_solver|].
    rewrite lookup_empty. set_solver.
Qed.

Lemma add_neighbor_spec x y (nb : gmap string (gset string)) :
  x ∈ dom nb ->
  exists nb', add_neighbor x y nb = Ok nb' /\ dom nb' = dom nb /\
    forall z, nbrs nb' z = nbrs nb z ∪ (if decide (z = x) then {[y]} else ∅).
Proof.
  intros [s Hs]%elem_of_dom. unfold add_neighbor. rewrite Hs.
  eexists. split; [done|]. split.
  - rewrite dom_insert_L. apply elem_of_dom_2 in Hs. set_solver.
  - intros z. unfold nbrs. destruct (decide (z = x)) as [->|Hne].
    + by rewrite lookup_insert_eq, Hs.
    + rewrite lookup_insert_ne by done. set_solver.
Qed.

(** Recording an edge between two ids of the run returns, keeps the
    adjacency well formed, and leaves the pair adjacent with affinity at
    least [w]. *)
Lemma link_pair_spec ids a b w g :
  graph_ok ids g -> a ∈ ids -> b ∈ ids -> 0 <= w ->
  exists g', link_pair a b w g = Ok g' /\
    graph_ok ids g' /\ graph_le g g' /\
    b ∈ nbrs (neighbors g') a /\ w <= aff_get (affinity g') (pair_key a b).
Proof.
  intros [[Hdom Hadj] Hnn] Ha Hb Hw. unfold link_pair.
  destruct (add_neighbor_spec a b (neighbors g)) as (nb1 & -> & Hdom1 & Hnb1);
    [by rewrite Hdom|].
  cbn [mbind result_bind].
  destruct (add_neighbor_spec b a nb1) as (nb2 & -> & Hdom2 & Hnb2);
    [by rewrite Hdom1, Hdom|].
  cbn [mbind result_bind]. eexists. split; [done|]. simpl.
  assert (Hnb : forall z, nbrs nb2 z = nbrs (neighbors g) z
                 ∪ (if decide (z = a) then {[b]} else ∅)
                 ∪ (if decide (z = b) then {[a]} else ∅)).
  { intros z. by rewrite Hnb2, Hnb1. }
  assert (Haff : forall key,
    aff_get (<[pair_key a b := Z.max (default 0 (affinity g !! pair_key a b)) w]> (affinity g)) key
    = if decide (key = pair_key a b)
      then Z.max (aff_get (affinity g) key) w else aff_get (affinity g) key).
  { intros key. unfold aff_get. destruct (decide (key = pair_key a b)) as [->|Hne].
    - by rewrite lookup_insert_eq.
    - by rewrite lookup_insert_ne. }
  split; [split|split; [|split]].
  2: { simpl. intros key. rewrite Haff. specialize (Hnn key). case_decide; lia. }
  - split; simpl; [by rewrite Hdom2, Hdom1|].
    intros x y. rewrite !Hnb. intros Hy.
    assert (Hcases : y ∈ nbrs (neighbors g) x \/ (x = a /\ y = b) \/ (x = b /\ y = a)).
    { repeat case_decide; set_solver. }
    destruct Hcases as [Hold|[[-> ->]|[-> ->]]].
    + destruct (Hadj x y Hold). split; [done|]. set_solver.
    + split; [done|]. rewrite (decide_True (P := b = b)) by done. set_solver.
    + split; [done|]. rewrite (decide_True (P := a = a)) by done. set_solver.
  - split; simpl.
    + intros x. rewrite Hnb. set_solver.
    + intros key. rewrite Haff. specialize (Hnn key). case_decide; lia.
  - rewrite Hnb. rewrite (decide_True (P := a = a)) by done. set_solver.
  - rewrite Haff. rewrite decide_True by done. lia.
Qed.

(** Loops whose body only extends the graph. *)
Lemma for_each_ext {A} ids (body : graph -> A -> result graph) l :
  (forall g x g', x ∈ l -> body g x = Ok g' -> graph_ext ids g g') ->
  forall g g', for_each l body g = Ok g' -> graph_ext ids g g'.
Proof.
  intros Hstep g g' Hrun.
  refine (for_each_inv (graph_ext ids g) _ _ _ _ _ _ Hrun); [|apply graph_ext_refl].
  intros h x h' Hx Hh Hb. eapply graph_ext_trans; [exact Hh|]. by eapply Hstep.
Qed.

Lemma for_each_graph_total {A} ids (body : graph -> A -> result graph) l :
  (forall g x g', x ∈ l -> body g x = Ok g' -> graph_ext ids g g') ->
  (forall g x, x ∈ l -> graph_ok ids g -> exists g', body g x = Ok g') ->
  forall g, graph_ok ids g -> exists g', for_each l body g = Ok g'.
Proof.
  intros Hext Htot g Hok.
  destruct (for_each_total (graph_ok ids) body l) with (s := g) as (g' & Hrun & _);
    [|done|by exists g'].
  intros h x Hx Hh. destruct (Htot h x Hx Hh) as [h' Hb].
  exists h'. split; [done|]. by apply (Hext h x h' Hx Hb).
Qed.

End GraphBasics.

Section GraphBuilding.
Import Assessment.

Variable json_loads : string -> option pyval.
Variable py_repr : pyval -> string.

Local Abbreviation extract := (_extract_integration_model json_loads py_repr).

Section Run.
Variable all : list app_row.

Local Abbreviation ids := (list_to_set (map id all) : gset string).
Local Abbreviation app_map :=
  (fold_left (fun m a => <[id a := a]> m) all ∅ : gmap string app_row).

Lemma id_in_ids (app : app_row) : app ∈ all -> id app ∈ ids.
Proof. intros H. apply elem_of_list_to_set, list_elem_of_fmap. eauto. Qed.

Lemma app_map_in_ids k : is_Some (app_map !! k) <-> k ∈ ids.
Proof.
  rewrite app_map_is_Some, elem_of_list_to_set, lookup_empty.
  split; [intros [H|[? H]]; [done|discriminate]|auto].
Qed.

Lemma bundle_app_link_spec app link g :
  app ∈ all -> graph_ok ids g ->
  exists g', bundle_app_link app_map app g link = Ok g' /\
             graph_ok ids g' /\ graph_le g g'.
Proof.
  intros Happ Hok. unfold bundle_app_link.
  destruct (app_map !! target link) as [a|] eqn:Hlk.
  - destruct (link_pair_spec ids (id app) (target link)
                (if String.eqb (coupling link) "tight" then 3 else 1) g)
      as (g' & Hrun & Hok' & Hle & _); eauto.
    + by apply id_in_ids.
    + apply app_map_in_ids. by rewrite Hlk.
    + case_match; lia.
  - exists g. split; [done|]. split; [done|]. by apply (graph_ext_refl ids g).
Qed.

Lemma bundle_other_ext app dl other g g' :
  app ∈ all -> other ∈ all ->
  bundle_other json_loads py_repr app dl g other = Ok g' -> graph_ext ids g g'.
Proof.
  intros Happ Hother. unfold bundle_other.
  destruct (String.eqb (id other) (id app)); [intros [= <-]; apply graph_ext_refl|].
  intros (m & Hm & Hrun)%bind_Ok Hok. case_decide.
  - destruct (link_pair_spec ids (id app) (id other) 4 g)
      as (g'' & Hrun' & Hok' & Hle & _); auto using id_in_ids; [lia|].
    rewrite Hrun' in Hrun. by injection Hrun as <-.
  - injection Hrun as <-. by apply (graph_ext_refl ids g).
Qed.

Lemma bundle_other_total app dl other g :
  app ∈ all -> other ∈ all -> graph_ok ids g ->
  is_ok (extract (findings_json other)) = true ->
  exists g', bundle_other json_loads py_repr app dl g other = Ok g'.
Proof.
  intros Happ Hother Hok Hex. unfold bundle_other.
  destruct (String.eqb (id other) (id app)); [eauto|].
  destruct (extract (findings_json other)) as [m| |]; try discriminate.
  cbn [mbind result_bind]. case_decide; [|eauto].
  destruct (link_pair_spec ids (id app) (id other) 4 g)
    as (g'' & Hrun' & _); auto using id_in_ids; [lia|eauto].
Qed.

(** What processing [other] for a tight db_link of [app] records. *)
Lemma bundle_other_links app dl other g g' m :
  app ∈ all -> other ∈ all -> graph_ok ids g ->
  bundle_other json_loads py_repr app dl g other = Ok g' ->
  id other <> id app ->
  extract (findings_json other) = Ok m ->
  datastore dl ∈ map datastore (db_links m) ->
  id other ∈ nbrs (neighbors g') (id app) /\
  4 <= aff_get (affinity g') (pair_key (id app) (id other)).
Proof.
  intros Happ Hother Hok Hrun Hne Hm Hds. unfold bundle_other in Hrun.
  apply String.eqb_neq in Hne. rewrite Hne, Hm in Hrun. cbn [mbind result_bind] in Hrun.
  rewrite decide_True in Hrun by by apply elem_of_list_to_set.
  destruct (link_pair_spec ids (id app) (id other) 4 g)
    as (g'' & Hrun' & _ & _ & Hadj & Haff); auto using id_in_ids; [lia|].
  rewrite Hrun' in Hrun. by injection Hrun as <-.
Qed.

Lemma bundle_db_link_ext app dl g g' :
  app ∈ all -> bundle_db_link json_loads py_repr all app g dl = Ok g' -> graph_ext ids g g'.
Proof.
  intros Happ. unfold bundle_db_link.
  destruct (String.eqb (db_coupling dl) "tight"); [|intros [= <-]; apply graph_ext_refl].
  apply for_each_ext. intros h other h' Hother. by apply bundle_other_ext.
Qed.

Lemma bundle_app_ext app g g' :
  app ∈ all -> bundle_app json_loads py_repr all app_map g app = Ok g' -> graph_ext ids g g'.
Proof.
  intros Happ. unfold bundle_app.
  intros (m & Hm & (g1 & H1 & H2)%bind_Ok)%bind_Ok.
  eapply graph_ext_trans.
  - eapply for_each_ext; [|exact H1]. intros h link h' _ Hb Hok.
    destruct (bundle_app_link_spec app link h Happ Hok) as (h'' & Hb' & Hok' & Hle).
    rewrite Hb' in Hb. by injection Hb as <-.
  - eapply for_each_ext; [|exact H2]. intros h dl h' _. by apply bundle_db_link_ext.
Qed.

Lemma build_graph_ok g :
  build_graph json_loads py_repr all = Ok g -> graph_ok ids g.
Proof.
  unfold build_graph. intros Hrun.
  eapply for_each_ext in Hrun; [apply Hrun, graph0_ok|].
  intros h app h' Happ. by apply bundle_app_ext.
Qed.

(** The first loop returns when the findings of every application can
    be extracted. *)
Lemma build_graph_total :
  (forall app, app ∈ all -> is_ok (extract (findings_json app)) = true) ->
  exists g, build_graph json_loads py_repr all = Ok g.
Proof.
  intros Hex. unfold build_graph.
  apply (for_each_graph_total ids); [| |apply graph0_ok].
  { intros h app h' Happ. by apply bundle_app_ext. }
  intros g app Happ Hok. unfold bundle_app.
  specialize (Hex app Happ) as Hm.
  destruct (extract (findings_json app)) as [m| |]; try discriminate.
  cbn [mbind result_bind].
  destruct (for_each_total (graph_ok ids) (bundle_app_link app_map app) (app_links m))
    with (s := g) as (g1 & -> & Hok1); [|done|].
  { intros h link _ Hh.
    destruct (bundle_app_link_spec app link h Happ Hh) as (h' & ? & ? & ?). eauto. }
  cbn [mbind result_bind].
  apply (for_each_graph_total ids); [| |done].
  { intros h dl h' _. by apply bundle_db_link_ext. }
  intros h dl _ Hh. unfold bundle_db_link.
  destruct (String.eqb (db_coupling dl) "tight"); [|eauto].
  apply (for_each_graph_total ids); [| |done].
  { intros k other k' Hother. by apply bundle_other_ext. }
  intros k other Hother Hk. apply bundle_other_total; auto.
Qed.

(** Two distinct applications, one with a tight db_link to a datastore
    the other also links to, are adjacent with affinity at least 4. *)
Lemma shared_tight_db_adjacent g a b ma mb dla dlb :
  build_graph json_loads py_repr all = Ok g ->
  a ∈ all -> b ∈ all -> id a <> id b ->
  extract (findings_json a) = Ok ma -> extract (findings_json b) = Ok mb ->
  dla ∈ db_links ma -> db_coupling dla = "tight" ->
  dlb ∈ db_links mb -> datastore dla = datastore dlb ->
  id b ∈ nbrs (neighbors g) (id a) /\
  4 <= aff_get (affinity g) (pair_key (id a) (id b)).
Proof.
  intros Hrun Ha Hb Hne Hma Hmb Hdla Htight Hdlb Hsame.
  unfold build_graph in Hrun.
  (* the iteration of the outer loop that processes [a] *)
  destruct (for_each_mid (graph_ext ids) _ all (graph_ext_refl ids) (graph_ext_trans ids)
              (fun h x h' Hx => bundle_app_ext x h h' Hx) _ _ a Ha Hrun)
    as (g1 & g2 & Hpre & Hstep & Hpost).
  destruct (Hpre (graph0_ok all)) as [Hok1 _].
  unfold bundle_app in Hstep. rewrite Hma in Hstep. cbn [mbind result_bind] in Hstep.
  apply bind_Ok in Hstep as (g1' & Hlinks & Hdbs).
  assert (Hok1' : graph_ok ids g1').
  { eapply for_each_ext in Hlinks; [apply Hlinks, Hok1|].
    intros h link h' _ Hbd Hok.
    destruct (bundle_app_link_spec a link h Ha Hok) as (h'' & Hb' & Hok' & Hle).
    rewrite Hb' in Hbd. by injection Hbd as <-. }
  (* the iteration of the db_link loop that processes [dla] *)
  destruct (for_each_mid (graph_ext ids) _ (db_links ma) (graph_ext_refl ids)
              (graph_ext_trans ids)
              (fun h x h' _ => bundle_db_link_ext a x h h' Ha) _ _ dla Hdla Hdbs)
    as (h1 & h2 & Hpre2 & Hstep2 & Hpost2).
  destruct (Hpre2 Hok1') as [Hokh1 _].
  unfold bundle_db_link in Hstep2. rewrite Htight in Hstep2. cbn in Hstep2.
  (* the iteration of the inner loop that processes [b] *)
  destruct (for_each_mid (graph_ext ids) _ all (graph_ext_refl ids) (graph_ext_trans ids)
              (fun h x h' Hx => bundle_other_ext a dla x h h' Ha Hx) _ _ b Hb Hstep2)
    as (k1 & k2 & Hpre3 & Hstep3 & Hpost3).
  destruct (Hpre3 Hokh1) as [Hokk1 _].
  destruct (bundle_other_links a dla b k1 k2 mb Ha Hb Hokk1 Hstep3) as [Hadj Haff];
    [congruence|done|rewrite Hsame; by apply list_elem_of_fmap_2|].
  (* nothing is lost afterwards *)
  assert (Hokk2 : graph_ok ids k2) by (by apply (bundle_other_ext a dla b k1 k2 Ha Hb Hstep3)).
  destruct (Hpost3 Hokk2) as [Hokh2 [Hn3 Ha3]].
  destruct (Hpost2 Hokh2) as [Hokg2 [Hn2 Ha2]].
  destruct (Hpost Hokg2) as [_ [Hn1 Ha1]].
  split.
  - by apply Hn1, Hn2, Hn3.
  - specialize (Ha1 (pair_key (id a) (id b))). specialize (Ha2 (pair_key (id a) (id b))).
    specialize (Ha3 (pair_key (id a) (id b))). lia.
Qed.

End Run.

End GraphBuilding.

(** ** Bundles: connected components *)

Section Components.
Import Assessment.

Variable set_iter : string -> gset string -> list string.
Hypothesis set_iter_elem : forall k s x, x ∈ set_iter k s <-> x ∈ s.

(** The inner [for] loop pushes the unvisited neighbours, each once. *)
Lemma visit_neighbors_spec l stack (visited : gset string) :
  exists new,
    fold_left visit_neighbor l (stack, visited)
      = (new ++ stack, visited ∪ list_to_set l) /\
    NoDup new /\ (forall x, x ∈ new <-> x ∈ l /\ x ∉ visited).
Proof.
  revert stack visited. induction l as [|x l IH]; intros stack visited; simpl.
  - exists []. simpl. split; [f_equal; set_solver|]. split; [constructor|].
    intros x. split; [by intros ?%elem_of_nil|by intros [?%elem_of_nil _]].
  - destruct (decide (x ∈ visited)) as [Hin|Hnin].
    + destruct (IH stack visited) as (new & -> & Hnd & Hnew).
      exists new. split; [f_equal; set_solver|]. split; [done|].
      intros y. rewrite Hnew, elem_of_cons. split; [tauto|].
      intros [[->|H] Hy]; [done|tauto].
    + destruct (IH (x :: stack) (visited ∪ {[x]})) as (new & -> & Hnd & Hnew).
      exists (new ++ [x]). split; [rewrite <- app_assoc; f_equal; set_solver|]. split.
      * apply NoDup_app. split; [done|]. split; [|apply NoDup_singleton].
        intros y Hy ->%list_elem_of_singleton. apply Hnew in Hy. set_solver.
      * intros y. rewrite elem_of_app, Hnew, list_elem_of_singleton, elem_of_cons.
        split; [intros [[? ?]| ->]; set_solver|].
        intros [[->|Hy] Hv]; [by right|]. destruct (decide (y = x)); [by right|].
        left. set_solver.
Qed.

Section Traversal.
Variable nb : gmap string (gset string).
Variable ids : gset string.
Hypothesis nb_dom : dom nb = ids.
Hypothesis nb_adj : forall x y, y ∈ nbrs nb x -> y ∈ ids /\ x ∈ nbrs nb y.

(** The [while] loop returns within the fuel and keeps [dfs_inv]. *)
Lemma dfs_loop_spec V0 fuel : forall stack comp visited,
  dfs_inv nb ids V0 stack comp visited ->
  (length stack + size (ids ∖ visited) <= fuel)%nat ->
  exists comp' visited',
    dfs_loop set_iter fuel nb stack comp visited = Ok (comp', visited') /\
    dfs_inv nb ids V0 [] comp' visited' /\ visited ⊆ visited'.
Proof.
  induction fuel as [|fuel IH]; intros stack comp visited Hinv Hfuel.
  - destruct stack as [|cur rest]; [|simpl in Hfuel; lia].
    exists comp, visited. auto.
  - destruct stack as [|cur rest]; [exists comp, visited; auto|].
    destruct Hinv as (Hnd & Hvis & Hfresh & Hclosed).
    assert (Hcur : cur ∈ ids) by (apply Hfresh; set_solver).
    destruct (nb !! cur) as [s|] eqn:Hs;
      [|apply not_elem_of_dom in Hs; by rewrite nb_dom in Hs].
    assert (Hnbrs : nbrs nb cur = s) by (unfold nbrs; by rewrite Hs).
    cbn [dfs_loop]. rewrite Hs.
    destruct (visit_neighbors_spec (set_iter cur s) rest visited)
      as (new & -> & Hndnew & Hnew).
    assert (Hset : (list_to_set (set_iter cur s) : gset string) = s).
    { apply set_eq. intros x. by rewrite elem_of_list_to_set, set_iter_elem. }
    rewrite Hset.
    assert (Hnew' : forall x, x ∈ new <-> x ∈ s /\ x ∉ visited).
    { intros x. by rewrite Hnew, set_iter_elem. }
    assert (Hv : forall x, x ∈ visited <-> x ∈ V0 \/ x ∈ comp ++ cur :: rest).
    { intros x. by rewrite Hvis, elem_of_union, elem_of_list_to_set. }
    assert (Hs_ids : forall x, x ∈ s -> x ∈ ids).
    { intros x Hx. rewrite <- Hnbrs in Hx. by apply (nb_adj cur). }
    assert (Hperm : (comp ++ [cur]) ++ new ++ rest ≡ₚ new ++ (comp ++ cur :: rest)).
    { rewrite <- !app_assoc. simpl.
      rewrite (Permutation_app_comm new (comp ++ cur :: rest)).
      rewrite <- !app_assoc. simpl. apply Permutation_app_head.
      apply perm_skip. apply Permutation_app_comm. }
    destruct (IH (new ++ rest) (comp ++ [cur]) (visited ∪ s))
      as (comp' & visited' & Hrun & Hinv' & Hsub).
    + split; [|split; [|split]].
      * rewrite Hperm. apply NoDup_app. split; [done|]. split; [|done].
        intros x Hx Hx'. apply Hnew' in Hx as [_ Hx]. apply Hx, Hv. by right.
      * apply set_eq. intros x.
        rewrite !elem_of_union, elem_of_list_to_set, Hperm, elem_of_app, Hnew', Hv.
        destruct (decide (x ∈ V0)); destruct (decide (x ∈ comp ++ cur :: rest)); tauto.
      * intros x. rewrite Hperm, elem_of_app. intros [Hx|Hx]; [|by apply Hfresh].
        apply Hnew' in Hx as [Hx Hnv]. split; [|by apply Hs_ids].
        intros HV0. apply Hnv, Hv. by left.
      * intros x y [Hx| ->%list_elem_of_singleton]%elem_of_app Hy.
        -- apply elem_of_union_l. by eapply Hclosed.
        -- apply elem_of_union_r. by rewrite <- Hnbrs.
    + assert (Hsize : size (ids ∖ visited)
                      = (size (ids ∖ (visited ∪ s)) + length new)%nat).
      { rewrite <- (size_list_to_set (C := gset string) new) by done.
        rewrite <- size_union.
        - f_equal. apply set_eq. intros x.
          rewrite elem_of_union, !elem_of_difference, elem_of_union,
            elem_of_list_to_set, Hnew'.
          split; [intros [? ?]; destruct (decide (x ∈ s)); tauto|].
          intros [[? ?]|[Hx ?]]; [tauto|]. split; [by apply Hs_ids|done].
        - intros x. rewrite elem_of_difference, elem_of_union, elem_of_list_to_set, Hnew'.
          tauto. }
      rewrite length_app. simpl in Hfuel. lia.
    + exists comp', visited'. split; [done|]. split; [done|].
      etrans; [|exact Hsub]. apply union_subseteq_l.
Qed.

(** One step of the loop over the keys. *)
Lemma component_step_spec fuel st app_id :
  comps_inv nb ids st -> app_id ∈ ids -> (size ids <= fuel)%nat ->
  exists st',
    component_step set_iter fuel nb st app_id = Ok st' /\
    comps_inv nb ids st' /\ fst st ⊆ fst st' /\ app_id ∈ fst st'.
Proof.
  destruct st as [visited comps]. intros (Hnd & Hvis & Hsub & Hsame & Hne) Hid Hfuel.
  simpl in *. unfold component_step.
  destruct (decide (app_id ∈ visited)) as [Hin|Hnin].
  { exists (visited, comps). repeat split; auto. }
  destruct (dfs_loop_spec visited fuel [app_id] [] (visited ∪ {[app_id]}))
    as (comp' & visited' & -> & (Hnd' & Hvis' & Hfresh & Hclosed) & Hmono).
  { split; [apply NoDup_singleton|]. split; [set_solver|]. split; [|set_solver].
    intros x ->%list_elem_of_singleton. done. }
  { assert (Hle : (size (ids ∖ (visited ∪ {[app_id]})) + 1 <= size ids)%nat).
    { rewrite <- (size_singleton (C := gset string) app_id).
      rewrite <- size_union by set_solver. apply subseteq_size. set_solver. }
    simpl. lia. }
  rewrite app_nil_r in Hnd', Hvis', Hfresh. cbn [mbind result_bind fst snd].
  assert (Hstart : app_id ∈ comp').
  { assert (Hv : app_id ∈ visited') by set_solver.
    rewrite Hvis', elem_of_union, elem_of_list_to_set in Hv. tauto. }
  assert (Hold : forall x, x ∈ concat comps <-> x ∈ visited).
  { intros x. by rewrite Hvis, elem_of_list_to_set. }
  exists (visited', comps ++ [comp']). split; [done|]. simpl. split; [|split].
  - split; [|split; [|split; [|split]]]; simpl.
    + rewrite concat_snoc. apply NoDup_app. split; [done|]. split; [|done].
      intros x Hx Hx'. apply Hold in Hx. by destruct (Hfresh x Hx').
    + rewrite concat_snoc, list_to_set_app_L, <- Hvis. exact Hvis'.
    + rewrite Hvis'. intros x [Hx|Hx%elem_of_list_to_set]%elem_of_union; [by apply Hsub|].
      by apply Hfresh.
    + intros x y Hx Hy. rewrite Hvis', elem_of_union, elem_of_list_to_set in Hx.
      destruct Hx as [Hx|Hx].
      * destruct (Hsame x y Hx Hy) as (c & Hc & ? & ?). exists c. set_solver.
      * assert (Hyv : y ∈ visited') by by eapply Hclosed.
        rewrite Hvis', elem_of_union, elem_of_list_to_set in Hyv.
        destruct Hyv as [Hy0|Hyc]; [|exists comp'; set_solver].
        destruct (nb_adj x y Hy) as [_ Hxy].
        destruct (Hsame y x Hy0 Hxy) as (c & Hc & _ & Hxc).
        destruct (Hfresh x Hx) as [Habs _]. destruct Habs.
        apply Hold, elem_of_concat. eauto.
    + apply Forall_app. split; [done|]. constructor; [|constructor].
      intros ->. by apply elem_of_nil in Hstart.
  - etrans; [|exact Hmono]. apply union_subseteq_l.
  - apply Hmono. set_solver.
Qed.

(** The loop over the keys visits each of them. *)
Lemma components_loop fuel keys : forall st,
  comps_inv nb ids st -> (forall k, k ∈ keys -> k ∈ ids) -> (size ids <= fuel)%nat ->
  exists st',
    for_each keys (component_step set_iter fuel nb) st = Ok st' /\
    comps_inv nb ids st' /\ fst st ⊆ fst st' /\ forall k, k ∈ keys -> k ∈ fst st'.
Proof.
  induction keys as [|k keys IH]; intros st Hinv Hkeys Hfuel.
  - exists st. split; [done|]. split; [done|]. split; [done|]. by intros k ?%elem_of_nil.
  - destruct (component_step_spec fuel st k Hinv) as (st1 & Hstep & Hinv1 & Hsub1 & Hk);
      [apply Hkeys; by left|done|].
    destruct (IH st1 Hinv1) as (st' & Hrun & Hinv' & Hsub' & Hall);
      [intros; apply Hkeys; by right|done|].
    exists st'. cbn [for_each]. rewrite Hstep. split; [done|]. split; [done|]. split.
    + by etrans.
    + intros k' [->|Hk']%elem_of_cons; [by apply Hsub'|by apply Hall].
Qed.

(** The components partition the ids, and adjacent ids share one. *)
Lemma components_of_spec keys :
  NoDup keys -> (forall k, k ∈ keys <-> k ∈ ids) ->
  exists comps,
    components_of set_iter keys nb = Ok comps /\
    NoDup (concat comps) /\
    (forall x, x ∈ concat comps <-> x ∈ ids) /\
    (forall x y, x ∈ ids -> y ∈ nbrs nb x -> exists c, c ∈ comps /\ x ∈ c /\ y ∈ c) /\
    Forall (fun c => c <> []) comps.
Proof.
  intros Hnd Hkeys. unfold components_of.
  destruct (components_loop (length keys) keys (∅, []))
    as ([visited comps] & -> & (Hnd' & Hvis & Hsub & Hsame & Hne) & _ & Hall).
  - split; [constructor|]. split; [done|]. split; [set_solver|]. split; [set_solver|].
    constructor.
  - intros k. apply Hkeys.
  - rewrite <- (size_list_to_set (C := gset string) keys) by done.
    apply subseteq_size. intros x Hx. apply elem_of_list_to_set, Hkeys, Hx.
  - simpl in *. exists comps. split; [done|]. split; [done|].
    assert (Hv : forall x, x ∈ concat comps <-> x ∈ ids).
    { intros x. rewrite <- (elem_of_list_to_set (C := gset string)), <- Hvis.
      split; [apply Hsub|]. intros Hx. by apply Hall, Hkeys. }
    split; [done|]. split; [|done].
    intros x y Hx Hy. apply Hsame; [|done]. rewrite Hvis. by apply elem_of_list_to_set, Hv.
Qed.

End Traversal.

End Components.

(** ** Bundles: ordering and assembling *)

Section Assembling.
Import Assessment.

Lemma dict_keys_acc {K} `{EqDecision K} (l acc : list K) :
  NoDup acc ->
  let r := fold_left (fun acc k => if decide (k ∈ acc) then acc else acc ++ [k]) l acc in
  NoDup r /\ (forall x, x ∈ r <-> x ∈ acc \/ x ∈ l) /\ (acc <> [] -> r <> []).
Proof.
  revert acc. induction l as [|k l IH]; intros acc Hnd; simpl.
  - split; [done|]. split; [|done]. intros x. rewrite elem_of_nil. tauto.
  - destruct (decide (k ∈ acc)) as [Hin|Hnin].
    + destruct (IH acc Hnd) as (H1 & H2 & H3). split; [done|]. split; [|done].
      intros x. rewrite H2, elem_of_cons. split; [tauto|]. intros [?|[->|?]]; auto.
    + destruct (IH (acc ++ [k])) as (H1 & H2 & H3).
      { apply NoDup_app. split; [done|]. split; [|apply NoDup_singleton].
        by intros x Hx ->%list_elem_of_singleton. }
      split; [done|]. split.
      * intros x. rewrite H2, elem_of_app, list_elem_of_singleton, elem_of_cons. tauto.
      * intros _. apply H3. by destruct acc.
Qed.

Lemma dict_keys_spec {K} `{EqDecision K} (l : list K) :
  NoDup (dict_keys l) /\ (forall x, x ∈ dict_keys l <-> x ∈ l).
Proof.
  destruct (dict_keys_acc l [] (NoDup_nil_2)) as (H1 & H2 & _). split; [done|].
  intros x. unfold dict_keys. rewrite H2, elem_of_nil. tauto.
Qed.

Lemma dict_keys_nonempty {K} `{EqDecision K} (l : list K) : l <> [] -> dict_keys l <> [].
Proof.
  destruct l as [|k l]; [done|]. intros _. unfold dict_keys. simpl.
  apply (dict_keys_acc l [k]); [apply NoDup_singleton|done].
Qed.

Lemma insert_by_len_perm c l : insert_by_len c l ≡ₚ c :: l.
Proof.
  induction l as [|d l IH]; simpl; [done|].
  destruct (length c <? length d)%nat; [|done].
  rewrite IH. apply perm_swap.
Qed.

(** Sorting only reorders the components. *)
Lemma sort_by_len_desc_perm l : sort_by_len_desc l ≡ₚ l.
Proof.
  induction l as [|c l IH]; simpl; [done|].
  rewrite insert_by_len_perm. by rewrite IH.
Qed.

Lemma map_result_Forall2 {A B} (f : A -> result B) l r :
  map_result f l = Ok r -> Forall2 (fun x y => f x = Ok y) l r.
Proof.
  revert r. induction l as [|x l IH]; intros r; simpl.
  - intros [= <-]. constructor.
  - intros (y & Hy & (ys & Hys & [= <-])%bind_Ok)%bind_Ok. constructor; auto.
Qed.

Lemma map_result_total {A B} (f : A -> result B) l :
  (forall x, x ∈ l -> exists y, f x = Ok y) -> exists r, map_result f l = Ok r.
Proof.
  induction l as [|x l IH]; intros H; simpl; [eauto|].
  destruct (H x) as [y ->]; [by left|]. destruct IH as [ys ->]; [intros; apply H; by right|].
  simpl. eauto.
Qed.

(** What one bundle records about its component. *)
Lemma make_bundle_spec (app_map : gmap string app_row) aff i comp b :
  (forall k a, app_map !! k = Some a -> id a = k) ->
  make_bundle app_map aff i comp = Ok b ->
  app_ids b = comp /\
  Forall2 (fun x a => app_map !! x = Some a) comp (apps b) /\
  affinity_score b = bundle_affinity aff comp /\
  bundle_coupling b =
    (if Z.max 4 (Z.of_nat (length comp) * 2) <=? bundle_affinity aff comp
     then "tight" else "loose").
Proof.
  intros Hid. unfold make_bundle.
  intros (members & Hmem & (pat & _ & (risks & _ & [= <-])%bind_Ok)%bind_Ok)%bind_Ok.
  simpl. apply map_result_Forall2 in Hmem.
  assert (Hmem' : Forall2 (fun x a => app_map !! x = Some a) comp members).
  { eapply Forall2_impl; [exact Hmem|]. simpl. intros x a.
    destruct (app_map !! x); by intros [= ->]. }
  split; [|done].
  clear -Hmem' Hid. induction Hmem' as [|x a comp members Hx _ IH]; simpl; [done|].
  by rewrite IH, (Hid x a Hx).
Qed.

Lemma make_bundle_total (app_map : gmap string app_row) aff i comp :
  comp <> [] ->
  (forall x, x ∈ comp -> exists a, app_map !! x = Some a /\ is_Some (risk_score a)) ->
  exists b, make_bundle app_map aff i comp = Ok b.
Proof.
  intros Hne Hcomp. unfold make_bundle.
  destruct (map_result_total
    (fun x => match app_map !! x with Some a => Ok a | None => Raise KeyError end) comp)
    as [members Hmem].
  { intros x Hx. destruct (Hcomp x Hx) as (a & -> & _). eauto. }
  rewrite Hmem. cbn [mbind result_bind]. apply map_result_Forall2 in Hmem.
  assert (Hmne : map pattern_id members <> []).
  { destruct Hmem; [done|discriminate]. }
  apply dict_keys_nonempty in Hmne.
  destruct (dict_keys (map pattern_id members)) as [|k ks]; [done|].
  cbn [mbind result_bind].
  destruct (map_result_total
    (fun m => match risk_score m with Some r => Ok r | None => Raise TypeError end) members)
    as [risks ->]; [|simpl; eauto].
  intros a Ha. apply list_elem_of_lookup in Ha as [n Hn].
  destruct (Forall2_lookup_r _ _ _ _ _ Hmem Hn) as (x & Hx & Hxa).
  destruct (Hcomp x) as (a' & Ha' & [r Hr]); [by eapply list_elem_of_lookup_2|].
  rewrite Ha' in Hxa. injection Hxa as <-. rewrite Hr. eauto.
Qed.

Lemma make_bundles_spec (app_map : gmap string app_row) aff comps : forall i items,
  make_bundles app_map aff i comps = Ok items ->
  Forall2 (fun comp b => exists j, make_bundle app_map aff j comp = Ok b) comps items.
Proof.
  induction comps as [|comp comps IH]; intros i items; simpl.
  - intros [= <-]. constructor.
  - intros (b & Hb & (bs & Hbs & [= <-])%bind_Ok)%bind_Ok. constructor; eauto.
Qed.

Lemma make_bundles_total (app_map : gmap string app_row) aff comps : forall i,
  (forall comp j, comp ∈ comps -> exists b, make_bundle app_map aff j comp = Ok b) ->
  exists items, make_bundles app_map aff i comps = Ok items.
Proof.
  induction comps as [|comp comps IH]; intros i H; simpl; [eauto|].
  destruct (H comp i) as [b ->]; [by left|].
  destruct (IH (S i)) as [bs ->]; [intros; apply H; by right|]. simpl. eauto.
Qed.

(** Order of ids. *)
Lemma ltb_irrefl x : String.ltb x x = false.
Proof.
  unfold String.ltb. pose proof (String.compare_antisym x x) as H.
  by destruct (String.compare x x).
Qed.

Lemma ltb_trichotomy x y :
  x <> y ->
  (String.ltb x y = true /\ String.ltb y x = false) \/
  (String.ltb x y = false /\ String.ltb y x = true).
Proof.
  intros Hne. unfold String.ltb. rewrite (String.compare_antisym y x).
  destruct (String.compare x y) eqn:Hc; simpl; auto.
  by apply String.compare_eq_iff in Hc.
Qed.

Lemma pair_key_sym x y : x <> y -> pair_key x y = pair_key y x.
Proof.
  intros Hne. unfold pair_key.
  by destruct (ltb_trichotomy x y Hne) as [[-> ->]|[-> ->]].
Qed.

Lemma Zsum_app l1 l2 : Zsum (l1 ++ l2) = Zsum l1 + Zsum l2.
Proof. induction l1 as [|x l1 IH]; simpl; lia. Qed.

(** Pairs of a member [x] with the members of [l] that come after it in
    the order of ids, and pairs of the members of [l] that come before
    it with [x]. *)
Lemma pairs_above_below aff x l :
  x ∉ l ->
  Zsum (map (fun p => default 0 (aff !! p)) (map (pair_key x) (List.filter (String.ltb x) l)))
  + Zsum (map (fun p => default 0 (aff !! p))
            (flat_map (fun a => map (pair_key a) (List.filter (String.ltb a) [x])) l))
  = Zsum (map (fun y => aff_get aff (pair_key x y)) l).
Proof.
  induction l as [|y l IH]; intros Hx; [done|].
  apply not_elem_of_cons in Hx as [Hne Hx]. specialize (IH Hx).
  assert (Hfm : forall (f : string -> list (string * string)) a l',
            flat_map f (a :: l') = f a ++ flat_map f l') by reflexivity.
  assert (Hfc : forall (f : string -> bool) a l',
            List.filter f (a :: l') = if f a then a :: List.filter f l' else List.filter f l')
    by reflexivity.
  assert (Hfn : forall f : string -> bool, List.filter f [] = []) by reflexivity.
  rewrite Hfm, !Hfc, map_app, Zsum_app.
  destruct (ltb_trichotomy x y Hne) as [[-> ->]|[-> ->]];
    rewrite ?Hfn; cbn [map Zsum app fold_right];
    unfold aff_get in *; rewrite <- ?(pair_key_sym x y Hne); unfold Zsum in *; lia.
Qed.

Lemma internal_pairs_cons aff x l :
  bundle_affinity aff (x :: l)
  = Zsum (map (fun p => default 0 (aff !! p)) (map (pair_key x) (List.filter (String.ltb x) l)))
    + Zsum (map (fun p => default 0 (aff !! p))
              (flat_map (fun a => map (pair_key a) (List.filter (String.ltb a) [x])) l))
    + bundle_affinity aff l.
Proof.
  assert (Hfm : forall (f : string -> list (string * string)) a l',
            flat_map f (a :: l') = f a ++ flat_map f l') by reflexivity.
  assert (Hfc : forall (f : string -> bool) a l',
            List.filter f (a :: l') = if f a then a :: List.filter f l' else List.filter f l')
    by reflexivity.
  unfold bundle_affinity, internal_pairs.
  rewrite Hfm, Hfc, ltb_irrefl, map_app, Zsum_app.
  assert (Hrest : forall l',
    Zsum (map (fun p => default 0 (aff !! p))
            (flat_map (fun a => map (pair_key a) (List.filter (String.ltb a) (x :: l))) l'))
    = Zsum (map (fun p => default 0 (aff !! p))
              (flat_map (fun a => map (pair_key a) (List.filter (String.ltb a) [x])) l'))
      + Zsum (map (fun p => default 0 (aff !! p))
                (flat_map (fun a => map (pair_key a) (List.filter (String.ltb a) l)) l'))).
  { induction l' as [|a l' IH]; [done|].
    rewrite !Hfm, !map_app, !Zsum_app, IH, !(Hfc (String.ltb a) x).
    change (List.filter (String.ltb a) []) with (@nil string).
    destruct (String.ltb a x); cbn [map app Zsum fold_right]; unfold Zsum; lia. }
  rewrite Hrest. lia.
Qed.

(** On a component without repetition, the sum the code computes over
    the pairs [a < b] of ids is the sum over the positions [i < j]. *)
Lemma bundle_affinity_pairwise aff comp :
  NoDup comp -> bundle_affinity aff comp = pairwise_affinity aff comp.
Proof.
  induction comp as [|x l IH]; intros Hnd; [done|].
  apply NoDup_cons in Hnd as [Hx Hnd].
  rewrite internal_pairs_cons, (pairs_above_below aff x l Hx), (IH Hnd). done.
Qed.

End Assembling.

(** ** Bundles: the whole view *)

Section BundleFacts.
Import Assessment.

Variable json_loads : string -> option pyval.
Variable py_repr : pyval -> string.
Variable set_iter : string -> gset string -> list string.

Local Abbreviation extract := (_extract_integration_model json_loads py_repr).
Local Abbreviation bundles_of := (bundles json_loads py_repr set_iter).
Local Abbreviation graph_of := (build_graph json_loads py_repr).

Lemma app_map_id (all : list app_row) k a :
  fold_left (fun m a => <[id a := a]> m) all (∅ : gmap string app_row) !! k = Some a ->
  a ∈ all /\ id a = k.
Proof. intros [H|H]%app_map_lookup; [done|]. by rewrite lookup_empty in H. Qed.

(** The steps of [bundles], named. *)
Lemma bundles_unfold all items :
  bundles_of all = Ok items ->
  exists g comps,
    graph_of all = Ok g /\
    (all <> [] -> components_of set_iter (dict_keys (map id all)) (neighbors g) = Ok comps) /\
    (all = [] -> comps = []) /\
    Forall2 (bundle_of (affinity g)) (sort_by_len_desc comps) items.
Proof.
  destruct all as [|a0 rest].
  { intros [= <-]. exists (Graph ∅ ∅), []. repeat split; done. }
  unfold bundles. set (all := a0 :: rest).
  intros (g & Hg & (comps & Hc & Hitems)%bind_Ok)%bind_Ok.
  exists g, comps. split; [done|]. split; [done|]. split; [done|].
  apply make_bundles_spec in Hitems.
  eapply Forall2_impl; [exact Hitems|]. simpl. intros comp b [j Hb].
  apply make_bundle_spec in Hb as (H1 & _ & H2 & H3); [by repeat split|].
  intros k a Hk. exact (proj2 (app_map_id all k a Hk)).
Qed.

Section WithOrder.
Hypothesis set_iter_elem : forall k s x, x ∈ set_iter k s <-> x ∈ s.

Lemma components_of_graph all g :
  graph_ok (list_to_set (map id all)) g ->
  exists comps,
    components_of set_iter (dict_keys (map id all)) (neighbors g) = Ok comps /\
    NoDup (concat comps) /\
    (forall x, x ∈ concat comps <-> x ∈ map id all) /\
    (forall x y, x ∈ map id all -> y ∈ nbrs (neighbors g) x ->
       exists c, c ∈ comps /\ x ∈ c /\ y ∈ c) /\
    Forall (fun c => c <> []) comps.
Proof.
  intros [[Hdom Hadj] _].
  destruct (dict_keys_spec (map id all)) as [Hnd Hkeys].
  destruct (components_of_spec set_iter set_iter_elem (neighbors g)
              (list_to_set (map id all)) Hdom Hadj (dict_keys (map id all)))
    as (comps & Hrun & H1 & H2 & H3 & H4); [done| |].
  { intros k. by rewrite Hkeys, elem_of_list_to_set. }
  exists comps. split; [done|]. split; [done|]. split; [|split; [|done]].
  - intros x. by rewrite H2, elem_of_list_to_set.
  - intros x y Hx. apply H3. by apply elem_of_list_to_set.
Qed.

(** What a run of [bundles] that returns has computed. *)
Lemma bundles_run all items :
  bundles_of all = Ok items ->
  exists g comps,
    graph_of all = Ok g /\
    NoDup (concat comps) /\
    (forall x, x ∈ concat comps <-> x ∈ map id all) /\
    (forall x y, x ∈ map id all -> y ∈ nbrs (neighbors g) x ->
       exists c, c ∈ comps /\ x ∈ c /\ y ∈ c) /\
    Forall2 (bundle_of (affinity g)) (sort_by_len_desc comps) items.
Proof.
  intros (g & comps & Hg & Hc & Hnil & Hitems)%bundles_unfold.
  exists g, comps. split; [done|].
  destruct (decide (all = [])) as [->|Hne].
  - rewrite (Hnil eq_refl) in *. simpl. split; [constructor|]. split; [done|].
    split; [|done]. by intros x y ?%elem_of_nil.
  - destruct (components_of_graph all g) as (comps' & Hc' & H1 & H2 & H3 & _).
    { by eapply build_graph_ok. }
    rewrite (Hc Hne) in Hc'. injection Hc' as <-. auto.
Qed.

(** [bundles] returns when the findings of every application can be
    extracted and no risk score is [NULL]; it never runs out of fuel. *)
Lemma bundles_total all :
  (forall app, app ∈ all ->
     is_ok (extract (findings_json app)) = true /\ is_Some (risk_score app)) ->
  exists items, bundles_of all = Ok items.
Proof.
  intros Hall. destruct all as [|a0 rest]; [by exists []|].
  unfold bundles. set (all := a0 :: rest) in *.
  destruct (build_graph_total json_loads py_repr all) as [g Hg];
    [intros app Happ; by apply Hall|].
  rewrite Hg. cbn [mbind result_bind].
  destruct (components_of_graph all g) as (comps & -> & Hnd & Hmem & _ & Hne);
    [by eapply build_graph_ok|].
  cbn [mbind result_bind]. apply make_bundles_total.
  intros comp j Hcomp. rewrite sort_by_len_desc_perm in Hcomp.
  apply make_bundle_total.
  - rewrite Forall_forall in Hne. by apply Hne.
  - intros x Hx.
    assert (Hxid : x ∈ map id all) by (apply Hmem, elem_of_concat; eauto).
    destruct (proj2 (app_map_is_Some all ∅ x)) as [a Ha]; [by left|].
    exists a. split; [done|]. apply app_map_id in Ha as [Ha _]. by apply Hall.
Qed.

Lemma bundle_ids_are_components g comps items :
  Forall2 (bundle_of (affinity g)) (sort_by_len_desc comps) items ->
  map app_ids items ≡ₚ comps.
Proof.
  intros H. rewrite <- (sort_by_len_desc_perm comps).
  induction H as [|c b cs bs [Hb _] _ IH]; simpl; [done|]. by rewrite Hb, IH.
Qed.

(** A bundle of exactly two members that are linked with affinity at
    least 4 is tight. *)
Lemma two_member_bundle_tight aff c bd x y :
  bundle_of aff c bd -> NoDup c -> length c = 2%nat ->
  x ∈ c -> y ∈ c -> x <> y -> 4 <= aff_get aff (pair_key x y) ->
  bundle_coupling bd = "tight".
Proof.
  intros (_ & _ & ->) Hnd Hlen Hx Hy Hne Haff.
  rewrite (bundle_affinity_pairwise aff c Hnd), Hlen.
  destruct c as [|u [|v [|? ?]]]; try discriminate. simpl.
  assert (Huv : aff_get aff (pair_key u v) = aff_get aff (pair_key x y)).
  { apply NoDup_cons in Hnd as [Hu _]. rewrite list_elem_of_singleton in Hu.
    rewrite !elem_of_cons, elem_of_nil in Hx, Hy.
    destruct Hx as [->|[->|[]]], Hy as [->|[->|[]]]; try done.
    by rewrite pair_key_sym. }
  rewrite Huv. destruct (Z.leb_spec (Z.max 4 (Z.of_nat 2 * 2))
                           (aff_get aff (pair_key x y) + 0 + (0 + 0))); [done|lia].
Qed.

End WithOrder.

End BundleFacts.

(** C1: the bundles of a run partition its applications: the member-id
    lists of the bundles, put end to end, hold every application id of
    the run and nothing else, and hold no id twice; so every id is in the
    list of exactly one bundle.  The view returns them whenever the
    findings of every application can be extracted and no risk score is
    [NULL]. *)
Theorem bundles_partition_apps :
  forall (json_loads : string -> option pyval) (py_repr : pyval -> string)
         (set_iter : string -> gset string -> list string) (all : list Assessment.app_row),
    (forall k s x, x ∈ set_iter k s <-> x ∈ s) ->
    ((forall app, app ∈ all ->
        is_ok (Assessment._extract_integration_model json_loads py_repr
                 (Assessment.findings_json app)) = true /\
        is_Some (Assessment.risk_score app)) ->
     exists items, Assessment.bundles json_loads py_repr set_iter all = Ok items) /\
    forall items,
      Assessment.bundles json_loads py_repr set_iter all = Ok items ->
      NoDup (concat (map Assessment.app_ids items)) /\
      (forall x, x ∈ concat (map Assessment.app_ids items) <-> x ∈ map Assessment.id all) /\
      (forall x, x ∈ map Assessment.id all ->
         exists i b,
           items !! i = Some b /\ x ∈ Assessment.app_ids b /\
           forall j b', items !! j = Some b' -> x ∈ Assessment.app_ids b' -> j = i).
Proof.
  intros json_loads py_repr set_iter all Hiter. split; [by apply bundles_total|].
  intros items Hrun.
  destruct (bundles_run _ _ _ Hiter _ _ Hrun) as (g & comps & _ & Hnd & Hmem & _ & Hitems).
  apply bundle_ids_are_components in Hitems.
  apply concat_perm in Hitems.
  assert (Hnd' : NoDup (concat (map Assessment.app_ids items))) by by rewrite Hitems.
  assert (Hmem' : forall x,
    x ∈ concat (map Assessment.app_ids items) <-> x ∈ map Assessment.id all).
  { intros x. by rewrite Hitems. }
  split; [done|]. split; [done|].
  intros x Hx. apply Hmem', elem_of_concat in Hx as (l & Hl & Hxl).
  apply list_elem_of_lookup in Hl as [i Hi].
  rewrite list_lookup_fmap in Hi.
  destruct (items !! i) as [b|] eqn:Hb; [|done]. injection Hi as <-.
  exists i, b. split; [done|]. split; [done|].
  intros j b' Hj Hxb'. symmetry.
  eapply (concat_unique_index (map Assessment.app_ids items) x Hnd' i j);
    [by rewrite list_lookup_fmap, Hb|by rewrite list_lookup_fmap, Hj|done|done].
Qed.

Lemma bundles_partition_apps_witness :
  let all := [Samples.app_A; Samples.app_B] in
  let items := Samples.two_app_bundles in
  Assessment.bundles Samples.no_json Samples.no_repr Samples.set_order all = Ok items /\
  NoDup (concat (map Assessment.app_ids items)) /\
  (forall x, x ∈ concat (map Assessment.app_ids items) <-> x ∈ map Assessment.id all) /\
  (forall x, x ∈ map Assessment.id all ->
     exists i b,
       items !! i = Some b /\ x ∈ Assessment.app_ids b /\
       forall j b', items !! j = Some b' -> x ∈ Assessment.app_ids b' -> j = i).
Proof.
  split; [by vm_compute|].
  apply (bundles_partition_apps Samples.no_json Samples.no_repr Samples.set_order
           [Samples.app_A; Samples.app_B]).
  - intros k s x. apply elem_of_elements.
  - by vm_compute.
Defined.

(** C2: a bundle is labelled ["tight"] exactly when the sum of the
    pairwise affinities over its internal pairs (positions [i < j] of the
    component) is at least max(4, 2 x component size), also when the two
    are equal; otherwise the label is ["loose"]. *)
Theorem bundle_tight_iff_threshold :
  forall (json_loads : string -> option pyval) (py_repr : pyval -> string)
         (set_iter : string -> gset string -> list string)
         (all : list Assessment.app_row) items,
    (forall k s x, x ∈ set_iter k s <-> x ∈ s) ->
    Assessment.bundles json_loads py_repr set_iter all = Ok items ->
    exists g,
      Assessment.build_graph json_loads py_repr all = Ok g /\
      forall b, b ∈ items ->
        let size := Z.of_nat (length (Assessment.app_ids b)) in
        Assessment.affinity_score b
          = pairwise_affinity (Assessment.affinity g) (Assessment.app_ids b) /\
        (Assessment.bundle_coupling b = "tight" <->
           Z.max 4 (2 * size) <= Assessment.affinity_score b) /\
        (Assessment.affinity_score b = Z.max 4 (2 * size) ->
           Assessment.bundle_coupling b = "tight") /\
        (Assessment.bundle_coupling b <> "tight" -> Assessment.bundle_coupling b = "loose").
Proof.
  intros json_loads py_repr set_iter all items Hiter Hrun.
  destruct (bundles_run _ _ _ Hiter _ _ Hrun) as (g & comps & Hg & Hnd & _ & _ & Hitems).
  exists g. split; [done|]. intros b Hb size.
  apply list_elem_of_lookup in Hb as [i Hi].
  destruct (Forall2_lookup_r _ _ _ _ _ Hitems Hi) as (c & Hc & Hids & Haff & Hcpl).
  assert (Hcnd : NoDup c).
  { apply (NoDup_concat_elem comps); [done|].
    rewrite <- (sort_by_len_desc_perm comps). by eapply list_elem_of_lookup_2. }
  subst size. rewrite Hids, Haff, Hcpl.
  rewrite (bundle_affinity_pairwise _ c Hcnd).
  replace (Z.of_nat (length c) * 2) with (2 * Z.of_nat (length c)) by lia.
  destruct (Z.leb_spec (Z.max 4 (2 * Z.of_nat (length c)))
              (pairwise_affinity (Assessment.affinity g) c)) as [Hle|Hlt].
  - split; [done|]. split; [done|]. split; [done|]. by intros [].
  - split; [done|]. split; [split; [done|lia]|]. split; [lia|done].
Qed.

Lemma bundle_tight_iff_threshold_witness :
  exists g,
    Assessment.build_graph Samples.no_json Samples.no_repr [Samples.app_A; Samples.app_B]
      = Ok g /\
    forall b, b ∈ Samples.two_app_bundles ->
      let size := Z.of_nat (length (Assessment.app_ids b)) in
      Assessment.affinity_score b
        = pairwise_affinity (Assessment.affinity g) (Assessment.app_ids b) /\
      (Assessment.bundle_coupling b = "tight" <->
         Z.max 4 (2 * size) <= Assessment.affinity_score b) /\
      (Assessment.affinity_score b = Z.max 4 (2 * size) ->
         Assessment.bundle_coupling b = "tight") /\
      (Assessment.bundle_coupling b <> "tight" -> Assessment.bundle_coupling b = "loose").
Proof.
  apply (bundle_tight_iff_threshold Samples.no_json Samples.no_repr Samples.set_order
           [Samples.app_A; Samples.app_B]).
  - intros k s x. apply elem_of_elements.
  - by vm_compute.
Defined.

(** C3: two distinct applications of the run, one with a tight db_link
    to a datastore and the other with any db_link to the same datastore,
    are joined by an edge of the coupling graph whose affinity is at
    least 4, and are members of one bundle; when that bundle has just
    these two members it is labelled ["tight"]. *)
Theorem shared_tight_db_same_bundle :
  forall (json_loads : string -> option pyval) (py_repr : pyval -> string)
         (set_iter : string -> gset string -> list string)
         (all : list Assessment.app_row) items a b ma mb dla dlb,
    (forall k s x, x ∈ set_iter k s <-> x ∈ s) ->
    Assessment.bundles json_loads py_repr set_iter all = Ok items ->
    a ∈ all -> b ∈ all -> Assessment.id a <> Assessment.id b ->
    Assessment._extract_integration_model json_loads py_repr (Assessment.findings_json a)
      = Ok ma ->
    Assessment._extract_integration_model json_loads py_repr (Assessment.findings_json b)
      = Ok mb ->
    dla ∈ Assessment.db_links ma -> Assessment.db_coupling dla = "tight" ->
    dlb ∈ Assessment.db_links mb ->
    Assessment.datastore dla = Assessment.datastore dlb ->
    exists g bd,
      Assessment.build_graph json_loads py_repr all = Ok g /\
      Assessment.id b ∈ nbrs (Assessment.neighbors g) (Assessment.id a) /\
      Assessment.id a ∈ nbrs (Assessment.neighbors g) (Assessment.id b) /\
      4 <= aff_get (Assessment.affinity g)
             (Assessment.pair_key (Assessment.id a) (Assessment.id b)) /\
      bd ∈ items /\
      Assessment.id a ∈ Assessment.app_ids bd /\
      Assessment.id b ∈ Assessment.app_ids bd /\
      (length (Assessment.app_ids bd) = 2%nat -> Assessment.bundle_coupling bd = "tight") /\
      ((forall x, x ∈ map Assessment.id all -> x = Assessment.id a \/ x = Assessment.id b) ->
       Assessment.bundle_coupling bd = "tight").
Proof.
  intros json_loads py_repr set_iter all items a b ma mb dla dlb
    Hiter Hrun Ha Hb Hne Hma Hmb Hdla Htight Hdlb Hsame.
  destruct (bundles_run _ _ _ Hiter _ _ Hrun) as (g & comps & Hg & Hnd & Hmem & Hcomp & Hitems).
  destruct (shared_tight_db_adjacent _ _ _ _ _ _ _ _ _ _ Hg Ha Hb Hne Hma Hmb Hdla Htight Hdlb Hsame)
    as [Hadj Haff].
  assert (Hsym : Assessment.id a ∈ nbrs (Assessment.neighbors g) (Assessment.id b)).
  { destruct (build_graph_ok _ _ _ _ Hg) as [[_ Hwf] _]. by apply Hwf in Hadj as [_ ?]. }
  destruct (Hcomp (Assessment.id a) (Assessment.id b)) as (c & Hc & Hac & Hbc);
    [by apply list_elem_of_fmap_2|done|].
  assert (Hcnd : NoDup c) by by apply (NoDup_concat_elem comps).
  rewrite <- (sort_by_len_desc_perm comps) in Hc.
  apply list_elem_of_lookup in Hc as [i Hi].
  destruct (Forall2_lookup_l _ _ _ _ _ Hitems Hi) as (bd & Hbd & Hof).
  exists g, bd. split; [done|]. split; [done|]. split; [done|]. split; [done|].
  split; [by eapply list_elem_of_lookup_2|].
  pose proof Hof as (Hids & _). rewrite Hids.
  split; [done|]. split; [done|].
  assert (Htwo : length c = 2%nat -> Assessment.bundle_coupling bd = "tight").
  { intros Hlen.
    by eapply (two_member_bundle_tight _ c bd (Assessment.id a) (Assessment.id b)). }
  split; [done|]. intros Honly. apply Htwo.
  assert (Hperm : c ≡ₚ [Assessment.id a; Assessment.id b]).
  { apply NoDup_Permutation; [done| |].
    - apply NoDup_cons. split; [by rewrite list_elem_of_singleton|apply NoDup_singleton].
    - intros x. rewrite !elem_of_cons, elem_of_nil. split.
      + intros Hx. destruct (Honly x) as [-> | ->]; auto.
        apply Hmem, elem_of_concat. exists c. split; [|done].
        rewrite <- (sort_by_len_desc_perm comps). by eapply list_elem_of_lookup_2.
      + intros [->|[->|Hf]]; [done|done|destruct Hf]. }
  by rewrite Hperm.
Qed.

Lemma shared_tight_db_same_bundle_witness :
  exists g bd,
    Assessment.build_graph Samples.no_json Samples.no_repr [Samples.app_A; Samples.app_B]
      = Ok g /\
    "B" ∈ nbrs (Assessment.neighbors g) "A" /\
    "A" ∈ nbrs (Assessment.neighbors g) "B" /\
    4 <= aff_get (Assessment.affinity g) (Assessment.pair_key "A" "B") /\
    bd ∈ Samples.two_app_bundles /\
    "A" ∈ Assessment.app_ids bd /\
    "B" ∈ Assessment.app_ids bd /\
    (length (Assessment.app_ids bd) = 2%nat -> Assessment.bundle_coupling bd = "tight") /\
    ((forall x, x ∈ map Assessment.id [Samples.app_A; Samples.app_B] -> x = "A" \/ x = "B") ->
     Assessment.bundle_coupling bd = "tight").
Proof.
  apply (shared_tight_db_same_bundle Samples.no_json Samples.no_repr Samples.set_order
           [Samples.app_A; Samples.app_B] Samples.two_app_bundles
           Samples.app_A Samples.app_B
           (Assessment.IntegrationModel [] [Assessment.DbLink "postgres" "tight"] [])
           (Assessment.IntegrationModel [] [Assessment.DbLink "postgres" "tight"] [])
           (Assessment.DbLink "postgres" "tight") (Assessment.DbLink "postgres" "tight")).
  - intros k s x. apply elem_of_elements.
  - by vm_compute.
  - by left.
  - right. by left.
  - discriminate.
  - reflexivity.
  - reflexivity.
  - by left.
  - reflexivity.
  - by left.
  - reflexivity.
Defined.

(** The scenario of C3 run on [Samples.app_A] and [Samples.app_B]: one
    bundle, holding both, labelled tight, of affinity 4. *)
Example two_postgres_apps_one_tight_bundle :
  map (fun b => (Assessment.bundle_id b, Assessment.app_ids b,
                 Assessment.bundle_coupling b, Assessment.affinity_score b))
      Samples.two_app_bundles
  = [("BUNDLE-001", ["A"; "B"], "tight", 4)].
Proof. reflexivity. Qed.

(** ** The classifier on the scenarios of the specification *)

(** A content sample naming [manifest.yml] and [cloudfoundry], and no
    file: pattern P4 with a positive confidence. *)
Example pcf_sample_is_P4 :
  let r := Classifier.classify_repo Samples.re_search [] "manifest.yml cloudfoundry" in
  Classifier.pattern_id r = Classifier.P4 /\ Classifier.gcp_target r = "GKE" /\
  0 < Classifier.confidence r /\
  Classifier.signals_hit r
    = ["P4:manifest\.yml|cf.?manifest"; "P4:buildpack|cloudfoundry|pcf"].
Proof. by vm_compute. Qed.

(** No file and an empty content sample: P1, confidence 0.15, risk 4.0,
    complexity low (the empty text splits into one line). *)
Example empty_sample_is_P1 :
  let r := Classifier.classify_repo Samples.re_search [] "" in
  Classifier.pattern_id r = Classifier.P1 /\ Classifier.confidence r = 15 /\
  Classifier.risk_score r = 400 /\ Classifier.complexity r = Classifier.low /\
  Classifier.signals_hit r = [].
Proof. by vm_compute. Qed.

(** ** Dependency graph: nodes and edges *)

Section GraphShape.
Import Assessment.

Variable json_loads : string -> option pyval.
Variable py_repr : pyval -> string.

Local Abbreviation extract := (_extract_integration_model json_loads py_repr).
Local Abbreviation graph_of := (dependency_graph json_loads py_repr).



Lemma extract_ok_or_type_error findings :
  (exists model, extract findings = Ok model) \/ extract findings = Raise TypeError.
Proof.
  unfold _extract_integration_model.
  generalize (Acc [] [] []).
  induction (_parse_findings json_loads findings) as [|item items IH]; intros a; simpl.
  - left. eauto.
  - destruct (well_shaped py_repr item) eqn:Hw.
    + destruct (extract_item_ok py_repr a item Hw) as [a' ->]. simpl. apply IH.
    + rewrite (extract_item_raises py_repr a item Hw). by right.
Qed.

Lemma extractable_ok app :
  is_ok (extract (findings_json app)) = extractable json_loads py_repr app.
Proof. apply extract_total_iff. Qed.





Lemma graph_app_outcome ids st app :
  match graph_app json_loads py_repr ids st app with
  | Ok _ => extractable json_loads py_repr app = true
  | Raise e => e = TypeError /\ extractable json_loads py_repr app = false
  | OutOfFuel => False
  end.
Proof.
  destruct st as [nodes edges]. unfold graph_app.
  rewrite <- extractable_ok.
  destruct (extract_ok_or_type_error (findings_json app)) as [[m ->]| ->]; simpl; done.
Qed.

Lemma graph_outcome ids apps : forall st,
  match for_each apps (graph_app json_loads py_repr ids) st with
  | Ok _ => forallb (extractable json_loads py_repr) apps = true
  | Raise e => e = TypeError /\ forallb (extractable json_loads py_repr) apps = false
  | OutOfFuel => False
  end.
Proof.
  induction apps as [|app apps IH]; intros st; simpl; [done|].
  pose proof (graph_app_outcome ids st app) as Happ.
  destruct (graph_app json_loads py_repr ids st app) as [st1|e|]; simpl.
  - rewrite Happ. simpl. apply IH.
  - destruct Happ as [-> ->]. done.
  - done.
Qed.

Lemma graph_edges_run ids apps : forall st st',
  for_each apps (graph_app json_loads py_repr ids) st = Ok st' ->
  snd st' = snd st ++ flat_map (app_edges json_loads py_repr ids) apps.
Proof.
  induction apps as [|app apps IH]; intros st st' Hrun; simpl in *.
  - injection Hrun as <-. by rewrite app_nil_r.
  - apply bind_Ok in Hrun as (st1 & H1 & H2).
    rewrite (IH _ _ H2).
    destruct (graph_app_edges json_loads py_repr ids st app st1 H1) as (model & Hm & ->).
    unfold app_edges. rewrite Hm. by rewrite <- app_assoc.
Qed.

End GraphShape.



(** X2: The dependency graph is returned exactly when the integration model of every application of the run can be extracted; otherwise the request fails with a TypeError.  When it is returned, its edges are, application by application in row order, the migrates_to edge, then the calls edges of the application links in order, then the reads_writes edges of the datastore links in order. *)
Theorem graph_fails_exactly_on_unextractable_findings :
  forall (json_loads : string -> option pyval) (py_repr : pyval -> string) apps,
    match Assessment.dependency_graph json_loads py_repr apps with
    | Ok (nodes, edges) =>
        forallb (extractable json_loads py_repr) apps = true /\
        edges = flat_map (app_edges json_loads py_repr
                            (list_to_set (map Assessment.id apps))) apps
    | Raise e => e = TypeError /\ forallb (extractable json_loads py_repr) apps = false
    | OutOfFuel => False
    end.
Proof.
  intros jl pr apps. unfold Assessment.dependency_graph.
  pose proof (graph_outcome jl pr (list_to_set (map Assessment.id apps)) apps ([], [])) as H.
  pose proof (graph_edges_run jl pr (list_to_set (map Assessment.id apps)) apps ([], [])) as He.
  destruct (for_each apps _ _) as [[nodes edges]|e|]; [|done|done].
  split; [done|]. exact (He _ eq_refl).
Qed.

(** ** Bundles: where adjacency and affinity come from *)

Section LinkOrigin.
Import Assessment.

Variable json_loads : string -> option pyval.
Variable py_repr : pyval -> string.

Local Abbreviation extract := (_extract_integration_model json_loads py_repr).

Lemma add_neighbor_nbrs x y nb nb' :
  add_neighbor x y nb = Ok nb' ->
  forall z, nbrs nb' z = if decide (z = x) then nbrs nb x ∪ {[y]} else nbrs nb z.
Proof.
  unfold add_neighbor. destruct (nb !! x) as [s|] eqn:Hx; [|done]. intros [= <-] z.
  unfold nbrs. case_decide as Hz.
  - subst z. by rewrite lookup_insert_eq, Hx.
  - by rewrite lookup_insert_ne.
Qed.

Lemma link_pair_inv a b w g g' :
  link_pair a b w g = Ok g' ->
  (forall z u, u ∈ nbrs (neighbors g') z ->
     u ∈ nbrs (neighbors g) z \/ (z = a /\ u = b) \/ (z = b /\ u = a)) /\
  (forall key, aff_get (affinity g') key =
     if decide (key = pair_key a b) then Z.max (aff_get (affinity g) key) w
     else aff_get (affinity g) key).
Proof.
  unfold link_pair.
  intros (nb1 & H1 & (nb2 & H2 & [= <-])%bind_Ok)%bind_Ok. simpl. split.
  - intros z u. rewrite (add_neighbor_nbrs _ _ _ _ H2 z).
    case_decide as Hz.
    + subst z. rewrite (add_neighbor_nbrs _ _ _ _ H1 b).
      case_decide as Hba; set_solver.
    + rewrite (add_neighbor_nbrs _ _ _ _ H1 z). case_decide; set_solver.
  - intros key. unfold aff_get. case_decide as Hk.
    + subst key. by rewrite lookup_insert_eq.
    + by rewrite lookup_insert_ne.
Qed.

Lemma link_pair_links_inv all a b w g g' :
  0 < w ->
  linked json_loads py_repr all a b w ->
  links_inv json_loads py_repr all g ->
  link_pair a b w g = Ok g' ->
  links_inv json_loads py_repr all g'.
Proof.
  intros Hw Hl [Hadj Haff] Hrun.
  destruct (link_pair_inv _ _ _ _ _ Hrun) as [Hn Ha]. split.
  - intros x y Hy. destruct (Hn x y Hy) as [H|[[-> ->]|[-> ->]]]; [by apply Hadj|eauto|].
    exists w. destruct Hl as (r & Hr & [H|H]); exists r; split; auto.
  - intros key. rewrite Ha. case_decide as Hk; [|apply Haff].
    destruct (Z.max_spec (aff_get (affinity g) key) w) as [[_ ->]|[Hge ->]].
    + right. exists a, b. done.
    + destruct (Haff key) as [H0|H]; [lia|done].
Qed.

Section Run.
Variable all : list app_row.

Local Abbreviation app_map :=
  (fold_left (fun m a => <[id a := a]> m) all ∅ : gmap string app_row).
Local Abbreviation inv := (links_inv json_loads py_repr all).

Lemma bundle_app_link_origin app m link g g' :
  app ∈ all -> extract (findings_json app) = Ok m -> link ∈ app_links m ->
  inv g -> bundle_app_link app_map app g link = Ok g' -> inv g'.
Proof.
  intros Happ Hm Hlink Hinv. unfold bundle_app_link.
  destruct (app_map !! target link) as [t|] eqn:Ht; [|by intros [= <-]].
  apply link_pair_links_inv; [by destruct (String.eqb _ _)| |done].
  exists app. split; [done|]. left. split; [done|].
  exists m. split; [done|]. left. split.
  - assert (Hs : is_Some (app_map !! target link)) by eauto.
    apply app_map_is_Some in Hs as [?|[? Hs]]; [done|]. by rewrite lookup_empty in Hs.
  - exists link. done.
Qed.

Lemma bundle_other_origin app m dl other g g' :
  app ∈ all -> extract (findings_json app) = Ok m -> dl ∈ db_links m ->
  db_coupling dl = "tight" -> other ∈ all ->
  inv g -> bundle_other json_loads py_repr app dl g other = Ok g' -> inv g'.
Proof.
  intros Happ Hm Hdl Ht Hother Hinv. unfold bundle_other.
  destruct (String.eqb (id other) (id app)) eqn:Hne; [by intros [= <-]|].
  apply eqb_false_ne in Hne.
  intros (mo & Hmo & Hrun)%bind_Ok.
  case_decide as Hin; [|by injection Hrun as <-].
  revert Hrun. apply link_pair_links_inv; [lia| |done].
  exists app. split; [done|]. left. split; [done|].
  exists m. split; [done|]. right. exists dl, other, mo.
  repeat split; try done. by apply elem_of_list_to_set in Hin.
Qed.

Lemma bundle_app_origin app g g' :
  app ∈ all -> inv g ->
  bundle_app json_loads py_repr all app_map g app = Ok g' -> inv g'.
Proof.
  intros Happ Hinv. unfold bundle_app.
  intros (m & Hm & (g1 & H1 & H2)%bind_Ok)%bind_Ok.
  assert (Hinv1 : inv g1).
  { refine (for_each_inv inv _ _ _ _ _ Hinv H1).
    intros s link s' Hlink Hs Hb.
    exact (bundle_app_link_origin app m link s s' Happ Hm Hlink Hs Hb). }
  refine (for_each_inv inv _ _ _ _ _ Hinv1 H2).
  intros s dl s' Hdl Hs. unfold bundle_db_link.
  destruct (String.eqb (db_coupling dl) "tight") eqn:Ht; [|by intros [= <-]].
  apply String.eqb_eq in Ht. intros Hb.
  refine (for_each_inv inv _ _ _ _ _ Hs Hb).
  intros t other t' Hother Hti Hbo.
  exact (bundle_other_origin app m dl other t t' Happ Hm Hdl Ht Hother Hti Hbo).
Qed.

Lemma build_graph_origin g :
  build_graph json_loads py_repr all = Ok g -> inv g.
Proof.
  unfold build_graph. intros Hrun.
  refine (for_each_inv inv _ _ _ _ _ _ Hrun).
  - intros s app s' Happ Hs Hb. by eapply bundle_app_origin.
  - split.
    + intros x y. unfold nbrs. simpl. rewrite neighbors0_lookup.
      case_decide; simpl; [set_solver|]. rewrite lookup_empty. set_solver.
    + intros key. left. unfold aff_get. simpl. by rewrite lookup_empty.
Qed.

Lemma linked_weight x y w :
  linked json_loads py_repr all x y w -> w = 1 \/ w = 3 \/ w = 4.
Proof.
  intros (a & _ & [[_ H]|[_ H]]);
    destruct H as (m & _ & [(_ & link & _ & _ & ->)|(? & ? & ? & H)]);
    try (destruct (String.eqb _ _); auto);
    destruct H as (_ & _ & _ & _ & _ & _ & _ & ->); auto.
Qed.

End Run.

End LinkOrigin.

(** X3: In the graph built by the bundle clusterer, two ids are neighbours only if one of them is an application of the run with a link to the other (a call to it, or a datastore both use); every pairwise affinity is 0, 1, 3 or 4, and a non-zero affinity is the weight of such a link between the two ids of the pair. *)
Theorem affinity_comes_from_links :
  forall (json_loads : string -> option pyval) (py_repr : pyval -> string)
         (all : list Assessment.app_row) g,
    Assessment.build_graph json_loads py_repr all = Ok g ->
    (forall x y, y ∈ nbrs (Assessment.neighbors g) x ->
       exists w, linked json_loads py_repr all x y w) /\
    (forall key,
       let v := aff_get (Assessment.affinity g) key in
       (v = 0 \/ v = 1 \/ v = 3 \/ v = 4) /\
       (v <> 0 -> exists x y, key = Assessment.pair_key x y /\
                              linked json_loads py_repr all x y v)).
Proof.
  intros jl pr all g Hg.
  destruct (build_graph_origin jl pr all g Hg) as [Hadj Haff].
  split; [done|]. intros key v. subst v.
  destruct (Haff key) as [H0|(x & y & Hk & Hl)].
  - split; [by left|done].
  - split; [|eauto]. right. by eapply linked_weight.
Qed.

Lemma affinity_comes_from_links_witness :
  exists g,
    Assessment.build_graph Samples.no_json Samples.no_repr [Samples.app_A; Samples.app_B]
      = Ok g /\
    (forall x y, y ∈ nbrs (Assessment.neighbors g) x ->
       exists w, linked Samples.no_json Samples.no_repr [Samples.app_A; Samples.app_B] x y w) /\
    (forall key,
       let v := aff_get (Assessment.affinity g) key in
       (v = 0 \/ v = 1 \/ v = 3 \/ v = 4) /\
       (v <> 0 -> exists x y, key = Assessment.pair_key x y /\
          linked Samples.no_json Samples.no_repr [Samples.app_A; Samples.app_B] x y v)).
Proof.
  eexists. split; [vm_compute; reflexivity|].
  apply (affinity_comes_from_links Samples.no_json Samples.no_repr
           [Samples.app_A; Samples.app_B]).
  vm_compute. reflexivity.
Defined.

(** ** Bundles: components are connected *)

Section Reach.
Import Assessment.

Variable set_iter : string -> gset string -> list string.
Hypothesis set_iter_elem : forall k s x, x ∈ set_iter k s <-> x ∈ s.
Variable nb : gmap string (gset string).

Lemma dfs_loop_reach r fuel : forall stack comp visited comp' visited',
  dfs_loop set_iter fuel nb stack comp visited = Ok (comp', visited') ->
  (forall x, x ∈ comp ++ stack -> rtc (adj nb) r x) ->
  forall x, x ∈ comp' -> rtc (adj nb) r x.
Proof.
  induction fuel as [|fuel IH]; intros stack comp visited comp' visited' Hrun Hreach.
  - destruct stack as [|cur rest]; simpl in Hrun; [|done].
    injection Hrun as <- <-. intros x Hx. apply Hreach. rewrite app_nil_r. done.
  - destruct stack as [|cur rest]; simpl in Hrun.
    { injection Hrun as <- <-. intros x Hx. apply Hreach. by rewrite app_nil_r. }
    destruct (nb !! cur) as [s|] eqn:Hs; [|done].
    destruct (visit_neighbors_spec set_iter set_iter_elem (set_iter cur s) rest visited)
      as (new & Hfold & _ & Hnew).
    rewrite Hfold in Hrun.
    apply (IH _ _ _ _ _ Hrun). intros x.
    rewrite !elem_of_app, list_elem_of_singleton.
    intros [[Hx| ->]|[Hx|Hx]].
    + apply Hreach. set_solver.
    + apply Hreach. set_solver.
    + apply rtc_r with cur; [apply Hreach; set_solver|].
      apply Hnew in Hx as [Hx _]. apply set_iter_elem in Hx.
      unfold adj, nbrs. by rewrite Hs.
    + apply Hreach. set_solver.
Qed.

Lemma component_step_rooted fuel st app_id st' :
  component_step set_iter fuel nb st app_id = Ok st' ->
  Forall (rooted nb) (snd st) -> Forall (rooted nb) (snd st').
Proof.
  destruct st as [visited comps]. unfold component_step.
  case_decide as Hv; [by intros [= <-]|].
  intros ([comp visited'] & Hrun & [= <-])%bind_Ok Hall. simpl in *.
  apply Forall_app. split; [done|]. apply Forall_singleton.
  exists app_id. apply (dfs_loop_reach app_id _ _ _ _ _ _ Hrun).
  intros x ->%list_elem_of_singleton. done.
Qed.

Lemma components_of_rooted keys comps :
  components_of set_iter keys nb = Ok comps -> Forall (rooted nb) comps.
Proof.
  unfold components_of. intros ([visited comps'] & Hrun & [= <-])%bind_Ok.
  refine (for_each_inv (fun st => Forall (rooted nb) (snd st)) _ _ _ _ _ _ Hrun).
  - intros s x s' _ Hs Hb. by eapply component_step_rooted.
  - constructor.
Qed.

End Reach.

Lemma rtc_sym_rel {A} (R : relation A) x y :
  (forall a b, R a b -> R b a) -> rtc R x y -> rtc R y x.
Proof.
  intros Hsym. induction 1 as [|x y z Hxy _ IH]; [done|].
  eapply rtc_r; [exact IH|]. by apply Hsym.
Qed.

Lemma rtc_impl_rel {A} (R S : relation A) x y :
  (forall a b, R a b -> S a b) -> rtc R x y -> rtc S x y.
Proof.
  intros Himpl. induction 1 as [|x y z Hxy _ IH]; [done|].
  eapply rtc_l; [by apply Himpl|exact IH].
Qed.

(** ** Bundles: order, numbering and dominant pattern *)

Section BundleItems.
Import Assessment.

Lemma insert_by_len_sorted c l :
  StronglySorted len_ge l -> StronglySorted len_ge (insert_by_len c l).
Proof.
  induction l as [|d l IH]; intros Hs; simpl.
  - repeat constructor.
  - apply StronglySorted_inv in Hs as [Hl Hd].
    destruct (Nat.ltb_spec (length c) (length d)).
    + constructor; [by apply IH|].
      rewrite insert_by_len_perm. constructor; [unfold len_ge; lia|done].
    + constructor; [by constructor|]. constructor; [done|].
      eapply Forall_impl; [exact Hd|]. unfold len_ge. simpl. lia.
Qed.

Lemma sort_by_len_desc_sorted l : StronglySorted len_ge (sort_by_len_desc l).
Proof.
  induction l as [|c l IH]; simpl; [constructor|]. by apply insert_by_len_sorted.
Qed.

Lemma StronglySorted_lookup_le {A} (R : relation A) (l : list A) :
  StronglySorted R l ->
  forall i j x y, (i < j)%nat -> l !! i = Some x -> l !! j = Some y -> R x y.
Proof.
  induction 1 as [|a l _ IH Ha]; intros i j x y Hij Hi Hj; [done|].
  destruct j as [|j]; [lia|]. simpl in Hj.
  destruct i as [|i]; simpl in Hi.
  - injection Hi as <-. rewrite Forall_forall in Ha. apply Ha.
    by eapply list_elem_of_lookup_2.
  - eapply IH; [|exact Hi|exact Hj]. lia.
Qed.

Lemma make_bundles_indexed (app_map : gmap string app_row) aff comps : forall i items,
  make_bundles app_map aff i comps = Ok items ->
  length items = length comps /\
  forall n comp, comps !! n = Some comp ->
    exists b, items !! n = Some b /\ make_bundle app_map aff (i + n) comp = Ok b.
Proof.
  induction comps as [|comp comps IH]; intros i items; simpl.
  - intros [= <-]. split; [done|]. intros n c Hn. done.
  - intros (b & Hb & (bs & Hbs & [= <-])%bind_Ok)%bind_Ok.
    destruct (IH _ _ Hbs) as [Hlen Hidx]. split; [simpl; by rewrite Hlen|].
    intros [|n] c Hn; simpl in *.
    + injection Hn as <-. exists b. by rewrite Nat.add_0_r.
    + destruct (Hidx n c Hn) as (b' & Hb' & Hmk). exists b'. split; [done|].
      by replace (i + S n)%nat with (S i + n)%nat by lia.
Qed.

Lemma make_bundle_fields (app_map : gmap string app_row) aff i comp b :
  make_bundle app_map aff i comp = Ok b ->
  bundle_id b = "BUNDLE-" +:+ pad3 i /\
  Forall2 (fun x a => app_map !! x = Some a) comp (apps b) /\
  app_ids b = map id (apps b) /\
  bundle_pattern_id b ∈ map pattern_id (apps b) /\
  (forall m, m ∈ apps b ->
     pattern_count (pattern_id m) (apps b) <= pattern_count (bundle_pattern_id b) (apps b)) /\
  Forall (fun a => is_Some (risk_score a)) (apps b).
Proof.
  unfold make_bundle.
  intros (members & Hmem & (pat & Hpat & (risks & Hrisks & [= <-])%bind_Ok)%bind_Ok)%bind_Ok.
  simpl. apply map_result_Forall2 in Hmem.
  split; [done|]. split.
  { eapply Forall2_impl; [exact Hmem|]. simpl. intros x a.
    destruct (app_map !! x); by intros [= ->]. }
  split; [done|].
  destruct (dict_keys (map pattern_id members)) as [|k ks] eqn:Hkeys; [done|].
  injection Hpat as <-.
  destruct (dict_keys_spec (map pattern_id members)) as [_ Hk]. rewrite Hkeys in Hk.
  split; [|split].
  - apply Hk. rewrite elem_of_cons.
    exact (max_by_in (fun p => pattern_count p members) k ks).
  - intros m Hm.
    apply (max_by_ge (fun p => pattern_count p members) k ks (pattern_id m)).
    apply elem_of_cons, Hk, list_elem_of_fmap. eauto.
  - apply map_result_Forall2 in Hrisks.
    apply Forall_forall. intros a Ha.
    apply list_elem_of_lookup in Ha as [n Hn].
    destruct (Forall2_lookup_l _ _ _ _ _ Hrisks Hn) as (r & _ & Hr).
    destruct (risk_score a); [eauto|done].
Qed.

End BundleItems.

(** ** Zero-padded numbers *)

Lemma pretty_N_go_leading_zero x s s' :
  (x = 0%N -> s <> String "0" s') -> pretty_N_go x s <> String "0" s'.
Proof.
  revert s. induction (N.lt_wf_0 x) as [x _ IH]; intros s Hs.
  assert (x = 0 \/ 0 < x)%N as [->|Hpos] by lia.
  - rewrite pretty_N_go_0. by apply Hs.
  - rewrite pretty_N_go_step by done. apply IH; [by apply N.div_lt|].
    intros Hdiv.
    assert (x < 10)%N as Hlt.
    { destruct (N.lt_ge_cases x 10) as [?|Hge]; [done|].
      pose proof (N.div_str_pos x 10). lia. }
    rewrite N.mod_small by done.
    assert (x = 1 \/ x = 2 \/ x = 3 \/ x = 4 \/ x = 5 \/ x = 6
            \/ x = 7 \/ x = 8 \/ x = 9)%N by lia.
    naive_solver.
Qed.

Lemma pretty_nat_leading_zero (n : nat) s : pretty n = String "0" s -> s = "".
Proof.
  unfold pretty, pretty_nat, pretty, pretty_N. case_decide as Hn.
  - by intros [= <-].
  - intros H. by apply pretty_N_go_leading_zero in H.
Qed.

Lemma pad3_inj i j : Assessment.pad3 i = Assessment.pad3 j -> i = j.
Proof.
  unfold Assessment.pad3.
  remember (pretty i) as si eqn:Hsi. remember (pretty j) as sj eqn:Hsj.
  assert (Hinj : si = sj -> i = j).
  { subst. apply pretty_nat_inj. }
  assert (Hzi : forall t, si = String "0" t -> t = "").
  { intros t Ht. apply (pretty_nat_leading_zero i). congruence. }
  assert (Hzj : forall t, sj = String "0" t -> t = "").
  { intros t Ht. apply (pretty_nat_leading_zero j). congruence. }
  clear Hsi Hsj.
  destruct (String.length si) as [|[|[|li]]] eqn:Hli,
           (String.length sj) as [|[|[|lj]]] eqn:Hlj; simpl; intros H;
    try (by apply Hinj);
    try (injection H as H; by apply Hinj);
    try (symmetry in H; apply Hzj in H; subst; simpl in *; discriminate);
    try (apply Hzi in H; subst; simpl in *; discriminate);
    try (injection H as H; symmetry in H; apply Hzj in H; subst; simpl in *; discriminate);
    try (injection H as H; apply Hzi in H; subst; simpl in *; discriminate).
Qed.

(** ** Bundles: the items of the response *)

Section BundleShape.
Import Assessment.

Variable json_loads : string -> option pyval.
Variable py_repr : pyval -> string.
Variable set_iter : string -> gset string -> list string.

Local Abbreviation extract := (_extract_integration_model json_loads py_repr).
Local Abbreviation bundles_of := (bundles json_loads py_repr set_iter).
Local Abbreviation graph_of := (build_graph json_loads py_repr).

Lemma bundles_steps all items :
  all <> [] -> bundles_of all = Ok items ->
  exists g comps,
    graph_of all = Ok g /\
    components_of set_iter (dict_keys (map id all)) (neighbors g) = Ok comps /\
    make_bundles (fold_left (fun m a => <[id a := a]> m) all ∅) (affinity g) 1
      (sort_by_len_desc comps) = Ok items.
Proof.
  destruct all as [|a0 rest]; [done|]. intros _. unfold bundles.
  intros (g & Hg & (comps & Hc & Hitems)%bind_Ok)%bind_Ok. eauto.
Qed.

(** Each bundle is made from the component at its position. *)
Lemma bundles_positions all items :
  all <> [] -> bundles_of all = Ok items ->
  exists g comps,
    graph_of all = Ok g /\
    components_of set_iter (dict_keys (map id all)) (neighbors g) = Ok comps /\
    length items = length (sort_by_len_desc comps) /\
    forall n b, items !! n = Some b ->
      exists comp,
        sort_by_len_desc comps !! n = Some comp /\
        make_bundle (fold_left (fun m a => <[id a := a]> m) all ∅) (affinity g) (S n) comp
          = Ok b /\
        app_ids b = comp.
Proof.
  intros Hne Hrun. destruct (bundles_steps all items Hne Hrun) as (g & comps & Hg & Hc & Hmk).
  exists g, comps. split; [done|]. split; [done|].
  destruct (make_bundles_indexed _ _ _ _ _ Hmk) as [Hlen Hidx].
  split; [done|].
  intros n b Hn.
  assert (Hlt : (n < length (sort_by_len_desc comps))%nat).
  { rewrite <- Hlen. by eapply lookup_lt_Some. }
  apply lookup_lt_is_Some in Hlt as [comp Hcomp].
  destruct (Hidx n comp Hcomp) as (b' & Hb' & Hmk').
  rewrite Hn in Hb'. injection Hb' as <-.
  exists comp. split; [done|]. split; [done|].
  apply make_bundle_spec in Hmk' as [H _]; [done|].
  intros k a Hk. exact (proj2 (app_map_id all k a Hk)).
Qed.

Lemma pattern_of_bundle all items b :
  bundles_of all = Ok items -> b ∈ items ->
  app_ids b = map id (apps b) /\
  Forall (fun a => a ∈ all) (apps b) /\
  bundle_pattern_id b ∈ map pattern_id (apps b) /\
  (forall m, m ∈ apps b ->
     pattern_count (pattern_id m) (apps b) <= pattern_count (bundle_pattern_id b) (apps b)).
Proof.
  intros Hrun Hb. destruct (decide (all = [])) as [->|Hne].
  { injection Hrun as <-. by apply elem_of_nil in Hb. }
  destruct (bundles_positions all items Hne Hrun) as (g & comps & _ & _ & _ & Hpos).
  apply list_elem_of_lookup in Hb as [n Hn].
  destruct (Hpos n b Hn) as (comp & _ & Hmk & _).
  apply make_bundle_fields in Hmk as (_ & Hmem & Hids & Hpat & Hmax & _).
  split; [done|]. split; [|done].
  apply Forall_forall. intros a Ha. apply list_elem_of_lookup in Ha as [k Hk].
  destruct (Forall2_lookup_r _ _ _ _ _ Hmem Hk) as (x & _ & Hx).
  by apply app_map_id in Hx as [? _].
Qed.

Section WithOrder.
Hypothesis set_iter_elem : forall k s x, x ∈ set_iter k s <-> x ∈ s.

(** The components a run is cut into, with all that is known of them. *)
Lemma bundles_components all items :
  all <> [] -> bundles_of all = Ok items ->
  exists g comps,
    graph_of all = Ok g /\
    NoDup (concat comps) /\
    (forall x, x ∈ concat comps <-> x ∈ map id all) /\
    Forall (fun c => c <> []) comps /\
    Forall (rooted (neighbors g)) comps /\
    length items = length (sort_by_len_desc comps) /\
    forall n b, items !! n = Some b ->
      exists comp,
        sort_by_len_desc comps !! n = Some comp /\ comp ∈ comps /\
        make_bundle (fold_left (fun m a => <[id a := a]> m) all ∅) (affinity g) (S n) comp
          = Ok b /\
        app_ids b = comp.
Proof.
  intros Hne Hrun.
  destruct (bundles_positions all items Hne Hrun) as (g & comps & Hg & Hc & Hlen & Hpos).
  exists g, comps. split; [done|].
  destruct (components_of_graph set_iter set_iter_elem all g) as (comps' & Hc' & H1 & H2 & _ & H4).
  { by eapply build_graph_ok. }
  rewrite Hc in Hc'. injection Hc' as <-.
  split; [done|]. split; [done|]. split; [done|]. split.
  { by eapply components_of_rooted. }
  split; [done|].
  intros n b Hn. destruct (Hpos n b Hn) as (comp & Hcomp & Hmk & Hids).
  exists comp. split; [done|]. split; [|done].
  rewrite <- (sort_by_len_desc_perm comps). by eapply list_elem_of_lookup_2.
Qed.

Lemma bundles_connected all items b x y :
  bundles_of all = Ok items -> b ∈ items -> x ∈ app_ids b -> y ∈ app_ids b ->
  rtc (fun u v => exists w, linked json_loads py_repr all u v w) x y.
Proof.
  intros Hrun Hb Hx Hy. destruct (decide (all = [])) as [->|Hne].
  { injection Hrun as <-. by apply elem_of_nil in Hb. }
  destruct (bundles_components all items Hne Hrun) as (g & comps & Hg & _ & _ & _ & Hroot & _ & Hpos).
  apply list_elem_of_lookup in Hb as [n Hn].
  destruct (Hpos n b Hn) as (comp & _ & Hcomp & _ & Hids). rewrite Hids in Hx, Hy.
  rewrite Forall_forall in Hroot. destruct (Hroot comp Hcomp) as [r Hr].
  destruct (build_graph_ok json_loads py_repr all g Hg) as [[_ Hsym] _].
  destruct (build_graph_origin json_loads py_repr all g Hg) as [Hadj _].
  apply rtc_impl_rel with (R := adj (neighbors g)); [intros a c; apply Hadj|].
  transitivity r; [|by apply Hr].
  apply rtc_sym_rel; [|by apply Hr].
  intros a c Hac. by apply (Hsym a c).
Qed.

Lemma Zsum_bounds (f : string -> Z) l :
  (forall y, 0 <= f y <= 4) -> 0 <= Zsum (map f l) <= 4 * Z.of_nat (length l).
Proof.
  intros Hf. induction l as [|y l IH]; simpl; [lia|]. specialize (Hf y). lia.
Qed.

Lemma pairwise_affinity_bounds aff comp :
  (forall key, 0 <= aff_get aff key <= 4) ->
  0 <= pairwise_affinity aff comp
    <= 2 * Z.of_nat (length comp) * (Z.of_nat (length comp) - 1).
Proof.
  intros Haff. induction comp as [|x rest IH]; simpl pairwise_affinity; [simpl; lia|].
  pose proof (Zsum_bounds (fun y => aff_get aff (pair_key x y)) rest
                (fun y => Haff (pair_key x y))) as Hs.
  simpl length. nia.
Qed.

Lemma graph_affinity_range all g key :
  graph_of all = Ok g -> 0 <= aff_get (affinity g) key <= 4.
Proof.
  intros Hg. destruct (build_graph_origin json_loads py_repr all g Hg) as [_ Haff].
  destruct (Haff key) as [->|(x & y & _ & Hl)]; [lia|].
  apply linked_weight in Hl. lia.
Qed.

Lemma bundle_in_run all items b :
  bundles_of all = Ok items -> b ∈ items ->
  exists g,
    graph_of all = Ok g /\ NoDup (app_ids b) /\ app_ids b <> [] /\
    (forall x, x ∈ app_ids b -> x ∈ map id all) /\
    affinity_score b = pairwise_affinity (affinity g) (app_ids b) /\
    bundle_coupling b =
      (if Z.max 4 (Z.of_nat (length (app_ids b)) * 2) <=? affinity_score b
       then "tight" else "loose").
Proof.
  intros Hrun Hb. destruct (decide (all = [])) as [->|Hne].
  { injection Hrun as <-. by apply elem_of_nil in Hb. }
  destruct (bundles_components all items Hne Hrun)
    as (g & comps & Hg & Hnd & Hmem & Hnil & _ & _ & Hpos).
  apply list_elem_of_lookup in Hb as [n Hn].
  destruct (Hpos n b Hn) as (comp & _ & Hcomp & Hmk & Hids).
  apply make_bundle_spec in Hmk as (_ & _ & Hsc & Hcpl);
    [|intros k a Hk; exact (proj2 (app_map_id all k a Hk))].
  assert (Hndc : NoDup comp) by (by eapply NoDup_concat_elem).
  exists g. rewrite Hids. split; [done|]. split; [done|]. split.
  { rewrite Forall_forall in Hnil. by apply Hnil. }
  split.
  { intros x Hx. apply Hmem, elem_of_concat. eauto. }
  rewrite Hsc, Hcpl. by rewrite (bundle_affinity_pairwise _ _ Hndc).
Qed.

End WithOrder.

End BundleShape.

(** X4: The bundles of a run are numbered in the order returned: the bundle at position n (from 0) has id BUNDLE- followed by n+1 written with at least three digits; no bundle is empty, bundle sizes never increase along the list, and no two bundles share an id. *)
Theorem bundles_ordered_and_numbered :
  forall (json_loads : string -> option pyval) (py_repr : pyval -> string)
         (set_iter : string -> gset string -> list string)
         (all : list Assessment.app_row) items,
    (forall k s x, x ∈ set_iter k s <-> x ∈ s) ->
    Assessment.bundles json_loads py_repr set_iter all = Ok items ->
    (forall n b, items !! n = Some b ->
       Assessment.bundle_id b = "BUNDLE-" +:+ Assessment.pad3 (S n) /\
       Assessment.app_ids b <> []) /\
    (forall i j bi bj, (i <= j)%nat -> items !! i = Some bi -> items !! j = Some bj ->
       (length (Assessment.app_ids bj) <= length (Assessment.app_ids bi))%nat) /\
    NoDup (map Assessment.bundle_id items).
Proof.
  intros jl pr si all items Hsi Hrun.
  destruct (decide (all = [])) as [->|Hne].
  { injection Hrun as <-. split; [done|]. split; [done|]. constructor. }
  destruct (bundles_components jl pr si Hsi all items Hne Hrun)
    as (g & comps & Hg & _ & _ & Hnil & _ & _ & Hpos).
  assert (Hid : forall n b, items !! n = Some b ->
            Assessment.bundle_id b = "BUNDLE-" +:+ Assessment.pad3 (S n)).
  { intros n b Hn. destruct (Hpos n b Hn) as (comp & _ & _ & Hmk & _).
    by apply make_bundle_fields in Hmk as [? _]. }
  split; [|split].
  - intros n b Hn. split; [by apply Hid|].
    destruct (Hpos n b Hn) as (comp & _ & Hcomp & _ & ->).
    rewrite Forall_forall in Hnil. by apply Hnil.
  - intros i j bi bj Hij Hi Hj.
    destruct (Hpos i bi Hi) as (ci & Hci & _ & _ & ->).
    destruct (Hpos j bj Hj) as (cj & Hcj & _ & _ & ->).
    destruct (decide (i = j)) as [->|Hneq].
    { rewrite Hci in Hcj. by injection Hcj as <-. }
    apply (StronglySorted_lookup_le len_ge _ (sort_by_len_desc_sorted comps) i j ci cj);
      [lia|done|done].
  - apply NoDup_alt. intros i j x. rewrite !list_lookup_fmap.
    destruct (items !! i) as [bi|] eqn:Hi; [|done].
    destruct (items !! j) as [bj|] eqn:Hj; [|done]. simpl.
    intros [= <-] [= Heq].
    rewrite (Hid i bi Hi), (Hid j bj Hj) in Heq. simpl in Heq.
    injection Heq as Heq. apply pad3_inj in Heq. lia.
Qed.

Lemma bundles_ordered_and_numbered_witness :
  let items := Samples.two_app_bundles in
  (forall n b, items !! n = Some b ->
     Assessment.bundle_id b = "BUNDLE-" +:+ Assessment.pad3 (S n) /\
     Assessment.app_ids b <> []) /\
  (forall i j bi bj, (i <= j)%nat -> items !! i = Some bi -> items !! j = Some bj ->
     (length (Assessment.app_ids bj) <= length (Assessment.app_ids bi))%nat) /\
  NoDup (map Assessment.bundle_id items).
Proof.
  apply (bundles_ordered_and_numbered Samples.no_json Samples.no_repr Samples.set_order
           [Samples.app_A; Samples.app_B]).
  - intros k s x. unfold Samples.set_order. apply elem_of_elements.
  - vm_compute. reflexivity.
Defined.

(** X5: Any two members of one bundle are joined by a chain of links: a sequence of ids in which each consecutive pair is linked by a call or a shared datastore of an application of the run. *)
Theorem bundle_members_are_linked :
  forall (json_loads : string -> option pyval) (py_repr : pyval -> string)
         (set_iter : string -> gset string -> list string)
         (all : list Assessment.app_row) items,
    (forall k s x, x ∈ set_iter k s <-> x ∈ s) ->
    Assessment.bundles json_loads py_repr set_iter all = Ok items ->
    forall b x y, b ∈ items -> x ∈ Assessment.app_ids b -> y ∈ Assessment.app_ids b ->
      rtc (fun u v => exists w, linked json_loads py_repr all u v w) x y.
Proof.
  intros jl pr si all items Hsi Hrun b x y Hb Hx Hy.
  by apply (bundles_connected jl pr si Hsi all items b x y).
Qed.

Lemma bundle_members_are_linked_witness :
  exists b, b ∈ Samples.two_app_bundles /\
    rtc (fun u v => exists w, linked Samples.no_json Samples.no_repr
                                [Samples.app_A; Samples.app_B] u v w) "A" "B".
Proof.
  eexists. split; [unfold Samples.two_app_bundles; left|].
  eapply (bundle_members_are_linked Samples.no_json Samples.no_repr Samples.set_order
            [Samples.app_A; Samples.app_B] Samples.two_app_bundles).
  - intros k s x. unfold Samples.set_order. apply elem_of_elements.
  - vm_compute. reflexivity.
  - unfold Samples.two_app_bundles. left.
  - simpl. left.
  - simpl. right. left.
Defined.

Section BundleCoupling.
Import Assessment.

Variable json_loads : string -> option pyval.
Variable py_repr : pyval -> string.

Local Abbreviation extract := (_extract_integration_model json_loads py_repr).

Lemma linked_sym all x y w :
  linked json_loads py_repr all x y w -> linked json_loads py_repr all y x w.
Proof. intros (a & Ha & [H|H]); exists a; split; auto. Qed.

Lemma pair_key_eq a b c d :
  pair_key a b = pair_key c d -> (a = c /\ b = d) \/ (a = d /\ b = c).
Proof.
  unfold pair_key. destruct (String.ltb b a), (String.ltb d c); intros [= -> ->]; auto.
Qed.

(** A link of weight 4 is a shared datastore, and gives affinity 4. *)
Lemma linked_4_affinity all g x y :
  build_graph json_loads py_repr all = Ok g ->
  linked json_loads py_repr all x y 4 -> x <> y /\ 4 <= aff_get (affinity g) (pair_key x y).
Proof.
  intros Hg (a & Ha & H).
  assert (Hdb : forall z, links_to json_loads py_repr all a z 4 ->
            id a <> z /\ 4 <= aff_get (affinity g) (pair_key (id a) z)).
  { intros z (m & Hm & [(_ & link & _ & _ & Hw)|(dl & other & mo & Hdl & Ht & Ho & <- & Hne & Hmo & Hin & _)]).
    { destruct (String.eqb _ _); discriminate. }
    split; [done|].
    apply list_elem_of_fmap in Hin as (dlb & Heq & Hdlb).
    by apply (shared_tight_db_adjacent json_loads py_repr all g a other m mo dl dlb). }
  destruct H as [[<- H]|[<- H]]; destruct (Hdb _ H) as [Hne Haff]; [done|].
  split; [done|]. by rewrite pair_key_sym.
Qed.

Lemma build_graph_extracts all g app :
  build_graph json_loads py_repr all = Ok g -> app ∈ all ->
  is_ok (extract (findings_json app)) = true.
Proof.
  unfold build_graph. intros Hrun Happ.
  destruct (for_each_mid (fun _ _ => True) _ all (fun _ => I) (fun _ _ _ _ _ => I)
              (fun _ _ _ _ _ => I) _ _ app Happ Hrun) as (s1 & s2 & _ & Hb & _).
  unfold bundle_app in Hb. apply bind_Ok in Hb as (m & -> & _). done.
Qed.

Lemma NoDup_map_eq {A B} (f : A -> B) (l : list A) x y :
  NoDup (map f l) -> x ∈ l -> y ∈ l -> f x = f y -> x = y.
Proof.
  induction l as [|a l IH]; intros Hnd Hx Hy Heq; [by apply elem_of_nil in Hx|].
  simpl in Hnd. apply NoDup_cons in Hnd as [Ha Hnd].
  apply elem_of_cons in Hx as [->|Hx], Hy as [->|Hy]; auto.
  - destruct Ha. rewrite Heq. apply list_elem_of_fmap. eauto.
  - destruct Ha. rewrite <- Heq. apply list_elem_of_fmap. eauto.
Qed.

Lemma extract_no_records findings :
  Forall (fun v => forall d, v <> PDict d) (_parse_findings json_loads findings) ->
  extract findings = Ok (IntegrationModel [] [] []).
Proof.
  unfold _extract_integration_model. intros Hall.
  assert (H : for_each (_parse_findings json_loads findings) (extract_item py_repr)
                (Acc [] [] []) = Ok (Acc [] [] [])).
  { generalize (Acc [] [] []).
    induction Hall as [|v vs Hv _ IH]; intros a; simpl; [done|].
    destruct v; try apply IH. by destruct (Hv d). }
  by rewrite H.
Qed.

Lemma extract_string_list findings fs :
  _parse_findings json_loads findings = map PStr fs ->
  extract findings = Ok (IntegrationModel [] [] []).
Proof.
  intros Hfs. apply extract_no_records. rewrite Hfs. apply Forall_forall.
  intros v (s & -> & _)%list_elem_of_fmap d. done.
Qed.

Lemma singleton_of_equal {A} (l : list A) :
  NoDup l -> l <> [] -> (forall x y, x ∈ l -> y ∈ l -> x = y) -> exists x, l = [x].
Proof.
  intros Hnd Hne Heq. destruct l as [|x [|y l]]; [done|eauto|].
  apply NoDup_cons in Hnd as [Hx _]. destruct Hx.
  rewrite (Heq x y); [left|left|right; left].
Qed.

End BundleCoupling.

(** X6: A bundle of n members has n >= 1 and an affinity score between 0 and 2n(n-1); a bundle of one member has affinity score 0 and coupling loose, so a tight bundle has at least two members. *)
Theorem bundle_affinity_range :
  forall (json_loads : string -> option pyval) (py_repr : pyval -> string)
         (set_iter : string -> gset string -> list string)
         (all : list Assessment.app_row) items,
    (forall k s x, x ∈ set_iter k s <-> x ∈ s) ->
    Assessment.bundles json_loads py_repr set_iter all = Ok items ->
    forall b, b ∈ items ->
      let n := Z.of_nat (length (Assessment.app_ids b)) in
      1 <= n /\
      0 <= Assessment.affinity_score b <= 2 * n * (n - 1) /\
      (n = 1 -> Assessment.affinity_score b = 0 /\ Assessment.bundle_coupling b = "loose") /\
      (Assessment.bundle_coupling b = "tight" -> 2 <= n).
Proof.
  intros jl pr si all items Hsi Hrun b Hb n.
  destruct (bundle_in_run jl pr si Hsi all items b Hrun Hb)
    as (g & Hg & Hnd & Hne & _ & Hsc & Hcpl).
  pose proof (pairwise_affinity_bounds (Assessment.affinity g) (Assessment.app_ids b)
                (fun key => graph_affinity_range jl pr all g key Hg)) as Hbound.
  rewrite <- Hsc in Hbound. fold n in Hbound.
  assert (Hn : 1 <= n).
  { subst n. destruct (Assessment.app_ids b); [done|]. simpl length. lia. }
  split; [done|]. split; [done|].
  assert (H1 : n = 1 ->
            Assessment.affinity_score b = 0 /\ Assessment.bundle_coupling b = "loose").
  { intros Hn1. assert (Assessment.affinity_score b = 0) as H0 by nia.
    split; [done|]. rewrite Hcpl, H0. fold n. rewrite Hn1. done. }
  split; [done|].
  intros Ht. destruct (decide (n = 1)) as [Hn1|?]; [|lia].
  destruct (H1 Hn1) as [_ Hl]. congruence.
Qed.

Lemma bundle_affinity_range_witness :
  exists b, b ∈ Samples.two_app_bundles /\
    let n := Z.of_nat (length (Assessment.app_ids b)) in
    1 <= n /\
    0 <= Assessment.affinity_score b <= 2 * n * (n - 1) /\
    (n = 1 -> Assessment.affinity_score b = 0 /\ Assessment.bundle_coupling b = "loose") /\
    (Assessment.bundle_coupling b = "tight" -> 2 <= n).
Proof.
  eexists. split; [unfold Samples.two_app_bundles; left|].
  apply (bundle_affinity_range Samples.no_json Samples.no_repr Samples.set_order
           [Samples.app_A; Samples.app_B] Samples.two_app_bundles).
  - intros k s x. unfold Samples.set_order. apply elem_of_elements.
  - vm_compute. reflexivity.
  - unfold Samples.two_app_bundles. left.
Defined.

(** X7: A bundle of exactly two members is tight if and only if the two are linked with weight 4, which only a datastore link of tight coupling gives: a tight call between two applications (weight 3) leaves their two-member bundle loose. *)
Theorem pair_bundle_tight_iff_shared_datastore :
  forall (json_loads : string -> option pyval) (py_repr : pyval -> string)
         (set_iter : string -> gset string -> list string)
         (all : list Assessment.app_row) items,
    (forall k s x, x ∈ set_iter k s <-> x ∈ s) ->
    Assessment.bundles json_loads py_repr set_iter all = Ok items ->
    forall b x y, b ∈ items -> Assessment.app_ids b = [x; y] ->
      (Assessment.bundle_coupling b = "tight" <-> linked json_loads py_repr all x y 4).
Proof.
  intros jl pr si all items Hsi Hrun b x y Hb Hids.
  destruct (bundle_in_run jl pr si Hsi all items b Hrun Hb)
    as (g & Hg & Hnd & _ & _ & Hsc & Hcpl).
  rewrite Hids in Hsc, Hcpl, Hnd. simpl in Hsc, Hcpl.
  change (Z.max 4 (Z.of_nat 2 * 2)) with 4 in Hcpl.
  assert (Hscore : Assessment.affinity_score b
                   = aff_get (Assessment.affinity g) (Assessment.pair_key x y)) by lia.
  pose proof (graph_affinity_range jl pr all g (Assessment.pair_key x y) Hg) as Hrange.
  rewrite Hcpl, Hscore. split.
  - destruct (Z.leb_spec 4 (aff_get (Assessment.affinity g) (Assessment.pair_key x y)))
      as [Hge|Hlt]; [|done]. intros _.
    destruct (build_graph_origin jl pr all g Hg) as [_ Haff].
    destruct (Haff (Assessment.pair_key x y)) as [H0|(x' & y' & Hk & Hl)]; [lia|].
    replace (aff_get (Assessment.affinity g) (Assessment.pair_key x y)) with 4 in Hl by lia.
    apply pair_key_eq in Hk as [[-> ->]|[-> ->]]; [done|]. by apply linked_sym.
  - intros Hl. apply (linked_4_affinity jl pr all g x y Hg) in Hl as [_ Hge].
    destruct (Z.leb_spec 4 (aff_get (Assessment.affinity g) (Assessment.pair_key x y)));
      [done|lia].
Qed.

Lemma pair_bundle_tight_iff_shared_datastore_witness :
  exists b, b ∈ Samples.two_app_bundles /\
    (Assessment.bundle_coupling b = "tight" <->
     linked Samples.no_json Samples.no_repr [Samples.app_A; Samples.app_B] "A" "B" 4).
Proof.
  eexists. split; [unfold Samples.two_app_bundles; left|].
  apply (pair_bundle_tight_iff_shared_datastore Samples.no_json Samples.no_repr
           Samples.set_order [Samples.app_A; Samples.app_B] Samples.two_app_bundles).
  - intros k s x. unfold Samples.set_order. apply elem_of_elements.
  - vm_compute. reflexivity.
  - unfold Samples.two_app_bundles. left.
  - reflexivity.
Defined.

(** X8: The members of a bundle are rows of the run, listed as its application ids in the same order; the pattern of the bundle is the pattern of one of its members, and no pattern occurs among the members more often than it. *)
Theorem bundle_pattern_is_most_frequent :
  forall (json_loads : string -> option pyval) (py_repr : pyval -> string)
         (set_iter : string -> gset string -> list string)
         (all : list Assessment.app_row) items,
    Assessment.bundles json_loads py_repr set_iter all = Ok items ->
    forall b, b ∈ items ->
      Assessment.app_ids b = map Assessment.id (Assessment.apps b) /\
      (forall m, m ∈ Assessment.apps b -> m ∈ all) /\
      (exists m, m ∈ Assessment.apps b /\
                 Assessment.bundle_pattern_id b = Assessment.pattern_id m) /\
      (forall m, m ∈ Assessment.apps b ->
         pattern_count (Assessment.pattern_id m) (Assessment.apps b)
         <= pattern_count (Assessment.bundle_pattern_id b) (Assessment.apps b)).
Proof.
  intros jl pr si all items Hrun b Hb.
  destruct (pattern_of_bundle jl pr si all items b Hrun Hb) as (Hids & Hall & Hpat & Hmax).
  split; [done|]. split; [by apply Forall_forall|]. split; [|done].
  apply list_elem_of_fmap in Hpat as (m & -> & Hm). eauto.
Qed.

Lemma bundle_pattern_is_most_frequent_witness :
  exists b, b ∈ Samples.two_app_bundles /\
    Assessment.app_ids b = map Assessment.id (Assessment.apps b) /\
    (forall m, m ∈ Assessment.apps b -> m ∈ [Samples.app_A; Samples.app_B]) /\
    (exists m, m ∈ Assessment.apps b /\
               Assessment.bundle_pattern_id b = Assessment.pattern_id m) /\
    (forall m, m ∈ Assessment.apps b ->
       pattern_count (Assessment.pattern_id m) (Assessment.apps b)
       <= pattern_count (Assessment.bundle_pattern_id b) (Assessment.apps b)).
Proof.
  eexists. split; [unfold Samples.two_app_bundles; left|].
  apply (bundle_pattern_is_most_frequent Samples.no_json Samples.no_repr
           Samples.set_order [Samples.app_A; Samples.app_B] Samples.two_app_bundles).
  - vm_compute. reflexivity.
  - unfold Samples.two_app_bundles. left.
Defined.

(** X9: For a run whose application ids are distinct, the bundle clusterer returns a list of bundles if and only if the integration model of every application can be extracted and every application has a risk score (a NULL risk score makes float(None) fail). *)
Theorem bundles_return_iff_extractable_and_scored :
  forall (json_loads : string -> option pyval) (py_repr : pyval -> string)
         (set_iter : string -> gset string -> list string)
         (all : list Assessment.app_row),
    (forall k s x, x ∈ set_iter k s <-> x ∈ s) ->
    NoDup (map Assessment.id all) ->
    ((exists items, Assessment.bundles json_loads py_repr set_iter all = Ok items) <->
     (forall app, app ∈ all ->
        extractable json_loads py_repr app = true /\
        is_Some (Assessment.risk_score app))).
Proof.
  intros jl pr si all Hsi Hnd. split.
  - intros [items Hrun] app Happ.
    assert (Hne : all <> []) by (intros ->; by apply elem_of_nil in Happ).
    destruct (bundles_components jl pr si Hsi all items Hne Hrun)
      as (g & comps & Hg & _ & Hmem & _ & _ & Hlen & Hpos).
    split.
    { rewrite <- extractable_ok. by eapply build_graph_extracts. }
    assert (Hid : Assessment.id app ∈ concat comps).
    { apply Hmem, list_elem_of_fmap. eauto. }
    apply elem_of_concat in Hid as (c & Hc & Hin).
    rewrite <- (sort_by_len_desc_perm comps) in Hc.
    apply list_elem_of_lookup in Hc as [n Hn].
    assert (Hlt : (n < length items)%nat).
    { rewrite Hlen. by eapply lookup_lt_Some. }
    apply lookup_lt_is_Some in Hlt as [b Hb].
    destruct (Hpos n b Hb) as (c' & Hc2 & _ & Hmk' & _).
    rewrite Hn in Hc2. injection Hc2 as <-.
    apply make_bundle_fields in Hmk' as (_ & Hmems & _ & _ & _ & Hrisk).
    apply list_elem_of_lookup in Hin as [k Hk].
    destruct (Forall2_lookup_l _ _ _ _ _ Hmems Hk) as (a & Ha & Hlook).
    apply app_map_id in Hlook as [Hain Haid].
    assert (a = app) as ->.
    { by apply (NoDup_map_eq Assessment.id all a app Hnd Hain Happ). }
    rewrite Forall_forall in Hrisk. apply Hrisk. by eapply list_elem_of_lookup_2.
  - intros Hall. apply (bundles_total jl pr si Hsi).
    intros app Happ. destruct (Hall app Happ) as [He Hr]. split; [|done].
    by rewrite extractable_ok.
Qed.

Lemma bundles_return_iff_extractable_and_scored_witness :
  (exists items, Assessment.bundles Samples.no_json Samples.no_repr Samples.set_order
                   [Samples.app_A; Samples.app_B] = Ok items) <->
  (forall app, app ∈ [Samples.app_A; Samples.app_B] ->
     extractable Samples.no_json Samples.no_repr app = true /\
     is_Some (Assessment.risk_score app)).
Proof.
  apply (bundles_return_iff_extractable_and_scored Samples.no_json Samples.no_repr
           Samples.set_order [Samples.app_A; Samples.app_B]).
  - intros k s x. unfold Samples.set_order. apply elem_of_elements.
  - apply (bool_decide_unpack _). by vm_compute.
Defined.

Section StringFindings.
Import Assessment.

Variable json_loads : string -> option pyval.
Variable py_repr : pyval -> string.

Lemma no_links_without_records all x y w :
  (forall app, app ∈ all ->
     exists fs, _parse_findings json_loads (findings_json app) = map PStr fs) ->
  ~ linked json_loads py_repr all x y w.
Proof.
  intros Hall (a & Ha & H).
  destruct (Hall a Ha) as [fs Hfs].
  assert (Hno : forall z, ~ links_to json_loads py_repr all a z w).
  { intros z (m & Hm & Hl). rewrite (extract_string_list _ _ _ _ Hfs) in Hm. injection Hm as <-.
    destruct Hl as [(_ & link & Hl & _)|(dl & ? & ? & Hdl & _)]; simpl in *;
      by eapply elem_of_nil. }
  destruct H as [[_ H]|[_ H]]; by eapply Hno.
Qed.

Lemma string_findings_edges ids all :
  (forall app, app ∈ all ->
     exists fs, _parse_findings json_loads (findings_json app) = map PStr fs) ->
  flat_map (app_edges json_loads py_repr ids) all
  = map (fun app => MigratesTo (id app) ("gcp-" +:+ id app)) all.
Proof.
  induction all as [|a all IH]; intros Hall; simpl; [done|].
  rewrite IH by (intros; apply Hall; by right).
  destruct (Hall a) as [fs Hfs]; [by left|].
  unfold app_edges. by rewrite (extract_string_list _ _ _ _ Hfs).
Qed.

Lemma string_findings_extractable (all : list app_row) :
  (forall app, app ∈ all ->
     exists fs, _parse_findings json_loads (findings_json app) = map PStr fs) ->
  forall app, app ∈ all -> extractable json_loads py_repr app = true.
Proof.
  intros Hall app Happ. destruct (Hall app Happ) as [fs Hfs].
  rewrite <- extractable_ok, (extract_string_list _ _ _ _ Hfs). done.
Qed.

End StringFindings.

(** X10: When the findings of every application of a run parse to a list of strings, as the findings stored by the scan job do, the dependency graph has exactly one migrates_to edge per application and no other edge, and (every application having a risk score) every bundle has a single member, coupling loose and affinity score 0. *)
Theorem string_findings_give_isolated_apps :
  forall (json_loads : string -> option pyval) (py_repr : pyval -> string)
         (set_iter : string -> gset string -> list string)
         (all : list Assessment.app_row),
    (forall k s x, x ∈ set_iter k s <-> x ∈ s) ->
    (forall app, app ∈ all ->
       exists fs, Assessment._parse_findings json_loads (Assessment.findings_json app)
                  = map PStr fs) ->
    (exists nodes,
       Assessment.dependency_graph json_loads py_repr all
       = Ok (nodes, map (fun app => Assessment.MigratesTo (Assessment.id app)
                                      ("gcp-" +:+ Assessment.id app)) all)) /\
    ((forall app, app ∈ all -> is_Some (Assessment.risk_score app)) ->
     exists items,
       Assessment.bundles json_loads py_repr set_iter all = Ok items /\
       forall b, b ∈ items ->
         exists x, Assessment.app_ids b = [x] /\
                   Assessment.bundle_coupling b = "loose" /\
                   Assessment.affinity_score b = 0).
Proof.
  intros jl pr si all Hsi Hall. split.
  - pose proof (graph_outcome jl pr (list_to_set (map Assessment.id all)) all ([], [])) as Hout.
    pose proof (graph_edges_run jl pr (list_to_set (map Assessment.id all)) all ([], [])) as Hed.
    unfold Assessment.dependency_graph.
    destruct (for_each all _ _) as [[nodes edges]|e|].
    + exists nodes. specialize (Hed _ eq_refl). simpl in Hed. rewrite Hed.
      by rewrite (string_findings_edges jl pr _ all Hall).
    + destruct Hout as [_ Hf].
      assert (Ht : forallb (extractable jl pr) all = true).
      { apply forallb_forall. intros app Happ%list_elem_of_In.
        by apply (string_findings_extractable jl pr all Hall). }
      congruence.
    + done.
  - intros Hrisk.
    destruct (bundles_total jl pr si Hsi all) as [items Hrun].
    { intros app Happ. split; [|by apply Hrisk].
      rewrite extractable_ok. by apply (string_findings_extractable jl pr all Hall). }
    exists items. split; [done|]. intros b Hb.
    destruct (bundle_in_run jl pr si Hsi all items b Hrun Hb)
      as (g & Hg & Hnd & Hne & _ & Hsc & Hcpl).
    destruct (singleton_of_equal (Assessment.app_ids b) Hnd Hne) as [x Hx].
    { intros x y Hx Hy.
      pose proof (bundles_connected jl pr si Hsi all items b x y Hrun Hb Hx Hy) as Hr.
      destruct Hr as [|u v z [w Hl] _]; [done|].
      by destruct (no_links_without_records jl pr all u v w Hall). }
    exists x. split; [done|]. rewrite Hx in Hsc, Hcpl. simpl in Hsc, Hcpl.
    split; [|done]. by rewrite Hcpl, Hsc.
Qed.

Lemma string_findings_give_isolated_apps_witness :
  (exists nodes,
     Assessment.dependency_graph Samples.no_json Samples.no_repr [Samples.scanned_app]
     = Ok (nodes, map (fun app => Assessment.MigratesTo (Assessment.id app)
                                    ("gcp-" +:+ Assessment.id app)) [Samples.scanned_app])) /\
  ((forall app, app ∈ [Samples.scanned_app] -> is_Some (Assessment.risk_score app)) ->
   exists items,
     Assessment.bundles Samples.no_json Samples.no_repr Samples.set_order [Samples.scanned_app]
       = Ok items /\
     forall b, b ∈ items ->
       exists x, Assessment.app_ids b = [x] /\
                 Assessment.bundle_coupling b = "loose" /\
                 Assessment.affinity_score b = 0).
Proof.
  apply (string_findings_give_isolated_apps Samples.no_json Samples.no_repr
           Samples.set_order [Samples.scanned_app]).
  - intros k s x. unfold Samples.set_order. apply elem_of_elements.
  - intros app ->%list_elem_of_singleton.
    exists ["No Terraform files found — will be generated by migration engine"].
    reflexivity.
Defined.

(** ** Classifier: the selected pattern, confidence, risk and complexity *)

Section ClassifierChoice.
Import Classifier.

Variable re_search : bool -> string -> string -> bool.

Lemma SIGNALS_weight_15 : Forall (fun s => 15 <= sig_weight s) SIGNALS.
Proof.
  apply Forall_forall. intros s Hs%list_elem_of_In.
  assert (H : forallb (fun s => 15 <=? sig_weight s) SIGNALS = true) by reflexivity.
  rewrite forallb_forall in H. apply Z.leb_le, H, Hs.
Qed.

Lemma weight_of_zero_or_15 p sigs :
  Forall (fun s => 15 <= sig_weight s) sigs ->
  weight_of p sigs = 0 \/ 15 <= weight_of p sigs.
Proof.
  unfold weight_of. induction 1 as [|s sigs Hs _ IH]; simpl; [by left|].
  case_bool_decide; simpl; [|done]. right.
  unfold Assessment.Zsum in *. lia.
Qed.

Lemma Forall_filter_list {A} (P : A -> Prop) (f : A -> bool) (l : list A) :
  Forall P l -> Forall P (List.filter f l).
Proof.
  induction 1 as [|x l Hx _ IH]; simpl; [constructor|].
  destruct (f x); [by constructor|done].
Qed.

Lemma fired_weight_15 combined :
  Forall (fun s => 15 <= sig_weight s) (fired re_search combined).
Proof. exact (Forall_filter_list _ _ _ SIGNALS_weight_15). Qed.

(** [max] returns the first of the keys that have the highest value. *)
Lemma max_by_first_highest (sc : pid -> Z) :
  let b := max_by sc P1 [P2; P3; P4; P5] in
  (forall p, sc p <= sc b) /\
  (forall p, (pid_index p < pid_index b)%nat -> sc p < sc b).
Proof.
  unfold max_by. simpl.
  repeat (match goal with
          | |- context [sc P1 <? sc ?k] => destruct (Z.ltb_spec (sc P1) (sc k))
          | |- context [sc P2 <? sc ?k] => destruct (Z.ltb_spec (sc P2) (sc k))
          | |- context [sc P3 <? sc ?k] => destruct (Z.ltb_spec (sc P3) (sc k))
          | |- context [sc P4 <? sc ?k] => destruct (Z.ltb_spec (sc P4) (sc k))
          end; cbn iota);
    (split; intros []; simpl; lia).
Qed.

Lemma length_split c s : length (Py.split c s) = S (count_char c s).
Proof.
  induction s as [|a s IH]; simpl; [done|].
  destruct (Ascii.eqb a c); simpl; [by rewrite IH|].
  destruct (Py.split c s); simpl in *; lia.
Qed.

Lemma classify_repo_complexity files content :
  complexity (classify_repo re_search files content)
  = let n := count_char (ascii_of_nat 10) content in
    if (n <? 499)%nat then low else if (4999 <? n)%nat then high else medium.
Proof.
  unfold classify_repo.
  destruct (score_signals re_search SIGNALS _) as [sc hit].
  destruct (sc (max_by sc P1 [P2; P3; P4; P5]) <? 10); cbn [complexity];
    rewrite length_split; reflexivity.
Qed.

Lemma classify_repo_findings files content :
  findings (classify_repo re_search files content)
  = _generate_findings re_search files content
      (pattern_id (classify_repo re_search files content)).
Proof.
  unfold classify_repo.
  destruct (score_signals re_search SIGNALS _) as [sc hit].
  by destruct (sc (max_by sc P1 [P2; P3; P4; P5]) <? 10).
Qed.

Lemma length_add (c : bool) (m : string) :
  (length (if c then [m] else []) <= 1)%nat.
Proof. destruct c; simpl; lia. Qed.

Lemma elem_of_add (c : bool) (m x : string) :
  x ∈ (if c then [m] else []) <-> c = true /\ x = m.
Proof.
  destruct c; [rewrite list_elem_of_singleton|rewrite elem_of_nil]; naive_solver.
Qed.

Lemma not_any_iff (f : string -> bool) (files : list string) :
  negb (existsb f files) = true <-> forall x, x ∈ files -> f x = false.
Proof.
  rewrite negb_true_iff. split.
  - intros H x Hx. apply not_true_is_false. intros Hfx.
    assert (existsb f files = true); [|congruence].
    apply existsb_exists. exists x. by rewrite <- list_elem_of_In.
  - intros H. apply not_true_is_false.
    intros (x & Hx%list_elem_of_In & Hfx)%existsb_exists.
    rewrite (H x Hx) in Hfx. done.
Qed.

End ClassifierChoice.

(** X11: The confidence of every classification lies between 0.15 and 0.99.  When some pattern scores 0.1 or more, it is the score of the returned pattern capped at 0.99; when none does, it is 0.15. *)
Theorem confidence_is_capped_winning_score :
  forall (re_search : bool -> string -> string -> bool) files content,
    let r := Classifier.classify_repo re_search files content in
    15 <= Classifier.confidence r <= 99 /\
    Classifier.confidence r =
      (if existsb (fun p => 10 <=? Classifier.scores r p) Classifier.PATTERN_IDS
       then Z.min 99 (Classifier.scores r (Classifier.pattern_id r))
       else 15).
Proof.
  intros re files content r.
  destruct (classify_repo_scores re files content) as (Hsc & _ & Hpid & Hconf & _).
  destruct (score_signals_spec re (blob files content)) as [Hw _].
  fold r in Hsc, Hpid, Hconf.
  set (sc := fst (Classifier.score_signals re Classifier.SIGNALS (blob files content))) in *.
  set (best := max_by sc Classifier.P1
                 [Classifier.P2; Classifier.P3; Classifier.P4; Classifier.P5]) in *.
  assert (Hmax : forall p, sc p <= sc best).
  { intros p. apply (max_by_first_highest sc). }
  assert (H15 : forall p, 10 <= sc p -> 15 <= sc p).
  { intros p Hp. unfold sc in *. rewrite Hw in *.
    destruct (weight_of_zero_or_15 p (fired re (blob files content))
                (fired_weight_15 re _)); lia. }
  destruct (Z.ltb_spec (sc best) 10) as [Hlt|Hge].
  - rewrite Hconf. split; [lia|].
    replace (existsb _ _) with false; [done|].
    symmetry. apply not_true_is_false. intros (p & _ & Hp)%existsb_exists.
    rewrite Hsc in Hp. apply Z.leb_le in Hp. specialize (Hmax p). lia.
  - rewrite Hconf, Hpid. specialize (H15 best Hge). split; [lia|].
    replace (existsb _ _) with true; [by rewrite Hsc|].
    symmetry. apply existsb_exists. exists best. split.
    + destruct best; simpl; auto 10.
    + rewrite Hsc. by apply Z.leb_le.
Qed.



(** X13: The risk score of a classification is 4.0, plus 2.0 for pattern P3 or 1.5 for P4 or P5, plus 0.5 for each of: a secret keyword in the content, a legacy keyword in the content, a file path ending in .sql.  It therefore lies between 4.0 and 7.5, and neither the cap at 10.0 nor the rounding to one decimal changes it. *)
Theorem risk_is_base_plus_increments :
  forall (re_search : bool -> string -> string -> bool) files content,
    let r := Classifier.classify_repo re_search files content in
    Classifier.risk_score r
    = 400 + pattern_risk (Classifier.pattern_id r)
      + 50 * (Z.b2z (re_search true "secret|password|credential|api.?key" content)
              + Z.b2z (re_search true "legacy|deprecated|eof|end.?of.?life" content)
              + Z.b2z (existsb (fun f => Py.endswith f ".sql") files)) /\
    400 <= Classifier.risk_score r <= 750.
Proof.
  intros re files content r.
  destruct (classify_repo_scores re files content) as (_ & _ & _ & _ & Hrisk).
  fold r in Hrisk. rewrite Hrisk, calc_risk_exact.
  split; [|apply calc_risk_bounds].
  unfold Classifier._calc_risk.
  destruct (Classifier.pattern_id r); simpl;
    destruct (re true "secret|password|credential|api.?key" content),
             (re true "legacy|deprecated|eof|end.?of.?life" content),
             (existsb (fun f => Py.endswith f ".sql") files); reflexivity.
Qed.

(** X14: The complexity of a classification depends on the content sample only: it is low when the sample holds fewer than 499 newline characters, high when it holds more than 4999, and medium otherwise. *)
Theorem complexity_counts_newlines :
  forall (re_search : bool -> string -> string -> bool) files content,
    let n := count_char (ascii_of_nat 10) content in
    Classifier.complexity (Classifier.classify_repo re_search files content)
    = if (n <? 499)%nat then Classifier.low
      else if (4999 <? n)%nat then Classifier.high else Classifier.medium.
Proof. intros re files content. apply classify_repo_complexity. Qed.

(** X15: A classification has at most nine findings, so the cut to the first ten never drops one: the PCF-without-Dockerfile finding occurs only with pattern P4 and the MSSQL finding only with pattern P3.  The finding that no Terraform files were found is present exactly when no file path ends in .tf. *)
Theorem findings_never_truncated :
  forall (re_search : bool -> string -> string -> bool) files content,
    let r := Classifier.classify_repo re_search files content in
    (length (Classifier.findings r) <= 9)%nat /\
    ("No Terraform files found — will be generated by migration engine"
       ∈ Classifier.findings r <->
     forall f, f ∈ files -> Py.endswith f ".tf" = false) /\
    ("PCF app without Dockerfile — Dockerfile will be generated for GKE"
       ∈ Classifier.findings r ->
     Classifier.pattern_id r = Classifier.P4) /\
    ("MSSQL/Azure SQL detected — DMS heterogeneous migration required"
       ∈ Classifier.findings r ->
     Classifier.pattern_id r = Classifier.P3).
Proof.
  intros re files content r. subst r. rewrite classify_repo_findings.
  set (p := Classifier.pattern_id _). clearbody p.
  unfold Classifier._generate_findings.
  match goal with
  | |- context [firstn 10 ?l] =>
      assert (Hlen : (length l <= 9)%nat); [|rewrite (firstn_all2 l) by lia]
  end.
  { rewrite !length_app.
    repeat match goal with
           | |- context [length (if ?c then [?m] else [])] =>
               lazymatch c with
               | andb _ _ => fail
               | _ => let n := fresh "n" in
                      pose proof (length_add c m);
                      set (n := length (if c then [m] else [])) in *; clearbody n
               end
           end.
    destruct p; simpl;
      repeat match goal with
             | |- context [length (if ?c then [?m] else [])] =>
                 let n := fresh "n" in
                 pose proof (length_add c m);
                 set (n := length (if c then [m] else [])) in *; clearbody n
             end; lia. }
  split; [done|].
  split; [|split].
  - etrans; [|apply (not_any_iff (fun f => Py.endswith f ".tf"))]. split.
    + intros H. repeat (apply elem_of_app in H as [H|H]);
        apply elem_of_add in H as [Hc H]; (done || discriminate H).
    + intros Hc. do 6 (apply elem_of_app; right). apply elem_of_app; left.
      by apply elem_of_add.
  - intros H. repeat (apply elem_of_app in H as [H|H]);
      apply elem_of_add in H as [Hc H]; try discriminate H.
    apply andb_true_iff in Hc as [Hc _]. by apply bool_decide_eq_true in Hc.
  - intros H. repeat (apply elem_of_app in H as [H|H]);
      apply elem_of_add in H as [Hc H]; try discriminate H.
    apply andb_true_iff in Hc as [Hc _]. by apply bool_decide_eq_true in Hc.
Qed.

(** ** Instruction override: unknown keys, stored instructions *)

Section OverrideOutcome.
Import Assessment Assessment.

Lemma keyword_loop_unknown content pid kws (sc : gmap string Z) :
  sc !! pid = None ->
  for_each kws (fun sc kw => if Py.contains kw content then bump pid sc else Ok sc) sc
  = if existsb (fun kw => Py.contains kw content) kws then Raise KeyError else Ok sc.
Proof.
  intros Hpid. induction kws as [|kw kws IH]; simpl; [done|].
  destruct (Py.contains kw content); simpl; [|done].
  unfold bump. by rewrite Hpid.
Qed.

Lemma existsb_filter_length {A} (f : A -> bool) (l : list A) :
  existsb f l = true <-> 0 < Z.of_nat (length (List.filter f l)).
Proof.
  induction l as [|x l IH]; simpl; [lia|].
  destruct (f x); simpl; [lia|done].
Qed.

Lemma keywords_empty : keywords "" = [].
Proof. reflexivity. Qed.

(** One item of the mapping: a known key keeps the keys of [scores], an
    unknown key raises exactly when one of its keywords is found. *)
Lemma instruction_step_outcome content (sc : gmap string Z) e :
  (forall k, is_Some (sc !! k) <-> k ∈ OVERRIDE_IDS) ->
  match instruction_step (Py.lower content) sc e with
  | Ok sc' => (forall k, is_Some (sc' !! k) <-> k ∈ OVERRIDE_IDS) /\
              ~ unknown_key_hit content e
  | Raise err => err = KeyError /\ unknown_key_hit content e
  | OutOfFuel => False
  end.
Proof.
  intros Hdom. destruct e as [pid text]. unfold instruction_step, unknown_key_hit. simpl.
  destruct (String.eqb text "") eqn:Hempty.
  { apply String.eqb_eq in Hempty as ->. split; [done|].
    unfold keyword_hits. rewrite keywords_empty. simpl. lia. }
  destruct (sc !! pid) as [n|] eqn:Hpid.
  - destruct (keyword_loop (Py.lower content) pid (firstn 50 (keywords text)) sc n Hpid)
      as (sc' & -> & Hsc' & Hoth).
    split.
    + intros k. destruct (decide (k = pid)) as [->|Hne].
      * rewrite Hsc'. rewrite <- Hdom, Hpid. split; eauto.
      * by rewrite Hoth.
    + intros [Hk _]. apply Hk, Hdom. eauto.
  - rewrite keyword_loop_unknown by done.
    assert (Hk : pid ∉ OVERRIDE_IDS).
    { intros Hk%Hdom. rewrite Hpid in Hk. by destruct Hk. }
    destruct (existsb _ _) eqn:Hex.
    + split; [done|]. split; [done|]. by apply existsb_filter_length.
    + split; [done|]. intros [_ Hhit]. apply existsb_filter_length in Hhit.
      unfold keyword_hits in *. congruence.
Qed.

Lemma instruction_loop_outcome content l : forall (sc : gmap string Z),
  (forall k, is_Some (sc !! k) <-> k ∈ OVERRIDE_IDS) ->
  match for_each l (instruction_step (Py.lower content)) sc with
  | Ok sc' => Forall (fun e => ~ unknown_key_hit content e) l
  | Raise err => err = KeyError /\ Exists (unknown_key_hit content) l
  | OutOfFuel => False
  end.
Proof.
  induction l as [|e l IH]; intros sc Hdom; simpl; [constructor|].
  pose proof (instruction_step_outcome content sc e Hdom) as Hstep.
  destruct (instruction_step (Py.lower content) sc e) as [sc1|err|]; simpl; [|by intuition|done].
  destruct Hstep as [Hdom1 Hno].
  specialize (IH sc1 Hdom1).
  destruct (for_each l _ sc1) as [sc'|err|]; [by constructor| |done].
  destruct IH as [-> Hex]. split; [done|]. by right.
Qed.

Lemma scores0_dom k :
  is_Some ((list_to_map (map (fun p => (p, 0)) OVERRIDE_IDS) : gmap string Z) !! k)
  <-> k ∈ OVERRIDE_IDS.
Proof.
  split.
  - intros [n Hn]. apply elem_of_list_to_map_2 in Hn.
    apply list_elem_of_fmap in Hn as (p & [= -> _] & Hp). done.
  - intros Hk. rewrite scores0_lookup by done. eauto.
Qed.

Lemma apply_pattern_instructions_outcome classified content instructions :
  match _apply_pattern_instructions classified content instructions with
  | Ok r => (r = classified \/ r ∈ OVERRIDE_IDS) /\
            Forall (fun e => ~ unknown_key_hit content e) instructions
  | Raise err => err = KeyError /\ Exists (unknown_key_hit content) instructions
  | OutOfFuel => False
  end.
Proof.
  unfold _apply_pattern_instructions.
  pose proof (instruction_loop_outcome content instructions _ scores0_dom) as Hloop.
  destruct (for_each instructions _ _) as [sc|err|]; cbn [mbind result_bind]; [|done|done].
  destruct (2 <=? _); (split; [|done]); [right|by left].
  unfold OVERRIDE_IDS.
  destruct (max_by_in (fun k => default 0 (sc !! k)) "P1" ["P2"; "P3"; "P4"; "P5"])
    as [->|H]; [by left|by right].
Qed.

(** The five keys name the five patterns. *)
Lemma pattern_key_ids s :
  s ∈ OVERRIDE_IDS -> exists p, pattern_key s = Some p /\ Classifier.pid_name p = s.
Proof.
  unfold OVERRIDE_IDS. intros Hs.
  repeat (apply elem_of_cons in Hs as [->|Hs]; [eexists; split; reflexivity|]).
  by apply elem_of_nil in Hs.
Qed.

Lemma classify_repo_labels re files content :
  let r := Classifier.classify_repo re files content in
  Classifier.pattern_name r = Classifier.pat_name (Classifier.PATTERNS (Classifier.pattern_id r)) /\
  Classifier.gcp_target r
  = Classifier.pat_gcp_target (Classifier.PATTERNS (Classifier.pattern_id r)).
Proof.
  cbv zeta. unfold Classifier.classify_repo.
  destruct (Classifier.score_signals re Classifier.SIGNALS _) as [sc hit].
  by destruct (sc (max_by sc Classifier.P1 _) <? 10).
Qed.

(** ** Stored instructions *)

Lemma seed_lookup (t : instruction_table) k :
  seed_pattern_instructions t !! k
  = match t !! k with
    | Some v => Some v
    | None => if decide (k ∈ OVERRIDE_IDS) then Some "" else None
    end.
Proof.
  unfold seed_pattern_instructions.
  assert (H : forall ids (t : instruction_table),
    fold_left (fun t pid => match t !! pid with Some _ => t | None => <[pid := ""]> t end) ids t
      !! k
    = match t !! k with
      | Some v => Some v
      | None => if decide (k ∈ ids) then Some "" else None
      end).
  { clear t. induction ids as [|p ids IH]; intros t; cbn [fold_left].
    - destruct (t !! k); [done|]. case_decide as Hk; [by apply elem_of_nil in Hk|done].
    - rewrite IH. destruct (t !! p) as [v|] eqn:Hp.
      + destruct (t !! k) eqn:Hk; [done|].
        destruct (decide (k ∈ ids)), (decide (k ∈ p :: ids)); try done; [set_solver|].
        assert (k = p) by set_solver. congruence.
      + destruct (decide (k = p)) as [->|Hne].
        * rewrite lookup_insert_eq, Hp. destruct (decide (p ∈ p :: ids)); [done|set_solver].
        * rewrite lookup_insert_ne by done. destruct (t !! k); [done|].
          destruct (decide (k ∈ ids)), (decide (k ∈ p :: ids)); try done; set_solver. }
  apply H.
Qed.

Lemma saved_table_keys t :
  saved_table t -> forall k, is_Some (t !! k) <-> k ∈ OVERRIDE_IDS.
Proof.
  induction 1 as [|t _ IH|t pid ins t' _ IH Hsave]; intros k.
  - rewrite seed_lookup. rewrite lookup_empty. case_decide; split; (done || eauto).
  - rewrite seed_lookup. specialize (IH k).
    destruct (t !! k) eqn:Hk.
    + split; [intros _; apply IH; eauto|eauto].
    + case_decide; split; (done || eauto).
  - unfold save_pattern_instructions in Hsave.
    case_decide as Hpid; [|done]. injection Hsave as <-.
    destruct (decide (k = Py.upper (default "" pid))) as [->|Hne].
    + rewrite lookup_insert_eq. split; eauto.
    + by rewrite lookup_insert_ne.
Qed.

Lemma rows_of_keys t l :
  rows_of t l ->
  NoDup (map fst l) /\ (list_to_map l : gmap string string) = t /\
  forall k, k ∈ map fst l <-> is_Some (t !! k).
Proof.
  unfold rows_of. intros Hl.
  assert (Hnd : NoDup (map fst l)).
  { change (NoDup (l.*1)). rewrite Hl. apply NoDup_fst_map_to_list. }
  split; [done|]. split.
  - rewrite <- (list_to_map_to_list t). by apply list_to_map_proper.
  - intros k. change (k ∈ l.*1 <-> is_Some (t !! k)). rewrite Hl.
    rewrite list_elem_of_fmap. split.
    + intros ([k' v] & -> & Hkv%elem_of_map_to_list). eauto.
    + intros [v Hv]. exists (k, v). split; [done|]. by apply elem_of_map_to_list.
Qed.

End OverrideOutcome.

(** X16: The instruction override raises (a KeyError) exactly when the mapping holds a key other than P1..P5 whose text has one of its first 50 keywords in the lowercased content; otherwise it returns, and what it returns is the classified pattern or one of P1..P5. *)
Theorem override_raises_iff_unknown_key_hit :
  forall classified content instructions,
    match Assessment._apply_pattern_instructions classified content instructions with
    | Ok r =>
        (r = classified \/ r ∈ Assessment.OVERRIDE_IDS) /\
        forall pid text, (pid, text) ∈ instructions ->
          pid ∈ Assessment.OVERRIDE_IDS \/ keyword_hits content text = 0
    | Raise e =>
        e = KeyError /\
        exists pid text, (pid, text) ∈ instructions /\
          pid ∉ Assessment.OVERRIDE_IDS /\ 0 < keyword_hits content text
    | OutOfFuel => False
    end.
Proof.
  intros classified content instructions.
  pose proof (apply_pattern_instructions_outcome classified content instructions) as H.
  destruct (Assessment._apply_pattern_instructions classified content instructions)
    as [r|e|]; [| |done].
  - destruct H as [Hr Hall]. split; [done|]. intros pid text Hin.
    rewrite Forall_forall in Hall. specialize (Hall _ Hin).
    unfold unknown_key_hit in Hall. simpl in Hall.
    destruct (decide (pid ∈ Assessment.OVERRIDE_IDS)); [by left|right].
    assert (0 <= keyword_hits content text) by (unfold keyword_hits; lia).
    destruct (decide (keyword_hits content text = 0)); [done|].
    destruct Hall. split; [done|lia].
  - destruct H as [-> Hex]. split; [done|].
    apply Exists_exists in Hex as ([pid text] & Hin & Hk & Hhit).
    exists pid, text. done.
Qed.

(** X17: In the scan job, an instruction override changes the pattern id, name and GCP target of the classification to those of the selected pattern and nothing else: confidence, scores, fired signals, risk score, complexity and findings stay those the classifier computed for its own pattern.  The lookup of the selected pattern never fails: the step raises only when the override itself raises. *)
Theorem scan_override_relabels_only :
  forall (re_search : bool -> string -> string -> bool) files content instructions,
    let r := Classifier.classify_repo re_search files content in
    match Assessment.scan_classify re_search files content instructions with
    | Ok r' =>
        Assessment._apply_pattern_instructions
          (Classifier.pid_name (Classifier.pattern_id r)) content instructions
          = Ok (Classifier.pid_name (Classifier.pattern_id r')) /\
        Classifier.pattern_name r'
          = Classifier.pat_name (Classifier.PATTERNS (Classifier.pattern_id r')) /\
        Classifier.gcp_target r'
          = Classifier.pat_gcp_target (Classifier.PATTERNS (Classifier.pattern_id r')) /\
        Classifier.confidence r' = Classifier.confidence r /\
        Classifier.scores r' = Classifier.scores r /\
        Classifier.signals_hit r' = Classifier.signals_hit r /\
        Classifier.risk_score r' = Classifier.risk_score r /\
        Classifier.complexity r' = Classifier.complexity r /\
        Classifier.findings r' = Classifier.findings r
    | Raise e =>
        e = KeyError /\
        Assessment._apply_pattern_instructions
          (Classifier.pid_name (Classifier.pattern_id r)) content instructions
          = Raise KeyError
    | OutOfFuel => False
    end.
Proof.
  intros re files content instructions. cbv zeta.
  destruct (classify_repo_labels re files content) as [Hname Htarget].
  unfold Assessment.scan_classify.
  revert Hname Htarget. generalize (Classifier.classify_repo re files content).
  intros r Hname Htarget.
  pose proof (apply_pattern_instructions_outcome
                (Classifier.pid_name (Classifier.pattern_id r)) content instructions) as Hout.
  destruct (Assessment._apply_pattern_instructions _ content instructions)
    as [sel|e|]; cbn [mbind result_bind]; [| |done].
  - destruct Hout as [Hsel _].
    destruct (String.eqb sel (Classifier.pid_name (Classifier.pattern_id r))) eqn:Heq;
      cbn [negb].
    + apply String.eqb_eq in Heq as ->. done.
    + destruct Hsel as [->|Hsel]; [by rewrite String.eqb_refl in Heq|].
      destruct (pattern_key_ids sel Hsel) as (p & -> & <-). done.
  - destruct Hout as [-> _]. done.
Qed.

(** ** Stored instructions and the override *)

(** X18: A pattern_instructions table that was seeded and then only written by the save endpoint has exactly the keys P1..P5; on its rows the instruction override never raises and gives the same result in whatever order the rows are read; when every stored text is empty, as right after seeding, it keeps the classified pattern. *)
Theorem stored_instructions_never_raise :
  forall t rows rows' classified content,
    saved_table t -> rows_of t rows -> rows_of t rows' ->
    (forall k, k ∈ map fst rows <-> k ∈ Assessment.OVERRIDE_IDS) /\
    exists r,
      Assessment._apply_pattern_instructions classified content rows = Ok r /\
      Assessment._apply_pattern_instructions classified content rows' = Ok r /\
      ((forall k text, t !! k = Some text -> text = "") -> r = classified).
Proof.
  intros t rows rows' classified content Ht Hrows Hrows'.
  pose proof (saved_table_keys t Ht) as Hkeys.
  destruct (rows_of_keys t rows Hrows) as (Hnd & Hmap & Hdom).
  destruct (rows_of_keys t rows' Hrows') as (Hnd' & Hmap' & Hdom').
  split; [intros k; by rewrite Hdom, Hkeys|].
  pose proof (apply_pattern_instructions_spec classified content rows Hnd) as Hspec.
  pose proof (apply_pattern_instructions_spec classified content rows' Hnd') as Hspec'.
  cbv zeta in Hspec, Hspec'.
  rewrite Hspec by (intros k Hk; by apply Hkeys, Hdom).
  rewrite Hspec' by (intros k Hk; by apply Hkeys, Hdom').
  assert (Hhits : category_hits content rows' = category_hits content rows).
  { unfold category_hits. by rewrite Hmap, Hmap'. }
  rewrite Hhits. eexists. split; [done|]. split; [done|].
  intros Hempty.
  assert (Hzero : forall k, category_hits content rows k = 0).
  { intros k. unfold category_hits. rewrite Hmap.
    destruct (t !! k) as [text|] eqn:Hk; [|done].
    by rewrite (Hempty k text Hk). }
  by rewrite Hzero.
Qed.

Lemma stored_instructions_never_raise_witness :
  let t := Assessment.seed_pattern_instructions ∅ in
  (forall k, k ∈ map fst (map_to_list t) <-> k ∈ Assessment.OVERRIDE_IDS) /\
  exists r,
    Assessment._apply_pattern_instructions "P4" "kafka" (map_to_list t) = Ok r /\
    Assessment._apply_pattern_instructions "P4" "kafka" (map_to_list t) = Ok r /\
    ((forall k text, t !! k = Some text -> text = "") -> r = "P4").
Proof.
  apply (stored_instructions_never_raise (Assessment.seed_pattern_instructions ∅)
           (map_to_list (Assessment.seed_pattern_instructions ∅))
           (map_to_list (Assessment.seed_pattern_instructions ∅)) "P4" "kafka").
  - apply saved_initial.
  - unfold rows_of. reflexivity.
  - unfold rows_of. reflexivity.
Defined.

(** ** Application ids of a scan *)

Lemma length_substring_0 n s :
  String.length (String.substring 0 n s) = Nat.min n (String.length s).
Proof.
  revert s. induction n as [|n IH]; intros [|c s]; simpl; try done.
  by rewrite IH.
Qed.

Lemma append_inj_length a b x y :
  String.length a = String.length b -> a +:+ x = b +:+ y -> a = b /\ x = y.
Proof.
  revert b. induction a as [|c a IH]; intros [|d b]; simpl; try done.
  intros [= Hlen] [= -> Heq]. destruct (IH b Hlen Heq) as [-> ->]. done.
Qed.

(** X19: For run ids of at least 8 characters, two application ids made by the scan job are equal exactly when the run ids agree on their first 8 characters and the repository positions are equal: ids are distinct within a run, and two runs whose ids share their first 8 characters produce the same application ids. *)
Theorem scan_app_ids_equal_iff :
  forall run_id run_id' (i j : nat),
    (8 <= String.length run_id)%nat -> (8 <= String.length run_id')%nat ->
    (Assessment.scan_app_id run_id i = Assessment.scan_app_id run_id' j <->
     String.substring 0 8 run_id = String.substring 0 8 run_id' /\ i = j).
Proof.
  intros r r' i j Hr Hr'. unfold Assessment.scan_app_id. split.
  - intros Heq. apply append_inj_length in Heq as [Hpre Heq].
    + split; [done|]. apply append_inj_length in Heq as [_ Heq]; [|done].
      by apply pad3_inj.
    + rewrite !length_substring_0. lia.
  - by intros [-> ->].
Qed.

Lemma scan_app_ids_equal_iff_witness :
  Assessment.scan_app_id "0a1b2c3d-aaaa" 1 = Assessment.scan_app_id "0a1b2c3d-bbbb" 1 <->
  String.substring 0 8 "0a1b2c3d-aaaa" = String.substring 0 8 "0a1b2c3d-bbbb" /\ 1%nat = 1%nat.
Proof.
  apply (scan_app_ids_equal_iff "0a1b2c3d-aaaa" "0a1b2c3d-bbbb" 1 1); simpl; lia.
Defined.

(** ** Dependency graph: the nodes *)

Section GraphNodes.
Import Assessment.

Variable json_loads : string -> option pyval.
Variable py_repr : pyval -> string.

Lemma add_node_elem nodes n x : x ∈ add_node nodes n -> x ∈ nodes \/ x = n.
Proof.
  unfold add_node. case_decide; [by left|].
  intros [?| ->%list_elem_of_singleton]%elem_of_app; auto.
Qed.

Lemma graph_app_link_nodes apps app links : forall st,
  Forall (node_of_run apps) (fst st) ->
  Forall (node_of_run apps)
    (fst (fold_left (graph_app_link (list_to_set (map id apps)) app) links st)).
Proof.
  induction links as [|link links IH]; intros [nodes edges] Hst; simpl; [done|].
  apply IH. unfold graph_app_link. case_decide as Hin; [done|]. simpl in *.
  apply Forall_forall. intros n [Hn| ->]%add_node_elem.
  - rewrite Forall_forall in Hst. by apply Hst.
  - simpl. split; [done|]. intros Ht. apply Hin. by apply elem_of_list_to_set.
Qed.

Lemma graph_db_link_nodes apps app dls : forall st,
  Forall (node_of_run apps) (fst st) ->
  Forall (node_of_run apps) (fst (fold_left (graph_db_link app) dls st)).
Proof.
  induction dls as [|dl dls IH]; intros [nodes edges] Hst; simpl; [done|].
  apply IH. unfold graph_db_link. simpl in *.
  apply Forall_forall. intros n [Hn| ->]%add_node_elem.
  - rewrite Forall_forall in Hst. by apply Hst.
  - simpl. eauto.
Qed.

Lemma graph_app_nodes apps st app st' :
  app ∈ apps ->
  graph_app json_loads py_repr (list_to_set (map id apps)) st app = Ok st' ->
  Forall (node_of_run apps) (fst st) -> Forall (node_of_run apps) (fst st').
Proof.
  intros Happ Hrun Hst. destruct st as [nodes edges]. unfold graph_app in Hrun.
  apply bind_Ok in Hrun as (model & _ & Hrun). injection Hrun as <-.
  apply graph_db_link_nodes, graph_app_link_nodes. simpl in *.
  apply Forall_forall. intros n [[Hn| ->]%add_node_elem| ->]%add_node_elem.
  - rewrite Forall_forall in Hst. by apply Hst.
  - simpl. exists app. unfold risk_band. repeat split; try done.
  - simpl. exists app. split; [done|]. split; [done|].
    destruct (gcp_target app) as [t|]; [|done].
    destruct (String.eqb t "") eqn:Ht; [done|]. by apply eqb_false_ne.
Qed.

Lemma graph_nodes_run apps nodes edges :
  dependency_graph json_loads py_repr apps = Ok (nodes, edges) ->
  Forall (node_of_run apps) nodes.
Proof.
  unfold dependency_graph. intros Hrun.
  refine (for_each_inv (fun st => Forall (node_of_run apps) (fst st)) _ _ _ _ _ _ Hrun).
  - intros s x s' Hx Hs Hb. by apply (graph_app_nodes apps s x s' Hx Hb).
  - constructor.
Qed.

End GraphNodes.

(** X20: Every node of a returned dependency graph is of one of four kinds: an app node carrying the name, pattern and risk of an application of the run, with band high from 70, medium from 40, else low, and critical exactly when high; a gcp- node of an application of the run with a non-empty label; an ext- node of a call target that is not an application of the run; a db- node labelled with the upper-cased datastore name. *)
Theorem graph_nodes_come_from_run :
  forall (json_loads : string -> option pyval) (py_repr : pyval -> string)
         apps nodes edges,
    Assessment.dependency_graph json_loads py_repr apps = Ok (nodes, edges) ->
    forall n, n ∈ nodes -> node_of_run apps n.
Proof.
  intros jl pr apps nodes edges Hrun n Hn.
  pose proof (graph_nodes_run jl pr apps nodes edges Hrun) as Hall.
  rewrite Forall_forall in Hall. by apply Hall.
Qed.

Lemma graph_nodes_come_from_run_witness :
  node_of_run [Samples.app_calling_outside] (Assessment.ExternalAppNode "ext-B" "B").
Proof.
  apply (graph_nodes_come_from_run Samples.no_json Samples.no_repr
           [Samples.app_calling_outside]
           [Assessment.AppNode "A" "billing" (Some "P1") (5 # 1)%Q "low" false;
            Assessment.GcpNode "gcp-A" "GCE";
            Assessment.ExternalAppNode "ext-B" "B"]
           [Assessment.MigratesTo "A" "gcp-A"; Assessment.Calls "A" "ext-B" "tight" 1]).
  - vm_compute. reflexivity.
  - right. right. left.
Defined.

(** X21: When the risk score of every application of a run is one the classifier computes (4.0 to 7.5), every app node of the dependency graph has risk band low and is not critical: the thresholds 40 and 70 are never reached. *)
Theorem classified_apps_are_never_flagged :
  forall (json_loads : string -> option pyval) (py_repr : pyval -> string)
         (re_search : bool -> string -> string -> bool) apps nodes edges,
    (forall app, app ∈ apps ->
       exists files content q,
         Assessment.risk_score app = Some q /\
         (q == Classifier.risk_score (Classifier.classify_repo re_search files content)
               # 100)%Q) ->
    Assessment.dependency_graph json_loads py_repr apps = Ok (nodes, edges) ->
    forall i label pattern risk band critical,
      Assessment.AppNode i label pattern risk band critical ∈ nodes ->
      band = "low" /\ critical = false.
Proof.
  intros jl pr re apps nodes edges Hrisk Hrun i label pattern risk band critical Hn.
  pose proof (graph_nodes_run jl pr apps nodes edges Hrun) as Hall.
  rewrite Forall_forall in Hall. specialize (Hall _ Hn). simpl in Hall.
  destruct Hall as (app & Happ & _ & _ & _ & -> & -> & ->).
  destruct (Hrisk app Happ) as (files & content & q & -> & Hq). simpl.
  destruct (classify_repo_scores re files content) as (_ & _ & _ & _ & Hr).
  pose proof (calc_risk_bounds re files content
                (Classifier.pattern_id (Classifier.classify_repo re files content))) as Hb.
  rewrite calc_risk_exact in Hr. rewrite <- Hr in Hb.
  revert Hq Hb. generalize (Classifier.risk_score (Classifier.classify_repo re files content)).
  intros r Hq Hb.
  assert (H40 : Qle_bool (40 # 1) q = false).
  { apply not_true_is_false. intros H. apply Qle_bool_iff in H.
    rewrite Hq in H. unfold Qle in H. simpl in H. lia. }
  assert (H70 : Qle_bool (70 # 1) q = false).
  { apply not_true_is_false. intros H. apply Qle_bool_iff in H.
    rewrite Hq in H. unfold Qle in H. simpl in H. lia. }
  unfold risk_band. by rewrite H70, H40.
Qed.

Lemma classified_apps_are_never_flagged_witness :
  exists nodes edges,
    Assessment.dependency_graph Samples.no_json Samples.no_repr [Samples.scanned_app]
      = Ok (nodes, edges) /\
    forall i label pattern risk band critical,
      Assessment.AppNode i label pattern risk band critical ∈ nodes ->
      band = "low" /\ critical = false.
Proof.
  eexists _, _. split; [vm_compute; reflexivity|].
  eapply (classified_apps_are_never_flagged Samples.no_json Samples.no_repr
            Samples.re_search [Samples.scanned_app]).
  - intros app ->%list_elem_of_singleton.
    exists [], "", (4 # 1)%Q. split; [reflexivity|]. vm_compute. reflexivity.
  - vm_compute. reflexivity.
Defined.

(** ** Integration model: the tags *)

Lemma ascii_compare_lt a b : Ascii.compare a b = Lt <-> (N_of_ascii a < N_of_ascii b)%N.
Proof. unfold Ascii.compare. apply N.compare_lt_iff. Qed.

Lemma ascii_compare_eq a b : Ascii.compare a b = Eq <-> a = b.
Proof.
  unfold Ascii.compare. rewrite N.compare_eq_iff. split; [|by intros ->].
  intros H. by rewrite <- (ascii_N_embedding a), <- (ascii_N_embedding b), H.
Qed.

Lemma compare_lt_trans a : forall b c,
  String.compare a b = Lt -> String.compare b c = Lt -> String.compare a c = Lt.
Proof.
  induction a as [|x a IH]; intros [|y b] [|z c]; simpl; try done.
  destruct (Ascii.compare x y) eqn:Hxy; [|clear IH|done].
  - apply ascii_compare_eq in Hxy as ->.
    destruct (Ascii.compare y z); [apply IH|done|done].
  - intros _. destruct (Ascii.compare y z) eqn:Hyz; [|intros _|done].
    + apply ascii_compare_eq in Hyz as ->. by rewrite Hxy.
    + pose proof (proj1 (ascii_compare_lt x y) Hxy) as Hlt.
      pose proof (proj1 (ascii_compare_lt y z) Hyz) as Hlt'.
      assert (Hxz : Ascii.compare x z = Lt) by (apply ascii_compare_lt; lia).
      by rewrite Hxz.
Qed.

Lemma str_lt_compare a b : str_lt a b <-> String.compare a b = Lt.
Proof. unfold str_lt, String.ltb. by destruct (String.compare a b). Qed.

Lemma str_lt_trans a b c : str_lt a b -> str_lt b c -> str_lt a c.
Proof. rewrite !str_lt_compare. apply compare_lt_trans. Qed.

Lemma compare_gt_lt a b : String.compare a b = Gt -> str_lt b a.
Proof.
  intros H. apply str_lt_compare. rewrite String.compare_antisym, H. done.
Qed.

Lemma insert_sorted_elem x l z : z ∈ Py.insert_sorted x l <-> z = x \/ z ∈ l.
Proof.
  induction l as [|y l IH]; simpl.
  - rewrite list_elem_of_singleton. set_solver.
  - destruct (String.compare x y) eqn:Hc.
    + apply String.compare_eq_iff in Hc as ->. set_solver.
    + set_solver.
    + rewrite !elem_of_cons, IH. tauto.
Qed.

Lemma insert_sorted_sorted x l :
  StronglySorted str_lt l -> StronglySorted str_lt (Py.insert_sorted x l).
Proof.
  induction 1 as [|y l Hl IH Hy]; simpl; [repeat constructor|].
  destruct (String.compare x y) eqn:Hc.
  - by constructor.
  - apply str_lt_compare in Hc. constructor; [by constructor|].
    constructor; [done|]. eapply Forall_impl; [exact Hy|].
    intros z Hz. by apply (str_lt_trans x y z).
  - constructor; [done|]. apply Forall_forall. intros z [->|Hz]%insert_sorted_elem.
    + by apply compare_gt_lt.
    + rewrite Forall_forall in Hy. by apply Hy.
Qed.

Lemma sorted_set_elem l z : z ∈ Py.sorted_set l <-> z ∈ l.
Proof.
  induction l as [|x l IH]; simpl; [done|].
  rewrite insert_sorted_elem, IH, elem_of_cons. done.
Qed.

Lemma sorted_set_sorted l : StronglySorted str_lt (Py.sorted_set l).
Proof.
  induction l as [|x l IH]; simpl; [constructor|]. by apply insert_sorted_sorted.
Qed.

Lemma StronglySorted_str_lt_NoDup l : StronglySorted str_lt l -> NoDup l.
Proof.
  induction 1 as [|x l _ IH Hx]; constructor; [|done].
  intros Hin. rewrite Forall_forall in Hx. specialize (Hx x Hin).
  unfold str_lt in Hx. by rewrite ltb_irrefl in Hx.
Qed.

Section Tags.
Import Assessment.

Variable py_repr : pyval -> string.

(** The tags one record adds to the accumulator. *)
Lemma extract_item_tags a item a' t :
  extract_item py_repr a item = Ok a' ->
  (t ∈ acc_tags a' <-> t ∈ acc_tags a \/ record_tag py_repr item t).
Proof.
  unfold extract_item, record_tag.
  destruct item as [| | | | | |it];
    try (intros [= <-]; split; [by left|];
         by intros [?|(? & ? & ? & ? & _)]).
  destruct (String.eqb (Py.lower (py_str py_repr (Py.get_default it "type" (PStr ""))))
              "metadata") eqn:Hmeta.
  - apply String.eqb_eq in Hmeta.
    unfold Py.or_. destruct (Py.truthy (Py.get it "tags")) eqn:Htruthy.
    + destruct (Py.get it "tags") as [| | | | |ts|] eqn:Hget; simpl; intros [= <-];
        try (split; [by left|];
             intros [?|(it' & ts' & v & [= <-] & _ & Hts & _)]; [done|congruence]).
      simpl. rewrite elem_of_app, list_elem_of_fmap. split.
      * intros [?|(v & -> & Hv)]; [by left|right].
        apply list_elem_of_In, filter_In in Hv as [Hv%list_elem_of_In Htr].
        exists it, ts, v. done.
      * intros [?|(it' & ts' & v & [= <-] & _ & Hts & Hv & Htr & ->)]; [by left|right].
        assert (ts' = ts) as -> by congruence.
        exists v. split; [done|]. apply list_elem_of_In, filter_In. split; [|done].
        by apply list_elem_of_In.
    + intros [= <-]. simpl. rewrite app_nil_r. split; [by left|].
      intros [?|(it' & ts' & v & [= <-] & _ & Hts & Hv & Htr & ->)]; [done|].
      rewrite Hts in Htruthy. simpl in Htruthy. destruct ts'; [|done].
      by apply elem_of_nil in Hv.
  - assert (Hno : forall t, ~ record_tag py_repr (PDict it) t).
    { intros t' (it' & ts' & v & [= <-] & Hm & _). rewrite Hm in Hmeta. done. }
    repeat case_match; try (intros [= <-]);
      try (intros (? & ? & [= <-])%bind_Ok); simpl;
      (split; [by left|intros [?|Htag]; [done|by apply Hno in Htag]]).
Qed.

Lemma extract_loop_tags items t : forall a a',
  for_each items (extract_item py_repr) a = Ok a' ->
  (t ∈ acc_tags a' <-> t ∈ acc_tags a \/ exists item, item ∈ items /\ record_tag py_repr item t).
Proof.
  induction items as [|item items IH]; intros a a' Hrun; simpl in Hrun.
  - injection Hrun as <-. split; [by left|].
    intros [?|(item & Hin & _)]; [done|by apply elem_of_nil in Hin].
  - apply bind_Ok in Hrun as (a1 & H1 & Hrun).
    rewrite (IH _ _ Hrun), (extract_item_tags _ _ _ t H1). split.
    + intros [[?|?]|(item' & Hin & Ht)]; [by left|right..].
      * exists item. split; [by left|done].
      * exists item'. split; [by right|done].
    + intros [?|(item' & [->|Hin]%elem_of_cons & Ht)]; [by left; left|by left; right|].
      right. eauto.
Qed.

Lemma record_tag_lower item t : record_tag py_repr item t -> Py.lower t = t.
Proof. intros (it & ts & v & _ & _ & _ & _ & _ & ->). apply lower_idem. Qed.

End Tags.

(** X22: The tags of an extracted integration model are strictly increasing in string order, hence without duplicates, and lowercase; a text is a tag exactly when it is the lowercased text of a truthy entry of the tags list of a metadata record. *)
Theorem model_tags_sorted_unique_lowercase :
  forall (json_loads : string -> option pyval) (py_repr : pyval -> string) findings model,
    Assessment._extract_integration_model json_loads py_repr findings = Ok model ->
    StronglySorted str_lt (Assessment.tags model) /\
    NoDup (Assessment.tags model) /\
    (forall t, t ∈ Assessment.tags model <->
       exists item, item ∈ Assessment._parse_findings json_loads findings /\
                    record_tag py_repr item t) /\
    (forall t, t ∈ Assessment.tags model -> Py.lower t = t).
Proof.
  intros jl pr findings model Hrun.
  unfold Assessment._extract_integration_model in Hrun.
  apply bind_Ok in Hrun as (a & Hloop & [= <-]). simpl.
  pose proof (sorted_set_sorted (Assessment.acc_tags a)) as Hs.
  assert (Hiff : forall t, t ∈ Py.sorted_set (Assessment.acc_tags a) <->
                   exists item, item ∈ Assessment._parse_findings jl findings /\
                                record_tag pr item t).
  { intros t. rewrite sorted_set_elem, (extract_loop_tags pr _ t _ _ Hloop). simpl.
    split; [intros [H|H]; [by apply elem_of_nil in H|done]|by right]. }
  split; [done|]. split; [by apply StronglySorted_str_lt_NoDup|]. split; [done|].
  intros t (item & _ & Ht)%Hiff. by eapply record_tag_lower.
Qed.

Lemma model_tags_sorted_unique_lowercase_witness :
  let findings :=
    PList [PDict [("type", PStr "Metadata");
                  ("tags", PList [PStr "Web"; PStr ""; PStr "api"; PStr "web"])]] in
  let model := Assessment.IntegrationModel [] [] ["api"; "web"] in
  StronglySorted str_lt (Assessment.tags model) /\
  NoDup (Assessment.tags model) /\
  (forall t, t ∈ Assessment.tags model <->
     exists item, item ∈ Assessment._parse_findings Samples.no_json findings /\
                  record_tag Samples.no_repr item t) /\
  (forall t, t ∈ Assessment.tags model -> Py.lower t = t).
Proof.
  apply (model_tags_sorted_unique_lowercase Samples.no_json Samples.no_repr).
  vm_compute. reflexivity.
Defined.

(** ** GitHub client: repository names *)

Section FullName.
Import GithubClient.

Lemma contains_char_cons c a s :
  Py.contains (String c "") (String a s) = Ascii.eqb a c || Py.contains (String c "") s.
Proof.
  simpl. destruct (ascii_dec c a) as [->|Hne].
  - rewrite Ascii.eqb_refl. by destruct s.
  - assert (H : Ascii.eqb a c = false) by (apply Ascii.eqb_neq; congruence).
    by rewrite H.
Qed.

Lemma contains_char_nil c : Py.contains (String c "") "" = false.
Proof. reflexivity. Qed.

Lemma split1_spec c s :
  Py.contains (String c "") s = true ->
  exists owner repo,
    split1 c s = [owner; repo] /\ s = owner +:+ String c repo /\
    Py.contains (String c "") owner = false.
Proof.
  induction s as [|a s IH]; [done|].
  rewrite contains_char_cons. cbn [split1].
  destruct (Ascii.eqb a c) eqn:Hac.
  - apply Ascii.eqb_eq in Hac as ->. intros _. exists "", s. done.
  - simpl. intros (owner & repo & -> & -> & Hno)%IH.
    exists (String a owner), repo. split; [done|]. split; [done|].
    by rewrite contains_char_cons, Hac.
Qed.

End FullName.

(** X23: parse_full_name raises ValueError exactly when the name holds no slash.  Otherwise it returns the stripped text before the first slash and the stripped text after it, which may hold further slashes: the unpacking of the split never fails. *)
Theorem parse_full_name_splits_at_first_slash :
  forall full_name,
    match GithubClient.parse_full_name full_name with
    | Ok (owner, repo) =>
        exists o r,
          full_name = o +:+ "/" +:+ r /\ Py.contains "/" o = false /\
          owner = Py.strip o /\ repo = Py.strip r
    | Raise e => e = ValueError /\ Py.contains "/" full_name = false
    | OutOfFuel => False
    end.
Proof.
  intros s. unfold GithubClient.parse_full_name.
  destruct (Py.contains "/" s) eqn:Hc; cbn [negb]; [|done].
  destruct (split1_spec "/"%char s Hc) as (o & r & -> & -> & Hno).
  exists o, r. done.
Qed.

(** ** Text: substrings *)

Lemma append_nil_l s : "" +:+ s = s.
Proof. reflexivity. Qed.

Lemma append_cons c s t : String c s +:+ t = String c (s +:+ t).
Proof. reflexivity. Qed.

Lemma contains_unfold sub s :
  Py.contains sub s
  = String.prefix sub s || match s with "" => false | String _ s' => Py.contains sub s' end.
Proof. by destruct s. Qed.

Lemma prefix_append a y : String.prefix a (a +:+ y) = true.
Proof.
  induction a as [|c a IH]; rewrite ?append_nil_l, ?append_cons; simpl; [by destruct y|].
  destruct (ascii_dec c c); [done|congruence].
Qed.

Lemma prefix_split a : forall s, String.prefix a s = true -> exists y, s = a +:+ y.
Proof.
  induction a as [|c a IH]; intros s; simpl; [by exists s|].
  destruct s as [|d s]; simpl; [done|].
  destruct (ascii_dec c d) as [->|]; [|done].
  intros (y & ->)%IH. by exists y.
Qed.

Lemma append_assoc' (a b c : string) : (a +:+ b) +:+ c = a +:+ (b +:+ c).
Proof.
  induction a as [|x a IH]; rewrite ?append_nil_l, ?append_cons; [done|by f_equal].
Qed.

(** [sub in s] in terms of concatenation. *)
Lemma contains_iff sub s :
  Py.contains sub s = true <-> exists x y, s = x +:+ sub +:+ y.
Proof.
  split.
  - induction s as [|c s IH]; rewrite contains_unfold.
    + rewrite orb_false_r. intros (y & Hy)%prefix_split. by exists "", y.
    + intros [(y & Hy)%prefix_split|(x & y & ->)%IH]%orb_true_iff.
      * by exists "", y.
      * by exists (String c x), y.
  - intros (x & y & ->).
    induction x as [|c x IH]; rewrite ?append_nil_l, ?append_cons, contains_unfold.
    + by rewrite prefix_append.
    + by rewrite IH, orb_true_r.
Qed.

Lemma contains_trans a b s :
  Py.contains a b = true -> Py.contains b s = true -> Py.contains a s = true.
Proof.
  rewrite !contains_iff. intros (u & v & ->) (x & y & ->).
  exists (x +:+ u), (v +:+ y). by rewrite !append_assoc'.
Qed.

Lemma lower_append s t : Py.lower (s +:+ t) = Py.lower s +:+ Py.lower t.
Proof.
  induction s as [|c s IH]; rewrite ?append_nil_l, ?append_cons; simpl; [done|].
  by rewrite append_cons, IH.
Qed.

Lemma contains_lower sub s :
  Py.contains sub s = true -> Py.contains (Py.lower sub) (Py.lower s) = true.
Proof.
  rewrite !contains_iff. intros (x & y & ->).
  exists (Py.lower x), (Py.lower y). by rewrite !lower_append.
Qed.

(** A text without the character [c] that starts at a position before an
    occurrence of [c] ends before it. *)
Lemma prefix_before_char c a : forall x y,
  count_char c a = 0%nat ->
  String.prefix a (x +:+ String c y) = String.prefix a x.
Proof.
  induction a as [|a0 a IH]; intros x y Hc; [by destruct x|].
  simpl in Hc. destruct (Ascii.eqb a0 c) eqn:Ha0; [done|]. simpl in Hc.
  apply Ascii.eqb_neq in Ha0.
  destruct x as [|d x]; rewrite ?append_nil_l, ?append_cons; simpl.
  - by destruct (ascii_dec a0 c).
  - destruct (ascii_dec a0 d); [by apply IH|done].
Qed.

Lemma contains_across_char c a : forall x y,
  count_char c a = 0%nat ->
  Py.contains a (x +:+ String c y) = Py.contains a x || Py.contains a y.
Proof.
  intros x y Hc. induction x as [|d x IH].
  - rewrite append_nil_l, (contains_unfold a (String c y)), (contains_unfold a "").
    rewrite orb_false_r, <- (prefix_before_char c a "" y Hc). done.
  - rewrite append_cons, (contains_unfold a (String d (x +:+ String c y))), IH.
    rewrite (contains_unfold a (String d x)).
    rewrite <- (prefix_before_char c a (String d x) y Hc), append_cons.
    by rewrite orb_assoc.
Qed.

(** A text without [c] occurs in a [c]-join exactly when it occurs in
    one of the joined texts. *)
Lemma contains_join c a l :
  count_char c a = 0%nat -> a <> "" ->
  Py.contains a (Py.join (String c "") l) = existsb (Py.contains a) l.
Proof.
  intros Hc Ha. unfold Py.join. induction l as [|x [|y l] IH].
  - simpl. by destruct a.
  - simpl. by rewrite orb_false_r.
  - change (String.concat (String c "") (x :: y :: l))
      with (x +:+ String c (String.concat (String c "") (y :: l))).
    rewrite contains_across_char by done. rewrite IH. done.
Qed.

Lemma lower_join sep l :
  Py.lower (Py.join sep l) = Py.join (Py.lower sep) (map Py.lower l).
Proof.
  unfold Py.join. induction l as [|x [|y l] IH]; [done..|].
  change (String.concat sep (x :: y :: l))
    with (x +:+ sep +:+ String.concat sep (y :: l)).
  change (String.concat (Py.lower sep) (map Py.lower (x :: y :: l)))
    with (Py.lower x +:+ Py.lower sep +:+
          String.concat (Py.lower sep) (map Py.lower (y :: l))).
  by rewrite !lower_append, IH.
Qed.

Lemma existsb_map_list {A B} (f : A -> B) (p : B -> bool) (l : list A) :
  existsb p (map f l) = existsb (fun x => p (f x)) l.
Proof. induction l as [|x l IH]; simpl; [done|]. by rewrite IH. Qed.

Lemma existsb_impl {A} (p q : A -> bool) (l : list A) :
  (forall x, p x = true -> q x = true) -> existsb p l = true -> existsb q l = true.
Proof.
  intros Hpq (x & Hx & Hp)%existsb_exists. apply existsb_exists. eauto.
Qed.

(** ** Scan job: framework and dependencies *)

Section Framework.
Import Assessment Assessment.

Lemma framework_contains files kw :
  count_char (ascii_of_nat 10) kw = 0%nat -> kw <> "" ->
  Py.contains kw (Py.lower (Py.join Classifier.newline files)) = any_path_has files kw.
Proof.
  intros Hc Hkw. rewrite lower_join.
  change (Py.lower Classifier.newline) with (String (ascii_of_nat 10) "").
  rewrite contains_join by done. apply existsb_map_list.
Qed.

Lemma path_has_lower files kw :
  Py.lower kw = kw ->
  existsb (Py.contains kw) files = true -> any_path_has files kw = true.
Proof.
  intros Hkw. apply existsb_impl. intros f Hf.
  rewrite <- Hkw. by apply contains_lower.
Qed.

End Framework.

(** X24: The framework of a file list is decided path by path and ignoring letter case: spring when some path holds pom.xml or build.gradle, else node for package.json, else python for requirements.txt or .py, else .net for .csproj, else unknown.  When the dependency list holds maven or gradle the framework is spring, and when the framework is unknown the dependency list is empty. *)
Theorem framework_is_decided_per_path :
  forall files,
    let has := any_path_has files in
    let framework := Assessment._framework_from_files files in
    let deps := Assessment.scan_dependencies files in
    framework =
      (if has "pom.xml" || has "build.gradle" then "spring"
       else if has "package.json" then "node"
       else if has "requirements.txt" || has ".py" then "python"
       else if has ".csproj" then ".net"
       else "unknown") /\
    ("maven" ∈ deps \/ "gradle" ∈ deps -> framework = "spring") /\
    (framework = "unknown" -> deps = []).
Proof.
  intros files has framework deps.
  assert (Hfw : framework =
      (if has "pom.xml" || has "build.gradle" then "spring"
       else if has "package.json" then "node"
       else if has "requirements.txt" || has ".py" then "python"
       else if has ".csproj" then ".net"
       else "unknown")).
  { subst framework has. unfold Assessment._framework_from_files. cbv zeta.
    rewrite !framework_contains by (reflexivity || discriminate). done. }
  assert (Hdep : forall kw, Py.lower kw = kw ->
            existsb (Py.contains kw) files = true -> has kw = true).
  { intros kw. apply path_has_lower. }
  pose proof (Hdep "package.json" eq_refl) as Hnpm.
  pose proof (Hdep "requirements.txt" eq_refl) as Hpip.
  pose proof (Hdep "pom.xml" eq_refl) as Hmvn.
  pose proof (Hdep "build.gradle" eq_refl) as Hgradle.
  clear Hdep.
  split; [done|]. rewrite Hfw. subst deps. unfold Assessment.scan_dependencies.
  destruct (existsb (Py.contains "package.json") files);
    destruct (existsb (Py.contains "requirements.txt") files);
    destruct (existsb (Py.contains "pom.xml") files);
    destruct (existsb (Py.contains "build.gradle") files);
    try rewrite (Hnpm eq_refl); try rewrite (Hpip eq_refl);
    try rewrite (Hmvn eq_refl); try rewrite (Hgradle eq_refl);
    rewrite ?orb_true_r; cbn [orb app];
    (split; [intros [Hin|Hin]; try done; set_solver|]);
    repeat case_match; done.
Qed.

(** ** Scan job: diagnosis of a failure *)

(** X25: The diagnosis of a scan failure keeps the error text (Unknown scan error when it is empty), so raw_error is never empty; its error code does not depend on the letter case of the text; and the code is GITHUB_RATE_LIMIT exactly when the lowercased text holds 403 and rate limit but not both 409 and conflict, the test for api rate limit adding nothing. *)
Theorem diagnosis_ignores_case :
  forall exc,
    let d := Assessment._diagnose_scan_error exc in
    let lowered := Py.lower (Assessment.raw_error d) in
    Assessment.raw_error d = (if String.eqb exc "" then "Unknown scan error" else exc) /\
    Assessment.raw_error d <> "" /\
    Assessment.error_code (Assessment._diagnose_scan_error (Py.lower exc))
      = Assessment.error_code d /\
    (Assessment.error_code d = "GITHUB_RATE_LIMIT" <->
       Py.contains "403" lowered = true /\ Py.contains "rate limit" lowered = true /\
       Py.contains "409" lowered && Py.contains "conflict" lowered = false).
Proof.
  intros exc d lowered.
  assert (Hraw : Assessment.raw_error d
                 = if String.eqb exc "" then "Unknown scan error" else exc).
  { subst d. unfold Assessment._diagnose_scan_error. cbv zeta.
    repeat case_match; reflexivity. }
  split; [done|]. split.
  { rewrite Hraw. destruct (String.eqb exc "") eqn:He; [done|]. by apply eqb_false_ne. }
  assert (Hapi : Py.contains "api rate limit" lowered = true ->
                 Py.contains "rate limit" lowered = true).
  { by apply contains_trans. }
  split.
  - subst d. unfold Assessment._diagnose_scan_error. cbv zeta.
    assert (Hlow : Py.lower (if String.eqb (Py.lower exc) ""
                             then "Unknown scan error" else Py.lower exc)
                   = Py.lower (if String.eqb exc "" then "Unknown scan error" else exc)).
    { destruct exc as [|c exc]; [done|]. simpl. by rewrite lower_char_idem, lower_idem. }
    rewrite Hlow. repeat case_match; reflexivity.
  - subst lowered. rewrite Hraw in Hapi |- *. subst d.
    unfold Assessment._diagnose_scan_error. cbv zeta.
    set (l := Py.lower (if String.eqb exc "" then "Unknown scan error" else exc)) in *.
    destruct (Py.contains "409" l), (Py.contains "conflict" l),
             (Py.contains "403" l), (Py.contains "rate limit" l) eqn:Hrl,
             (Py.contains "api rate limit" l);
      try (specialize (Hapi eq_refl); discriminate Hapi);
      cbn [andb orb]; repeat case_match; cbn [Assessment.error_code];
      (split; [intros; try discriminate; done|intros (? & ? & ?); try discriminate; done]).
Qed.

(** ** Insights: the datastores counted *)

Section InsightsDatastores.
Import Assessment Assessment.

Variable py_repr : pyval -> string.

Lemma lower_empty s : String.eqb (Py.lower s) "" = String.eqb s "".
Proof. by destruct s. Qed.

Lemma text_datastore_links cpl ds :
  forallb is_text ds = true ->
  map datastore (flat_map (datastore_links py_repr cpl) ds)
  = map (fun d => Py.lower (py_str py_repr d))
        (List.filter (fun d => Py.truthy d &&
                               negb (String.eqb (Py.lower (py_str py_repr d)) "none")) ds).
Proof.
  induction ds as [|d ds IH]; simpl; [done|].
  intros [Hd Hds]%andb_true_iff. rewrite map_app, (IH Hds).
  destruct d as [| | | |s| |]; try done. unfold datastore_links. simpl.
  rewrite lower_empty.
  destruct (String.eqb s ""), (String.eqb (Py.lower s) "none"); done.
Qed.

Lemma integrations_item_datastores a item a' st :
  extract_item py_repr a item = Ok a' ->
  text_datastores py_repr item ->
  snd st = map datastore (acc_db_links a) ->
  snd (integrations_item py_repr st item) = map datastore (acc_db_links a').
Proof.
  destruct st as [app_targets db_targets]. unfold extract_item, integrations_item.
  destruct item as [| | | | | |it]; try (by intros [= <-]).
  intros Hrun Htext Hst. simpl in Hst. specialize (Htext it eq_refl).
  set (ftype := Py.lower (py_str py_repr (Py.get_default it "type" (PStr "")))) in *.
  destruct (String.eqb ftype "metadata") eqn:Hmeta.
  { apply String.eqb_eq in Hmeta. rewrite Hmeta. cbn [String.eqb Ascii.eqb Bool.eqb].
    simpl. revert Hrun. repeat case_match; by intros [= <-]. }
  destruct (String.eqb ftype "app_to_app_integration") eqn:Happ.
  { apply String.eqb_eq in Happ. rewrite Happ. simpl.
    revert Hrun. repeat case_match; try (by intros [= <-]);
      by intros (? & ? & [= <-])%bind_Ok. }
  destruct (String.eqb ftype "app_to_db_integration") eqn:Hdb; [|by injection Hrun as <-].
  apply String.eqb_eq in Hdb. destruct (Htext Hdb) as (ds & Hget & Hds).
  rewrite Hget in Hrun |- *. unfold Py.or_ in *.
  destruct (Py.truthy (PList ds)); simpl in Hrun; injection Hrun as <-; simpl.
  - by rewrite map_app, Hst, text_datastore_links.
  - by rewrite !app_nil_r.
Qed.

Lemma integrations_loop_datastores items : forall a a' st,
  for_each items (extract_item py_repr) a = Ok a' ->
  Forall (text_datastores py_repr) items ->
  snd st = map datastore (acc_db_links a) ->
  snd (fold_left (integrations_item py_repr) items st) = map datastore (acc_db_links a').
Proof.
  induction items as [|item items IH]; intros a a' st Hrun Hall Hst; simpl in *.
  - by injection Hrun as <-.
  - apply bind_Ok in Hrun as (a1 & H1 & Hrun).
    apply Forall_cons in Hall as [Hitem Hall].
    apply (IH a1 a' _ Hrun Hall).
    by apply (integrations_item_datastores a item a1 st).
Qed.

End InsightsDatastores.

(** X26: When the integration model of some findings is extracted and every datastore record lists its datastores as a list of strings, the datastores the insights view counts are, in order, the datastores of the db_links of the model. *)
Theorem insights_datastores_are_model_datastores :
  forall (json_loads : string -> option pyval) (py_repr : pyval -> string) findings model,
    Assessment._extract_integration_model json_loads py_repr findings = Ok model ->
    Forall (text_datastores py_repr) (Assessment._parse_findings json_loads findings) ->
    snd (Assessment._extract_integrations json_loads py_repr findings)
    = map Assessment.datastore (Assessment.db_links model).
Proof.
  intros jl pr findings model Hrun Hall.
  unfold Assessment._extract_integration_model in Hrun.
  apply bind_Ok in Hrun as (a & Hloop & [= <-]). simpl.
  unfold Assessment._extract_integrations.
  by apply (integrations_loop_datastores pr _ _ _ _ Hloop Hall).
Qed.

Lemma insights_datastores_are_model_datastores_witness :
  snd (Assessment._extract_integrations Samples.no_json Samples.no_repr
         Samples.mysql_findings)
  = map Assessment.datastore
        (Assessment.db_links (Assessment.IntegrationModel []
                                [Assessment.DbLink "mysql" "tight"] [])).
Proof.
  apply (insights_datastores_are_model_datastores Samples.no_json Samples.no_repr
           Samples.mysql_findings).
  - vm_compute. reflexivity.
  - vm_compute. repeat constructor. intros it [= <-] _.
    exists [PStr "MySQL"; PStr "none"]. split; reflexivity.
Defined.
